(** * velodyne_puck_decoder: the VLP-16 packet decoder

    A shallow embedding of [src/velodyne_puck_decoder.cpp]: the parameter
    loading, the validity check of a raw packet, the decoding of its 24
    firings and the callback that cuts the stream of packets into sweeps.

    - A C++ [double] is a binary64 float of the kernel ([PrimFloat.float]),
      so every sum, product and comparison below is the one the compiled
      code performs.  [sin] and [cos] come from the C library and are
      fields of the class [Header], with what the header of the driver
      declares.
    - A fixed-size C++ array ([firings[24]], [azimuth[16]], [scans[16]],
      [blocks[12]], [data[96]]) is a function from indices; an assignment
      [a[i] = v] is [upd a i v].  No index used by the code leaves the
      bounds of its array.
    - A [std::vector] of points is a list; [push_back] appends at the end.
    - The decoder object is a record that every member function takes and
      returns; what it sends to ROS (warnings, the start message, published
      sweeps) is returned as a list of events, oldest first.
    - The buffer of a message is the list of its bytes.  The callback reads
      at its address without a length: what the memory holds after the
      buffer is a parameter ([Memory]), as the header is. *)

From Stdlib Require Import ZArith List Bool Lia.
From Stdlib Require Import Floats.PrimFloat Numbers.Cyclic.Int63.Uint63.
From stdpp Require Import base gmap strings.

Set Warnings "-inexact-float".

(** ** Numbers *)

Definition double := float.

(** [M_PI] of <cmath>: the double nearest to pi. *)
Definition M_PI : double := 0x1.921fb54442d18p+1%float.

(** [static_cast<double>] of an unsigned integer ([uint8_t], [uint16_t],
    [size_t]): exact for every value the decoder converts. *)
Definition static_cast_double (n : Z) : double :=
  PrimFloat.of_uint63 (Uint63.of_Z n).

Definition double_of_size_t (n : nat) : double :=
  static_cast_double (Z.of_nat n).

(** ** Arrays *)

Definition array (A : Type) := nat -> A.

Definition upd {A : Type} (a : array A) (i : nat) (v : A) : array A :=
  fun j => if Nat.eqb j i then v else a j.

(** The indices [start, start + step, ...] visited by
    [for (i = start; i < stop; i += step)]. *)
Fixpoint count_up (n start step : nat) : list nat :=
  match n with
  | O => []
  | S n' => start :: count_up n' (start + step) step
  end.

Definition for_range (start stop step : nat) : list nat :=
  count_up (Nat.div (stop - start + (step - 1)) step) start step.

(** ** The wire format

    Modelled from the spec: the structures [RawBlock] and [RawPacket] and the
    sizes below are declared in [velodyne_puck_decoder.h], which is not part
    of the sources.  A packet is 12 blocks of 100 bytes (a 2-byte header, a
    2-byte rotation, 32 triplets of a 2-byte distance and a 1-byte
    intensity) followed by 6 bytes, 1206 bytes in all; multi-byte fields are
    little-endian. *)

Definition BLOCKS_PER_PACKET : nat := 12.
Definition FIRINGS_PER_BLOCK : nat := 2.
Definition SCANS_PER_FIRING : nat := 16.
Definition FIRINGS_PER_PACKET : nat := FIRINGS_PER_BLOCK * BLOCKS_PER_PACKET.
Definition RAW_SCAN_SIZE : nat := 3.
Definition SIZE_BLOCK : nat := 100.
Definition PACKET_SIZE : nat := 1206.

Record RawBlock := {
  header : Z;            (* uint16_t *)
  rotation : Z;          (* uint16_t, hundredths of a degree *)
  data : array Z         (* uint8_t [96] *)
}.

Record RawPacket := { blocks : array RawBlock }.

(** [union TwoBytes]: the [uint16_t] that shares its storage with two bytes,
    on the little-endian host the driver is written for. *)
Definition TwoBytes (byte0 byte1 : Z) : Z := Z.lor byte0 (Z.shiftl byte1 8).

Definition byte_at (msg : list Z) (i : nat) : Z := nth i msg 0%Z.

Definition block_at (msg : list Z) (blk_idx : nat) : RawBlock :=
  let base := SIZE_BLOCK * blk_idx in
  {| header := TwoBytes (byte_at msg base) (byte_at msg (base + 1));
     rotation := TwoBytes (byte_at msg (base + 2)) (byte_at msg (base + 3));
     data := fun i => byte_at msg (base + 4 + i) |}.

(** ** The storage of a message

    The callback is given the address of the first byte of the buffer of a
    message and no length.  A read at an offset inside the buffer meets the
    byte of the buffer; a read past its last byte meets what the memory
    holds after the buffer.  [beyond msg] is that: the bytes that can be
    read after the last byte of the buffer [msg], in the order of their
    addresses, none where the memory that can be read ends with the
    buffer. *)
Class Memory := { beyond : list Z -> list Z }.

(** [(const RawPacket* ) (&(msg->data[0]))], line 164: the bytes at the
    address of the buffer read as a [RawPacket].  Nothing compares the
    length of the buffer with the size of the structure.  The decoder reads
    the 12 blocks of the structure, bytes 0 to 1199 at that address, and no
    byte after them.  For a buffer of fewer bytes C++ gives the reads past
    its end no meaning; the machine reads the bytes that follow the buffer,
    and the model does the same.  Only where fewer than 1200 bytes can be
    read at the address at all is there no packet: the read faults and the
    callback has no result ([None]). *)
Definition reinterpret_RawPacket {mem : Memory} (msg : list Z) :
    option RawPacket :=
  let storage := msg ++ beyond msg in
  if Nat.ltb (length storage) (SIZE_BLOCK * BLOCKS_PER_PACKET) then None
  else Some {| blocks := block_at storage |}.

(** ** Messages *)

Module velodyne_puck_msgs.

(** The message declarations are not part of the sources; the fields are
    the ones the decoder assigns, each holding the double it is given. *)
Record VelodynePuckPoint := {
  time : double;
  x : double;
  y : double;
  z : double;
  azimuth : double;
  distance : double;
  intensity : double
}.

Record VelodynePuckScan := {
  altitude : double;
  points : list VelodynePuckPoint
}.

Record VelodynePuckSweep := { scans : array VelodynePuckScan }.

End velodyne_puck_msgs.

Import velodyne_puck_msgs.

Definition VelodynePuckPoint := velodyne_puck_msgs.VelodynePuckPoint.
Definition VelodynePuckScan := velodyne_puck_msgs.VelodynePuckScan.
Definition VelodynePuckSweep := velodyne_puck_msgs.VelodynePuckSweep.

(** What a call hands to ROS.  A published sweep is the sweep as it is when
    [publish] is called: what the decoder does to its buffer afterwards is
    not seen in the event. *)
Inductive Event :=
| ROS_WARN (blk_idx : nat) (hdr : Z)
| ROS_INFO
| publish (sweep : VelodynePuckSweep).

(** The sweeps that a list of events publishes. *)
Definition published (events : list Event) : list VelodynePuckSweep :=
  flat_map (fun e => match e with publish sweep => [sweep] | _ => [] end) events.

(** ** The decoder object *)

Record Firing := {
  firing_azimuth : double;
  azimuth : array double;     (* [16] *)
  distance : array double;    (* [16] *)
  intensity : array double    (* [16] *)
}.

Record VelodynePuckDecoder := {
  min_range : double;
  max_range : double;
  is_first_sweep : bool;
  last_azimuth : double;
  sweep_start_time : double;
  packet_start_time : double;
  firings : array Firing;     (* [24] *)
  sweep_data : VelodynePuckSweep
}.

Definition set_firing_azimuth (v : double) (f : Firing) : Firing :=
  {| firing_azimuth := v; azimuth := azimuth f;
     distance := distance f; intensity := intensity f |}.

Definition set_azimuth (a : array double) (f : Firing) : Firing :=
  {| firing_azimuth := firing_azimuth f; azimuth := a;
     distance := distance f; intensity := intensity f |}.

Definition set_distance (a : array double) (f : Firing) : Firing :=
  {| firing_azimuth := firing_azimuth f; azimuth := azimuth f;
     distance := a; intensity := intensity f |}.

Definition set_intensity (a : array double) (f : Firing) : Firing :=
  {| firing_azimuth := firing_azimuth f; azimuth := azimuth f;
     distance := distance f; intensity := a |}.

Definition set_min_range (v : double) (this : VelodynePuckDecoder) :=
  {| min_range := v; max_range := max_range this;
     is_first_sweep := is_first_sweep this; last_azimuth := last_azimuth this;
     sweep_start_time := sweep_start_time this;
     packet_start_time := packet_start_time this;
     firings := firings this; sweep_data := sweep_data this |}.

Definition set_max_range (v : double) (this : VelodynePuckDecoder) :=
  {| min_range := min_range this; max_range := v;
     is_first_sweep := is_first_sweep this; last_azimuth := last_azimuth this;
     sweep_start_time := sweep_start_time this;
     packet_start_time := packet_start_time this;
     firings := firings this; sweep_data := sweep_data this |}.

Definition set_is_first_sweep (v : bool) (this : VelodynePuckDecoder) :=
  {| min_range := min_range this; max_range := max_range this;
     is_first_sweep := v; last_azimuth := last_azimuth this;
     sweep_start_time := sweep_start_time this;
     packet_start_time := packet_start_time this;
     firings := firings this; sweep_data := sweep_data this |}.

Definition set_last_azimuth (v : double) (this : VelodynePuckDecoder) :=
  {| min_range := min_range this; max_range := max_range this;
     is_first_sweep := is_first_sweep this; last_azimuth := v;
     sweep_start_time := sweep_start_time this;
     packet_start_time := packet_start_time this;
     firings := firings this; sweep_data := sweep_data this |}.

Definition set_packet_start_time (v : double) (this : VelodynePuckDecoder) :=
  {| min_range := min_range this; max_range := max_range this;
     is_first_sweep := is_first_sweep this; last_azimuth := last_azimuth this;
     sweep_start_time := sweep_start_time this;
     packet_start_time := v;
     firings := firings this; sweep_data := sweep_data this |}.

Definition set_firings (v : array Firing) (this : VelodynePuckDecoder) :=
  {| min_range := min_range this; max_range := max_range this;
     is_first_sweep := is_first_sweep this; last_azimuth := last_azimuth this;
     sweep_start_time := sweep_start_time this;
     packet_start_time := packet_start_time this;
     firings := v; sweep_data := sweep_data this |}.

Definition set_sweep_data (v : VelodynePuckSweep) (this : VelodynePuckDecoder) :=
  {| min_range := min_range this; max_range := max_range this;
     is_first_sweep := is_first_sweep this; last_azimuth := last_azimuth this;
     sweep_start_time := sweep_start_time this;
     packet_start_time := packet_start_time this;
     firings := firings this; sweep_data := v |}.

(** The constructor, lines 23-33.  It leaves [min_range], [max_range] and
    [firings] as it finds them: their first values are arguments here.  The
    new sweep has 16 scans without points; [altitude0] is the altitude of a
    fresh message. *)
Definition new_VelodynePuckSweep (altitude0 : double) : VelodynePuckSweep :=
  {| scans := fun _ => {| altitude := altitude0; points := [] |} |}.

Definition new_VelodynePuckDecoder
    (min_range0 max_range0 : double) (firings0 : array Firing) :
    VelodynePuckDecoder :=
  {| min_range := min_range0; max_range := max_range0;
     is_first_sweep := true;
     last_azimuth := 0%float;
     sweep_start_time := 0%float;
     packet_start_time := 0%float;
     firings := firings0;
     sweep_data := new_VelodynePuckSweep 0%float |}.

(** ** Parameters *)

(** [pnh.param<double>(name, var, default)]: the value on the parameter
    server, or the default when the server has none. *)
Definition param (server : gmap string double) (name : string)
    (default : double) : double :=
  match server !! name with
  | Some v => v
  | None => default
  end.

(** Lines 35-40.  The third call stores into [max_range]. *)
Definition loadParameters (server : gmap string double)
    (this : VelodynePuckDecoder) : bool * VelodynePuckDecoder :=
  let this := set_min_range (param server "min_range" 0.5%float) this in
  let this := set_max_range (param server "max_range" 100.0%float) this in
  let this := set_max_range (param server "frequency" 20.0%float) this in
  (true, this).

(** Modelled from the spec: [isPointInRange] is defined in the header, which
    is not part of the sources.  The spec (4.4) filters a measurement out
    "when distance < min_range or distance > max_range". *)
Definition out_of_range (this : VelodynePuckDecoder) (d : double) : bool :=
  (d <? min_range this)%float || (max_range this <? d)%float.

Definition isPointInRange (this : VelodynePuckDecoder) (d : double) : bool :=
  negb (out_of_range this d).

(** The physical index of a scan, lines 65, 221 and 276. *)
Definition remapped_scan_idx (scan_idx : nat) : nat :=
  if Nat.eqb (Nat.modulo scan_idx 2) 0
  then Nat.div scan_idx 2 else Nat.div scan_idx 2 + 8.

(** ** The header

    The constants and tables of [velodyne_puck_decoder.h] and the helper
    [rawAzimuthToDouble] defined there, which are not part of the sources,
    and the sine and cosine of <cmath>.  The decoder is written against
    them; none of the statements on it depends on their values. *)

Class Header := {
  UPPER_BANK : Z;
  DISTANCE_RESOLUTION : double;
  DSR_TOFFSET : double;
  FIRING_TOFFSET : double;
  scan_altitude : array double;
  cos_scan_altitude : array double;
  sin_scan_altitude : array double;
  rawAzimuthToDouble : Z -> double;
  sin : double -> double;
  cos : double -> double
}.

(** ** The decoder *)

Section Decoder.

Context {hdr : Header} {mem : Memory}.

(** Lines 52-70.  [createRosIO] only registers the topics. *)
Definition createRosIO (this : VelodynePuckDecoder) :
    bool * VelodynePuckDecoder := (true, this).

Definition set_altitude (v : double) (s : VelodynePuckScan) :
    VelodynePuckScan :=
  {| altitude := v; points := points s |}.

Definition initialize (server : gmap string double)
    (this : VelodynePuckDecoder) : bool * VelodynePuckDecoder :=
  let '(ok, this) := loadParameters server this in
  if negb ok then (false, this) else
  let '(ok, this) := createRosIO this in
  if negb ok then (false, this) else
  let sweep :=
    fold_left
      (fun sw scan_idx =>
         let r := remapped_scan_idx scan_idx in
         {| scans := upd (scans sw) r
                       (set_altitude (scan_altitude scan_idx) (scans sw r)) |})
      (for_range 0 16 1) (sweep_data this) in
  (true, set_sweep_data sweep this).

(** Lines 72-81: the first block whose header is not [UPPER_BANK] is
    reported and ends the check. *)
Fixpoint checkPacketValidity_from (packet : RawPacket) (blk_idxs : list nat) :
    bool * list Event :=
  match blk_idxs with
  | [] => (true, [])
  | blk_idx :: rest =>
      if negb (Z.eqb (header (blocks packet blk_idx)) UPPER_BANK)
      then (false, [ROS_WARN blk_idx (header (blocks packet blk_idx))])
      else checkPacketValidity_from packet rest
  end.

Definition checkPacketValidity (packet : RawPacket) : bool * list Event :=
  checkPacketValidity_from packet (for_range 0 BLOCKS_PER_PACKET 1).

(** Lines 83-88. *)
Definition clear_points (s : VelodynePuckScan) : VelodynePuckScan :=
  {| altitude := altitude s; points := [] |}.

Definition clearSweepData (this : VelodynePuckDecoder) : VelodynePuckDecoder :=
  set_sweep_data
    (fold_left
       (fun sw i => {| scans := upd (scans sw) i (clear_points (scans sw i)) |})
       (for_range 0 16 1) (sweep_data this))
    this.

(** *** decodePacket, lines 90-157 *)

(** Lines 93-97: the even firings take the azimuth of their block. *)
Definition decode_block_azimuth (packet : RawPacket)
    (fs : array Firing) (fir_idx : nat) : array Firing :=
  let blk_idx := Nat.div fir_idx 2 in
  upd fs fir_idx
    (set_firing_azimuth
       (rawAzimuthToDouble (rotation (blocks packet blk_idx))) (fs fir_idx)).

(** Lines 100-118: the odd firings are interpolated. *)
Definition interpolate_azimuth (fs : array Firing) (fir_idx : nat) :
    array Firing :=
  let last := Nat.eqb fir_idx (FIRINGS_PER_PACKET - 1) in
  let lfir_idx := if last then fir_idx - 3 else fir_idx - 1 in
  let rfir_idx := if last then fir_idx - 1 else fir_idx + 1 in
  let azimuth_diff :=
    (firing_azimuth (fs rfir_idx) - firing_azimuth (fs lfir_idx))%float in
  let azimuth_diff :=
    if (azimuth_diff <? 0)%float
    then (azimuth_diff + 2 * M_PI)%float else azimuth_diff in
  let fs :=
    upd fs fir_idx
      (set_firing_azimuth
         (firing_azimuth (fs (fir_idx - 1)%nat) + azimuth_diff / 2.0)%float
         (fs fir_idx)) in
  upd fs fir_idx
    (set_firing_azimuth
       (if (2 * M_PI <? firing_azimuth (fs fir_idx))%float
        then (firing_azimuth (fs fir_idx) - 2 * M_PI)%float
        else firing_azimuth (fs fir_idx))
       (fs fir_idx)).

(** Lines 135-153: one scan of one firing. *)
Definition decode_scan (raw_block : RawBlock) (blk_fir_idx fir_idx : nat)
    (azimuth_diff : double) (fs : array Firing) (scan_fir_idx : nat) :
    array Firing :=
  let byte_idx :=
    RAW_SCAN_SIZE * (SCANS_PER_FIRING * blk_fir_idx + scan_fir_idx) in
  (* Azimuth *)
  let fs :=
    upd fs fir_idx
      (set_azimuth
         (upd (azimuth (fs fir_idx)) scan_fir_idx
            (firing_azimuth (fs fir_idx) +
             (double_of_size_t scan_fir_idx * DSR_TOFFSET / FIRING_TOFFSET)
             * azimuth_diff)%float)
         (fs fir_idx)) in
  (* Distance *)
  let raw_distance :=
    TwoBytes (data raw_block byte_idx) (data raw_block (byte_idx + 1)) in
  let fs :=
    upd fs fir_idx
      (set_distance
         (upd (distance (fs fir_idx)) scan_fir_idx
            (static_cast_double raw_distance * DISTANCE_RESOLUTION)%float)
         (fs fir_idx)) in
  (* Intensity *)
  upd fs fir_idx
    (set_intensity
       (upd (intensity (fs fir_idx)) scan_fir_idx
          (static_cast_double (data raw_block (byte_idx + 2))))
       (fs fir_idx)).

(** Lines 124-154: one firing of one block. *)
Definition decode_firing (raw_block : RawBlock) (blk_idx : nat)
    (fs : array Firing) (blk_fir_idx : nat) : array Firing :=
  let fir_idx := blk_idx * FIRINGS_PER_BLOCK + blk_fir_idx in
  let azimuth_diff :=
    if Nat.ltb fir_idx (FIRINGS_PER_PACKET - 1)
    then (firing_azimuth (fs (fir_idx + 1)%nat) - firing_azimuth (fs fir_idx))%float
    else (firing_azimuth (fs fir_idx) - firing_azimuth (fs (fir_idx - 1)%nat))%float in
  fold_left (decode_scan raw_block blk_fir_idx fir_idx azimuth_diff)
    (for_range 0 SCANS_PER_FIRING 1) fs.

Definition decode_block (packet : RawPacket) (fs : array Firing)
    (blk_idx : nat) : array Firing :=
  let raw_block := blocks packet blk_idx in
  fold_left (decode_firing raw_block blk_idx)
    (for_range 0 FIRINGS_PER_BLOCK 1) fs.

Definition decodePacket (packet : RawPacket) (this : VelodynePuckDecoder) :
    VelodynePuckDecoder :=
  let fs := firings this in
  let fs := fold_left (decode_block_azimuth packet)
              (for_range 0 FIRINGS_PER_PACKET 2) fs in
  let fs := fold_left interpolate_azimuth
              (for_range 1 FIRINGS_PER_PACKET 2) fs in
  let fs := fold_left (decode_block packet)
              (for_range 0 BLOCKS_PER_PACKET 1) fs in
  set_firings fs this.

(** *** packetCallback, lines 160-298 *)

(** Lines 173-180, the search for the firing that opens a new sweep.  The
    body of the do-while runs once for firing 0 and then as long as
    [new_sweep_start < FIRINGS_PER_PACKET], 24 times at most: [remaining]
    counts the firings not yet compared.  The loop assigns the member
    [last_azimuth] as it goes. *)
Fixpoint find_new_sweep_start (remaining new_sweep_start : nat)
    (this : VelodynePuckDecoder) : nat * VelodynePuckDecoder :=
  match remaining with
  | O => (new_sweep_start, this)
  | S remaining' =>
      if (firing_azimuth (firings this new_sweep_start) <? last_azimuth this)%float
      then (new_sweep_start, this)
      else
        find_new_sweep_start remaining' (S new_sweep_start)
          (set_last_azimuth (firing_azimuth (firings this new_sweep_start)) this)
  end.

Definition push_back (p : VelodynePuckPoint) (s : VelodynePuckScan) :
    VelodynePuckScan :=
  {| altitude := altitude s; points := points s ++ [p] |}.

(** Lines 201-235 and, word for word, lines 256-290: one measurement. *)
Definition convert_point (this : VelodynePuckDecoder)
    (fir_idx scan_idx : nat) : VelodynePuckDecoder :=
  let f := firings this fir_idx in
  (* Check if the point is valid. *)
  if negb (isPointInRange this (distance f scan_idx)) then this else
  (* Convert the point to xyz coordinate *)
  let x := (distance f scan_idx * cos_scan_altitude scan_idx
            * sin (azimuth f scan_idx))%float in
  let y := (distance f scan_idx * cos_scan_altitude scan_idx
            * cos (azimuth f scan_idx))%float in
  let z := (distance f scan_idx * sin_scan_altitude scan_idx)%float in
  let x_coord := y in
  let y_coord := (- x)%float in
  let z_coord := z in
  (* Compute the time of the point *)
  let time := (packet_start_time this
               + FIRING_TOFFSET * double_of_size_t fir_idx
               + DSR_TOFFSET * double_of_size_t scan_idx)%float in
  (* Remap the index of the scan *)
  let remapped_scan_idx := remapped_scan_idx scan_idx in
  let new_point :=
    {| velodyne_puck_msgs.time := time;
       velodyne_puck_msgs.x := x_coord;
       velodyne_puck_msgs.y := y_coord;
       velodyne_puck_msgs.z := z_coord;
       velodyne_puck_msgs.azimuth := azimuth f scan_idx;
       velodyne_puck_msgs.distance := distance f scan_idx;
       velodyne_puck_msgs.intensity := intensity f scan_idx |} in
  set_sweep_data
    {| scans := upd (scans (sweep_data this)) remapped_scan_idx
                  (push_back new_point
                     (scans (sweep_data this) remapped_scan_idx)) |}
    this.

Definition convert_firing (this : VelodynePuckDecoder) (fir_idx : nat) :
    VelodynePuckDecoder :=
  fold_left (fun this scan_idx => convert_point this fir_idx scan_idx)
    (for_range 0 SCANS_PER_FIRING 1) this.

(** The loops of lines 199-237 and 254-292, followed by the update of
    [packet_start_time] of lines 239 and 294. *)
Definition convert_firings (start_fir_idx end_fir_idx : nat)
    (this : VelodynePuckDecoder) : VelodynePuckDecoder :=
  let this :=
    fold_left convert_firing (for_range start_fir_idx end_fir_idx 1) this in
  set_packet_start_time
    (packet_start_time this
     + FIRING_TOFFSET * double_of_size_t (end_fir_idx - start_fir_idx))%float
    this.

(** Lines 182-297: what the packet adds to the sweeps, once the firing
    that opens a new sweep is known. *)
Definition assemble_sweep (new_sweep_start : nat) (this : VelodynePuckDecoder) :
    VelodynePuckDecoder * list Event :=
  (* The first sweep may not be complete. We will wait for the second
     sweep in order to find the 0 azimuth angle. *)
  let start_fir_idx := 0 in
  let end_fir_idx := new_sweep_start in
  if is_first_sweep this && Nat.eqb new_sweep_start FIRINGS_PER_PACKET
  then (this, [])
  else
    let '(this, start_fir_idx, end_fir_idx, info) :=
      if is_first_sweep this
      then (set_is_first_sweep false this,
            new_sweep_start, FIRINGS_PER_PACKET, [ROS_INFO])
      else (this, start_fir_idx, end_fir_idx, []) in
    let this := convert_firings start_fir_idx end_fir_idx this in
    (* A new sweep begins *)
    if negb (Nat.eqb end_fir_idx FIRINGS_PER_PACKET) then
      (* Publish the last revolution *)
      let published := [publish (sweep_data this)] in
      let this := clearSweepData this in
      (* Prepare the next revolution *)
      let this := set_packet_start_time 0.0%float this in
      let this :=
        set_last_azimuth
          (firing_azimuth (firings this (FIRINGS_PER_PACKET - 1))) this in
      let start_fir_idx := end_fir_idx in
      let end_fir_idx := FIRINGS_PER_PACKET in
      let this := convert_firings start_fir_idx end_fir_idx this in
      (this, info ++ published)
    else (this, info).

(** Lines 166-180, once the message is read as a packet, and the assembly
    that follows them. *)
Definition decode (raw_packet : RawPacket) (this : VelodynePuckDecoder) :
    VelodynePuckDecoder * list Event :=
  (* Check if the packet is valid *)
  let '(valid, warning) := checkPacketValidity raw_packet in
  if negb valid then (this, warning) else
  (* Decode the packet *)
  let this := decodePacket raw_packet this in
  (* Convert the packets *)
  let '(new_sweep_start, this) :=
    find_new_sweep_start FIRINGS_PER_PACKET 0 this in
  assemble_sweep new_sweep_start this.

(** Lines 160-298.  The callback has a result whenever the bytes of the 12
    blocks can be read at the address of the buffer, whatever the length of
    the buffer. *)
Definition packetCallback (msg : list Z) (this : VelodynePuckDecoder) :
    option (VelodynePuckDecoder * list Event) :=
  match reinterpret_RawPacket msg with
  | None => None
  | Some raw_packet => Some (decode raw_packet this)
  end.

(** The callback run on the packets of a stream, in their order. *)
Fixpoint packetCallbacks (msgs : list (list Z)) (this : VelodynePuckDecoder) :
    option (VelodynePuckDecoder * list Event) :=
  match msgs with
  | [] => Some (this, [])
  | msg :: rest =>
      match packetCallback msg this with
      | None => None
      | Some (this, events) =>
          match packetCallbacks rest this with
          | None => None
          | Some (this, events') => Some (this, events ++ events')
          end
      end
  end.

End Decoder.

(** ** A decoder on concrete values

    The header of the driver, the sine and the cosine are parameters of the
    decoder, and so is the memory that follows a buffer.  The closed
    examples of this file instantiate them here. *)

Module Vlp16.

(** The altitude of the 16 lasers, in degrees: -15, 1, -13, 3, ... *)
Definition scan_altitude_deg (scan_idx : nat) : Z :=
  if Nat.eqb (Nat.modulo scan_idx 2) 0
  then (-15 + 2 * Z.of_nat (Nat.div scan_idx 2))%Z
  else (1 + 2 * Z.of_nat (Nat.div scan_idx 2))%Z.

Definition altitude_of (scan_idx : nat) : double :=
  let deg := scan_altitude_deg scan_idx in
  let a := (static_cast_double (Z.abs deg) * (M_PI / 180.0))%float in
  if (deg <? 0)%Z then (- a)%float else a.

(** No statement of this file depends on the values of the sine and the
    cosine.  A closed example needs two functions and takes the first
    terms of their series. *)
Definition sin_series (a : double) : double := (a - a * a * a / 6.0)%float.
Definition cos_series (a : double) : double := (1.0 - a * a / 2.0)%float.

(** Modelled from the spec: the bank marker, the resolution of a distance
    (3: "e.g. 0.002 m/unit"), the two intervals of the firing cycle and the
    altitudes are data of the header, which is not part of the sources; the
    values are those of the VLP-16 sensor.  The raw azimuth is in
    "hundredths of a degree, scaled to radians on read" (3). *)
Definition header : Header := {|
  UPPER_BANK := 0xeeff;
  DISTANCE_RESOLUTION := 0.002%float;
  DSR_TOFFSET := 2.304%float;
  FIRING_TOFFSET := 55.296%float;
  scan_altitude := altitude_of;
  cos_scan_altitude := fun scan_idx => cos_series (altitude_of scan_idx);
  sin_scan_altitude := fun scan_idx => sin_series (altitude_of scan_idx);
  rawAzimuthToDouble := fun raw_azimuth =>
    (static_cast_double raw_azimuth / 100.0 * (M_PI / 180.0))%float;
  sin := sin_series;
  cos := cos_series
|}.

(** A block of the wire format: its header, its rotation and 32 times the
    same measurement. *)
Definition low_byte (n : Z) : Z := Z.land n 255.
Definition high_byte (n : Z) : Z := Z.land (Z.shiftr n 8) 255.

Definition raw_block (hdr rot dist inten : Z) : list Z :=
  [low_byte hdr; high_byte hdr; low_byte rot; high_byte rot]
  ++ concat (repeat [low_byte dist; high_byte dist; inten] 32).

(** A packet: 12 blocks, each given by its rotation (hundredths of a
    degree) and the raw distance of its measurements (units of 2 mm), and
    the 6 bytes that close it. *)
Definition raw_packet (blks : list (Z * Z)) : list Z :=
  concat (map (fun b => raw_block 0xeeff (fst b) (snd b) 100) blks)
  ++ repeat 0%Z 6.

Definition at_10m (rotations : list Z) : list (Z * Z) :=
  map (fun rot => (rot, 5000%Z)) rotations.

(** The packet that a buffer of full size is read as. *)
Definition packet_of (msg : list Z) : RawPacket := {| blocks := block_at msg |}.

(** A memory in which every buffer is followed by the bytes [after], and
    the memory of the examples, in which nothing can be read after a
    buffer. *)
Definition followed_by (after : list Z) : Memory :=
  {| beyond := fun _ => after |}.

Definition memory : Memory := followed_by [].

(** A decoder as the node builds it: constructed, then initialized on a
    parameter server without values. *)
Definition blank_firing : Firing :=
  {| firing_azimuth := 0%float; azimuth := fun _ => 0%float;
     distance := fun _ => 0%float; intensity := fun _ => 0%float |}.

Definition node : VelodynePuckDecoder :=
  snd (@initialize header ∅
         (new_VelodynePuckDecoder 0%float 0%float (fun _ => blank_firing))).

(** The decoder after the packets of a stream. *)
Definition after (msgs : list (list Z)) (this : VelodynePuckDecoder) :
    VelodynePuckDecoder :=
  match @packetCallbacks header memory msgs this with
  | Some (this', _) => this'
  | None => this
  end.

(** The events of the packets of a stream. *)
Definition events_of (msgs : list (list Z)) (this : VelodynePuckDecoder) :
    list Event :=
  match @packetCallbacks header memory msgs this with
  | Some (_, events) => events
  | None => []
  end.

(** The packets of the scenario of 8.  Packet 1: azimuths from 10 to 350
    degrees, without a decrease.  Packet 2: on from 353 degrees, through 0
    at firing 8.  Packet 3: from 17 to 40 degrees.  Packet 4: on from 350
    degrees, through 0 at firing 3; its first two blocks measure 0.2 m, which
    is below [min_range]. *)
Definition packet1 : list Z :=
  raw_packet (at_10m [1000; 4000; 7000; 10000; 13000; 16000; 19000; 22000;
                      25000; 28000; 34500; 35000]%Z).

Definition packet2 : list Z :=
  raw_packet (at_10m [35300; 35500; 35700; 35850; 100; 300; 500; 700;
                      900; 1100; 1300; 1500]%Z).

Definition packet3 : list Z :=
  raw_packet (at_10m [1700; 1900; 2100; 2300; 2500; 2700; 2900; 3100;
                      3300; 3500; 3700; 3900]%Z).

Definition packet4 : list Z :=
  raw_packet ([(35000, 100); (35950, 100)]%Z
              ++ at_10m [150; 350; 550; 750; 950; 1150; 1350; 1550;
                         1750; 1950]%Z).

(** A packet that goes on after packet 1 without a decrease, from 353 to
    358.75 degrees. *)
Definition packet1b : list Z :=
  raw_packet (at_10m [35300; 35350; 35400; 35450; 35500; 35550; 35600;
                      35650; 35700; 35750; 35800; 35850]%Z).

(** A packet whose azimuths decrease twice, at firings 3 and 12. *)
Definition two_wraps : list Z :=
  raw_packet (at_10m [35000; 35950; 150; 350; 35000; 35200; 100; 300;
                      500; 700; 900; 1100]%Z).

(** Packet 3 with a header of block 5 that is not the marker. *)
Definition bad_header : list Z :=
  firstn 500 packet3 ++ [0xff; 0xdd]%Z ++ skipn 502 packet3.

(** What a result lets one count: whether the decoder still waits, the
    points of each channel of the sweep in progress, and the points of each
    channel of each sweep published. *)
Definition channel_sizes (sweep : VelodynePuckSweep) : list nat :=
  map (fun c => length (points (scans sweep c))) (seq 0 16).

Definition counts (r : option (VelodynePuckDecoder * list Event)) :
    option (bool * list nat * list (list nat)) :=
  match r with
  | Some (this, events) =>
      Some (is_first_sweep this, channel_sizes (sweep_data this),
            map channel_sizes (published events))
  | None => None
  end.

End Vlp16.

(** * Properties of the decoder *)

(** The conjuncts of a goal, one by one. *)
Ltac conjuncts := repeat match goal with |- _ /\ _ => split end.

(** The cases of an index below a literal bound. *)
Ltac cases_below i :=
  first [ exfalso; lia | destruct i as [|i]; [ | cases_below i ] ].

Section Properties.

Context {hdr : Header} {mem : Memory}.

(** ** Loops *)

(** A relation that every step of a loop keeps is kept by the loop. *)
Lemma fold_left_keeps {S A : Type} (R : S -> S -> Prop) (g : S -> A -> S) :
  (forall s, R s s) ->
  (forall s1 s2 s3, R s1 s2 -> R s2 s3 -> R s1 s3) ->
  (forall s a, R s (g s a)) ->
  forall l s, R s (fold_left g l s).
Proof.
  intros Hrefl Htrans Hstep l.
  induction l as [|a l IH]; intros s; simpl.
  - apply Hrefl.
  - eapply Htrans; [apply Hstep | apply IH].
Qed.

(** A loop whose steps append to a list, and keep what the appended items
    are computed from, appends the items of its steps in their order. *)
Lemma fold_left_appends {S A B : Type} (R : S -> S -> Prop)
    (g : S -> A -> S) (items : S -> list B) (h : S -> A -> list B) :
  (forall s, R s s) ->
  (forall s1 s2 s3, R s1 s2 -> R s2 s3 -> R s1 s3) ->
  (forall s a, R s (g s a)) ->
  (forall s a, items (g s a) = items s ++ h s a) ->
  (forall s s' a, R s s' -> h s' a = h s a) ->
  forall l s,
    items (fold_left g l s) = items s ++ flat_map (h s) l.
Proof.
  intros Hrefl Htrans Hstep Happ Hh l.
  induction l as [|a l IH]; intros s; simpl.
  - now rewrite app_nil_r.
  - rewrite IH, Happ, <- app_assoc. f_equal. f_equal.
    apply flat_map_ext. intros b. apply Hh, Hstep.
Qed.

(** ** The azimuth of a firing *)

(** Lines 120-155 assign the arrays of each firing and leave its
    [firing_azimuth] as lines 93-118 computed it. *)
Definition same_firing_azimuths (fs fs' : array Firing) : Prop :=
  forall i, firing_azimuth (fs' i) = firing_azimuth (fs i).

Lemma decode_scan_firing_azimuth raw_block blk_fir_idx fir_idx azimuth_diff fs scan_fir_idx :
  same_firing_azimuths fs
    (decode_scan raw_block blk_fir_idx fir_idx azimuth_diff fs scan_fir_idx).
Proof.
  intros i. unfold decode_scan, upd.
  destruct (Nat.eqb i fir_idx) eqn:E; [|reflexivity].
  apply Nat.eqb_eq in E as ->. rewrite !Nat.eqb_refl. reflexivity.
Qed.

Lemma same_firing_azimuths_refl fs : same_firing_azimuths fs fs.
Proof. now intros i. Qed.

Lemma same_firing_azimuths_trans fs1 fs2 fs3 :
  same_firing_azimuths fs1 fs2 -> same_firing_azimuths fs2 fs3 ->
  same_firing_azimuths fs1 fs3.
Proof. intros H12 H23 i. now rewrite H23, H12. Qed.

Lemma decode_block_firing_azimuth packet fs blk_idx :
  same_firing_azimuths fs (decode_block packet fs blk_idx).
Proof.
  unfold decode_block.
  apply fold_left_keeps with (R := same_firing_azimuths);
    auto using same_firing_azimuths_refl.
  - apply same_firing_azimuths_trans.
  - intros s a. unfold decode_firing.
    apply fold_left_keeps with (R := same_firing_azimuths);
      auto using same_firing_azimuths_refl, decode_scan_firing_azimuth.
    apply same_firing_azimuths_trans.
Qed.

(** The azimuths of lines 93-118, before the arrays are filled. *)
Definition decode_azimuths (packet : RawPacket) (fs : array Firing) :
    array Firing :=
  fold_left interpolate_azimuth (for_range 1 FIRINGS_PER_PACKET 2)
    (fold_left (decode_block_azimuth packet) (for_range 0 FIRINGS_PER_PACKET 2) fs).

Lemma decodePacket_firing_azimuth packet this i :
  firing_azimuth (firings (decodePacket packet this) i)
  = firing_azimuth (decode_azimuths packet (firings this) i).
Proof.
  unfold decodePacket. cbn [firings set_firings].
  apply (fold_left_keeps same_firing_azimuths (decode_block packet)
           same_firing_azimuths_refl same_firing_azimuths_trans
           (decode_block_firing_azimuth packet)).
Qed.

(** The interpolation of 4.2 in the words of the spec: the difference of
    the right and the left azimuth, brought back above 0 by a turn, halved
    and added to the base; the sum brought back below a turn. *)
Definition unwrap_diff (diff : double) : double :=
  if (diff <? 0)%float then (diff + 2 * M_PI)%float else diff.

Definition wrap_azimuth (a : double) : double :=
  if (2 * M_PI <? a)%float then (a - 2 * M_PI)%float else a.

Definition interpolated (base left right : double) : double :=
  wrap_azimuth (base + unwrap_diff (right - left) / 2.0)%float.


(** C6. The 24 firing azimuths that decodePacket computes: firing 2i has the
    azimuth of block i; an odd firing j below 23 has the azimuth of firing
    j-1 plus half the difference of the azimuths of firings j+1 and j-1, a
    turn added to a negative difference and a turn taken off a result above
    a turn; firing 23 takes firings 20 and 22 as the left and the right of
    that difference. *)
Theorem decodePacket_interpolates_azimuths (packet : RawPacket)
    (this : VelodynePuckDecoder) :
  let az := fun i => firing_azimuth (firings (decodePacket packet this) i) in
  (forall i, i < BLOCKS_PER_PACKET ->
     az (2 * i) = rawAzimuthToDouble (rotation (blocks packet i)))
  /\ (forall j, Nat.odd j = true -> j < 23 ->
       az j = interpolated (az (j - 1)) (az (j - 1)) (az (j + 1)))
  /\ az 23 = interpolated (az 22) (az 20) (az 22).
Proof.
  cbv zeta. split; [|split].
  - intros i Hi. rewrite decodePacket_firing_azimuth.
    unfold BLOCKS_PER_PACKET in Hi.
    cases_below i; vm_compute; reflexivity.
  - intros j Hodd Hj. rewrite !decodePacket_firing_azimuth.
    cases_below j; try discriminate Hodd; vm_compute; reflexivity.
  - rewrite !decodePacket_firing_azimuth. vm_compute. reflexivity.
Qed.

(** ** The points of a segment of firings *)

(** The projection of 4.4 in the words of the spec, for the measurement of
    scan [scan_idx] of firing [fir_idx]: the point in the frame of the
    sensor, its axes renamed, and its time in the sweep. *)
Definition projected (this : VelodynePuckDecoder) (fir_idx scan_idx : nat) :
    VelodynePuckPoint :=
  let d := distance (firings this fir_idx) scan_idx in
  let a := azimuth (firings this fir_idx) scan_idx in
  let x := (d * cos_scan_altitude scan_idx * sin a)%float in
  let y := (d * cos_scan_altitude scan_idx * cos a)%float in
  let z := (d * sin_scan_altitude scan_idx)%float in
  {| velodyne_puck_msgs.time :=
       (packet_start_time this + FIRING_TOFFSET * double_of_size_t fir_idx
        + DSR_TOFFSET * double_of_size_t scan_idx)%float;
     velodyne_puck_msgs.x := y;
     velodyne_puck_msgs.y := (- x)%float;
     velodyne_puck_msgs.z := z;
     velodyne_puck_msgs.azimuth := a;
     velodyne_puck_msgs.distance := d;
     velodyne_puck_msgs.intensity := intensity (firings this fir_idx) scan_idx |}.

(** The measurement as a point, or nothing when its distance is below
    [min_range] or above [max_range]. *)
Definition project (this : VelodynePuckDecoder) (fir_idx scan_idx : nat) :
    list VelodynePuckPoint :=
  if out_of_range this (distance (firings this fir_idx) scan_idx)
  then [] else [projected this fir_idx scan_idx].

(** The scan of a firing that feeds physical channel [c]. *)
Definition raw_scan_idx (c : nat) : nat :=
  if Nat.ltb c 8 then 2 * c else 2 * (c - 8) + 1.

(** The points that firings [start_fir_idx, end_fir_idx) give to channel
    [c], in the order of the firings. *)
Definition in_range_points (this : VelodynePuckDecoder)
    (start_fir_idx end_fir_idx c : nat) : list VelodynePuckPoint :=
  flat_map (fun fir_idx => project this fir_idx (raw_scan_idx c))
    (for_range start_fir_idx end_fir_idx 1).

Definition channel (this : VelodynePuckDecoder) (c : nat) :
    list VelodynePuckPoint :=
  points (scans (sweep_data this) c).

(** What the conversion of points leaves alone: every member but the points
    of the sweep. *)
Definition same_but_points (this this' : VelodynePuckDecoder) : Prop :=
  min_range this' = min_range this
  /\ max_range this' = max_range this
  /\ is_first_sweep this' = is_first_sweep this
  /\ last_azimuth this' = last_azimuth this
  /\ sweep_start_time this' = sweep_start_time this
  /\ packet_start_time this' = packet_start_time this
  /\ firings this' = firings this
  /\ forall c, altitude (scans (sweep_data this') c)
               = altitude (scans (sweep_data this) c).

Lemma same_but_points_refl this : same_but_points this this.
Proof. repeat split. Qed.

Lemma same_but_points_trans this1 this2 this3 :
  same_but_points this1 this2 -> same_but_points this2 this3 ->
  same_but_points this1 this3.
Proof.
  intros (?&?&?&?&?&?&?&Ha) (?&?&?&?&?&?&?&Hb).
  repeat split; first [congruence | intros c; now rewrite Hb, Ha].
Qed.

Lemma project_same_but_points this this' fir_idx scan_idx :
  same_but_points this this' ->
  project this' fir_idx scan_idx = project this fir_idx scan_idx.
Proof.
  intros (Hmin&Hmax&_&_&_&Hpst&Hfs&_).
  unfold project, projected, out_of_range. now rewrite Hmin, Hmax, Hpst, Hfs.
Qed.

Lemma convert_point_same_but_points this fir_idx scan_idx :
  same_but_points this (convert_point this fir_idx scan_idx).
Proof.
  unfold convert_point.
  destruct (negb _); [apply same_but_points_refl|].
  repeat split. intros c. cbn. unfold upd.
  destruct (Nat.eqb c _) eqn:E; [|reflexivity].
  apply Nat.eqb_eq in E as ->. reflexivity.
Qed.

Lemma convert_point_channel this fir_idx scan_idx c :
  channel (convert_point this fir_idx scan_idx) c
  = channel this c
    ++ (if Nat.eqb (remapped_scan_idx scan_idx) c
        then project this fir_idx scan_idx else []).
Proof.
  unfold convert_point, project, isPointInRange, channel.
  rewrite negb_involutive.
  destruct (out_of_range _ _).
  - destruct (Nat.eqb _ c); now rewrite app_nil_r.
  - cbn. unfold upd. rewrite (Nat.eqb_sym c).
    destruct (Nat.eqb _ c) eqn:E.
    + apply Nat.eqb_eq in E as <-. reflexivity.
    + now rewrite app_nil_r.
Qed.

(** Each physical channel is fed by one scan of a firing. *)
Lemma one_scan_per_channel {B : Type} (q : nat -> list B) (c : nat) :
  c < 16 ->
  flat_map (fun scan_idx =>
              if Nat.eqb (remapped_scan_idx scan_idx) c then q scan_idx else [])
    (for_range 0 SCANS_PER_FIRING 1)
  = q (raw_scan_idx c).
Proof.
  intros Hc. cases_below c; cbn; now rewrite ?app_nil_r.
Qed.

Lemma convert_firing_same_but_points this fir_idx :
  same_but_points this (convert_firing this fir_idx).
Proof.
  unfold convert_firing.
  apply fold_left_keeps with (R := same_but_points);
    auto using same_but_points_refl, convert_point_same_but_points.
  apply same_but_points_trans.
Qed.

Lemma convert_firing_channel this fir_idx c :
  c < 16 ->
  channel (convert_firing this fir_idx) c
  = channel this c ++ project this fir_idx (raw_scan_idx c).
Proof.
  intros Hc. unfold convert_firing.
  rewrite (fold_left_appends same_but_points
             (fun this scan_idx => convert_point this fir_idx scan_idx)
             (fun this => channel this c)
             (fun this scan_idx =>
                if Nat.eqb (remapped_scan_idx scan_idx) c
                then project this fir_idx scan_idx else [])).
  - f_equal. now apply (one_scan_per_channel (project this fir_idx)).
  - apply same_but_points_refl.
  - apply same_but_points_trans.
  - intros. apply convert_point_same_but_points.
  - intros. apply convert_point_channel.
  - intros s s' a Hs. destruct (Nat.eqb _ c); [|reflexivity].
    now apply project_same_but_points.
Qed.

(** The loop over the firings of a segment: every channel receives the
    in-range points of the segment, in the order of the firings; only
    [packet_start_time] changes besides, by [FIRING_TOFFSET] a firing. *)
Lemma convert_firings_channel start_fir_idx end_fir_idx this c :
  c < 16 ->
  channel (convert_firings start_fir_idx end_fir_idx this) c
  = channel this c ++ in_range_points this start_fir_idx end_fir_idx c.
Proof.
  intros Hc. unfold convert_firings, in_range_points.
  change (channel (set_packet_start_time ?v ?s) c) with (channel s c).
  apply (fold_left_appends same_but_points convert_firing
           (fun this => channel this c)
           (fun this fir_idx => project this fir_idx (raw_scan_idx c))).
  - apply same_but_points_refl.
  - apply same_but_points_trans.
  - apply convert_firing_same_but_points.
  - intros. now apply convert_firing_channel.
  - intros. now apply project_same_but_points.
Qed.

Lemma convert_firings_members start_fir_idx end_fir_idx this :
  let this' := convert_firings start_fir_idx end_fir_idx this in
  min_range this' = min_range this
  /\ max_range this' = max_range this
  /\ is_first_sweep this' = is_first_sweep this
  /\ last_azimuth this' = last_azimuth this
  /\ packet_start_time this'
     = (packet_start_time this
        + FIRING_TOFFSET * double_of_size_t (end_fir_idx - start_fir_idx))%float
  /\ firings this' = firings this
  /\ forall c, altitude (scans (sweep_data this') c)
               = altitude (scans (sweep_data this) c).
Proof.
  cbv zeta. unfold convert_firings.
  destruct (fold_left_keeps same_but_points convert_firing
              same_but_points_refl same_but_points_trans
              convert_firing_same_but_points
              (for_range start_fir_idx end_fir_idx 1) this)
    as (Hmin&Hmax&Hfirst&Hlast&_&Hpst&Hfs&Halt).
  unfold set_packet_start_time.
  cbn [min_range max_range is_first_sweep last_azimuth packet_start_time
       firings sweep_data].
  rewrite Hpst. repeat split; assumption.
Qed.

(** ** The validity of a packet *)

Definition valid_packet (packet : RawPacket) : Prop :=
  forall blk_idx, blk_idx < BLOCKS_PER_PACKET ->
    header (blocks packet blk_idx) = UPPER_BANK.

Lemma checkPacketValidity_from_valid packet blk_idxs :
  (forall blk_idx, In blk_idx blk_idxs ->
     header (blocks packet blk_idx) = UPPER_BANK) ->
  checkPacketValidity_from packet blk_idxs = (true, []).
Proof.
  induction blk_idxs as [|b l IH]; intros Hall; simpl; [reflexivity|].
  rewrite (Hall b (or_introl eq_refl)), Z.eqb_refl. simpl.
  apply IH. intros. apply Hall. now right.
Qed.

Lemma checkPacketValidity_valid packet :
  valid_packet packet -> checkPacketValidity packet = (true, []).
Proof.
  intros Hvalid. apply checkPacketValidity_from_valid.
  intros blk_idx Hin. apply Hvalid.
  cbv in Hin. unfold BLOCKS_PER_PACKET. intuition lia.
Qed.

(** The check answers [true] without a word, or [false] with one warning
    on the first block whose header is not the marker. *)
Lemma checkPacketValidity_from_cases packet blk_idxs :
  (checkPacketValidity_from packet blk_idxs = (true, [])
   /\ forall blk_idx, In blk_idx blk_idxs ->
        header (blocks packet blk_idx) = UPPER_BANK)
  \/ exists before blk_idx after,
       blk_idxs = before ++ blk_idx :: after
       /\ (forall b, In b before -> header (blocks packet b) = UPPER_BANK)
       /\ header (blocks packet blk_idx) <> UPPER_BANK
       /\ checkPacketValidity_from packet blk_idxs
          = (false, [ROS_WARN blk_idx (header (blocks packet blk_idx))]).
Proof.
  induction blk_idxs as [|b l IH]; simpl.
  - left. split; [reflexivity|]. intros ? [].
  - destruct (Z.eqb_spec (header (blocks packet b)) UPPER_BANK) as [Heq|Hne];
      simpl.
    + destruct IH as [[Hok Hall]|(before & blk & after & -> & Hb & Hne & Hres)].
      * left. split; [assumption|]. intros ? [<-|Hin]; auto.
      * right. exists (b :: before), blk, after.
        repeat split; auto. intros ? [<-|Hin]; auto.
    + right. exists [], b, l. repeat split; auto. intros ? [].
Qed.

(** ** The search for the new sweep *)

(** The azimuth that line 175 compares firing [fir_idx] with: the one of
    the firing before it, or [last_azimuth] as the call found it. *)
Definition seen_before (this : VelodynePuckDecoder) (fir_idx : nat) : double :=
  match fir_idx with
  | O => last_azimuth this
  | S i => firing_azimuth (firings this i)
  end.

Definition decreases_at (this : VelodynePuckDecoder) (fir_idx : nat) : bool :=
  (firing_azimuth (firings this fir_idx) <? seen_before this fir_idx)%float.

(** Firing [k] is the first whose azimuth is below the one seen before. *)
Definition first_decrease (this : VelodynePuckDecoder) (k : nat) : Prop :=
  (forall i, i < k -> decreases_at this i = false)
  /\ decreases_at this k = true.

Definition no_decrease (this : VelodynePuckDecoder) : Prop :=
  forall i, i < FIRINGS_PER_PACKET -> decreases_at this i = false.

Lemma set_last_azimuth_same this :
  set_last_azimuth (last_azimuth this) this = this.
Proof. now destruct this. Qed.

(** The comparison of the search from firing [k0] on: [last_azimuth] for
    firing [k0], the azimuth of the firing before for the others. *)
Definition seen_from (k0 : nat) (this : VelodynePuckDecoder) (i : nat) : double :=
  if Nat.eqb i k0 then last_azimuth this
  else firing_azimuth (firings this (i - 1)).

Lemma seen_from_step k0 this i :
  k0 < i ->
  seen_from (S k0)
    (set_last_azimuth (firing_azimuth (firings this k0)) this) i
  = seen_from k0 this i.
Proof.
  intros Hi. unfold seen_from. cbn [firings last_azimuth set_last_azimuth].
  destruct (Nat.eqb_spec i k0) as [->|_]; [lia|].
  destruct (Nat.eqb_spec i (S k0)) as [->|_]; [|reflexivity].
  f_equal. f_equal. lia.
Qed.

Lemma seen_from_start k0 this : seen_from k0 this k0 = last_azimuth this.
Proof. unfold seen_from. now rewrite Nat.eqb_refl. Qed.

Lemma find_new_sweep_start_found remaining : forall k0 this k,
  k0 <= k < k0 + remaining ->
  (forall i, k0 <= i < k ->
     (firing_azimuth (firings this i) <? seen_from k0 this i)%float = false) ->
  (firing_azimuth (firings this k) <? seen_from k0 this k)%float = true ->
  find_new_sweep_start remaining k0 this
  = (k, set_last_azimuth (seen_from k0 this k) this).
Proof.
  induction remaining as [|r IH]; intros k0 this k Hk Hbefore Hat; [lia|].
  simpl. destruct (Nat.eq_dec k k0) as [->|Hne].
  - rewrite seen_from_start in *.
    now rewrite Hat, set_last_azimuth_same.
  - pose proof (Hbefore k0 ltac:(lia)) as H0.
    rewrite seen_from_start in H0. rewrite H0.
    rewrite (IH (S k0) _ k).
    + rewrite seen_from_step by lia. reflexivity.
    + lia.
    + intros i Hi. rewrite seen_from_step by lia.
      cbn [firings set_last_azimuth]. apply Hbefore. lia.
    + rewrite seen_from_step by lia.
      cbn [firings set_last_azimuth]. exact Hat.
Qed.

Lemma find_new_sweep_start_none remaining : forall k0 this,
  (forall i, k0 <= i < k0 + S remaining ->
     (firing_azimuth (firings this i) <? seen_from k0 this i)%float = false) ->
  find_new_sweep_start (S remaining) k0 this
  = (k0 + S remaining,
     set_last_azimuth (firing_azimuth (firings this (k0 + remaining))) this).
Proof.
  induction remaining as [|r IH]; intros k0 this Hall.
  - simpl. pose proof (Hall k0 ltac:(lia)) as H0.
    rewrite seen_from_start in H0. rewrite H0.
    now replace (k0 + 1) with (S k0) by lia; replace (k0 + 0) with k0 by lia.
  - pose proof (Hall k0 ltac:(lia)) as H0.
    rewrite seen_from_start in H0.
    change (find_new_sweep_start (S (S r)) k0 this)
      with (if (firing_azimuth (firings this k0) <? last_azimuth this)%float
            then (k0, this)
            else find_new_sweep_start (S r) (S k0)
                   (set_last_azimuth (firing_azimuth (firings this k0)) this)).
    rewrite H0, IH.
    + cbn [firings set_last_azimuth]. f_equal; [lia|].
      now replace (S k0 + r) with (k0 + S r) by lia.
    + intros i Hi. rewrite seen_from_step by lia.
      cbn [firings set_last_azimuth]. apply Hall. lia.
Qed.

Lemma seen_from_0 this i : seen_from 0 this i = seen_before this i.
Proof.
  unfold seen_from, seen_before. destruct i; cbn; [reflexivity|].
  now rewrite Nat.sub_0_r.
Qed.

(** The search stops at the first decrease, and has then stored the azimuth
    that the decrease was measured against. *)
Lemma find_first_decrease this k :
  k < FIRINGS_PER_PACKET -> first_decrease this k ->
  find_new_sweep_start FIRINGS_PER_PACKET 0 this
  = (k, set_last_azimuth (seen_before this k) this).
Proof.
  intros Hk [Hbefore Hat]. rewrite <- seen_from_0.
  apply find_new_sweep_start_found.
  - lia.
  - intros i Hi. rewrite seen_from_0. apply Hbefore. lia.
  - rewrite seen_from_0. exact Hat.
Qed.

(** Without a decrease the search visits the 24 firings and stores the
    azimuth of the last. *)
Lemma find_no_decrease this :
  no_decrease this ->
  find_new_sweep_start FIRINGS_PER_PACKET 0 this
  = (FIRINGS_PER_PACKET,
     set_last_azimuth (firing_azimuth (firings this 23)) this).
Proof.
  intros Hnone.
  apply (find_new_sweep_start_none 23 0 this).
  intros i Hi. rewrite seen_from_0. apply Hnone. unfold FIRINGS_PER_PACKET.
  simpl. lia.
Qed.

(** Whatever the azimuths, the search returns an index up to 24 and changes
    [last_azimuth] alone. *)
Lemma find_new_sweep_start_shape remaining : forall k0 this,
  exists k v,
    find_new_sweep_start remaining k0 this = (k, set_last_azimuth v this)
    /\ k0 <= k <= k0 + remaining.
Proof.
  induction remaining as [|r IH]; intros k0 this; simpl.
  - exists k0, (last_azimuth this). rewrite set_last_azimuth_same.
    split; [reflexivity | lia].
  - destruct (_ <? _)%float.
    + exists k0, (last_azimuth this). rewrite set_last_azimuth_same.
      split; [reflexivity | lia].
    + destruct (IH (S k0)
                  (set_last_azimuth (firing_azimuth (firings this k0)) this))
        as (k & v & -> & Hk).
      exists k, v. split; [reflexivity | lia].
Qed.

(** ** The assembly of sweeps *)

Lemma clearSweepData_channel this c :
  c < 16 -> channel (clearSweepData this) c = [].
Proof.
  intros Hc. unfold channel, clearSweepData.
  cbn [sweep_data set_sweep_data].
  cases_below c; reflexivity.
Qed.

(** The four ways of lines 185-297. *)
Lemma assemble_sweep_waiting this :
  is_first_sweep this = true ->
  assemble_sweep FIRINGS_PER_PACKET this = (this, []).
Proof. intros Hfirst. unfold assemble_sweep. now rewrite Hfirst. Qed.

Lemma assemble_sweep_starts this k :
  is_first_sweep this = true -> k < FIRINGS_PER_PACKET ->
  assemble_sweep k this
  = (convert_firings k FIRINGS_PER_PACKET (set_is_first_sweep false this),
     [ROS_INFO]).
Proof.
  intros Hfirst Hk. unfold assemble_sweep. rewrite Hfirst.
  destruct (Nat.eqb_spec k FIRINGS_PER_PACKET) as [->|_]; [lia|].
  cbn [andb]. now rewrite Nat.eqb_refl.
Qed.

Lemma assemble_sweep_continues this :
  is_first_sweep this = false ->
  assemble_sweep FIRINGS_PER_PACKET this
  = (convert_firings 0 FIRINGS_PER_PACKET this, []).
Proof.
  intros Hfirst. unfold assemble_sweep. rewrite Hfirst.
  cbn [andb]. now rewrite Nat.eqb_refl.
Qed.

(** The sweep that the packet closes, and the decoder as it starts the sweep
    that follows. *)
Definition closed_sweep (k : nat) (this : VelodynePuckDecoder) :
    VelodynePuckDecoder :=
  convert_firings 0 k this.

Definition opened_sweep (k : nat) (this : VelodynePuckDecoder) :
    VelodynePuckDecoder :=
  set_last_azimuth (firing_azimuth (firings this (FIRINGS_PER_PACKET - 1)))
    (set_packet_start_time 0.0%float (clearSweepData (closed_sweep k this))).

Lemma assemble_sweep_wraps this k :
  is_first_sweep this = false -> k < FIRINGS_PER_PACKET ->
  assemble_sweep k this
  = (convert_firings k FIRINGS_PER_PACKET (opened_sweep k this),
     [publish (sweep_data (closed_sweep k this))]).
Proof.
  intros Hfirst Hk. unfold assemble_sweep. rewrite Hfirst.
  destruct (Nat.eqb_spec k FIRINGS_PER_PACKET) as [->|_]; [lia|].
  cbn [andb negb app]. unfold opened_sweep, closed_sweep.
  f_equal. f_equal. f_equal.
  pose proof (convert_firings_members 0 k this) as (_&_&_&_&_&Hfs&_).
  unfold clearSweepData. cbn [firings set_packet_start_time set_sweep_data].
  now rewrite Hfs.
Qed.

(** ** A packet through the decoder *)

Lemma decodePacket_members packet this :
  let this' := decodePacket packet this in
  min_range this' = min_range this
  /\ max_range this' = max_range this
  /\ is_first_sweep this' = is_first_sweep this
  /\ last_azimuth this' = last_azimuth this
  /\ packet_start_time this' = packet_start_time this
  /\ sweep_data this' = sweep_data this.
Proof. cbv zeta. unfold decodePacket. repeat split. Qed.

Lemma decode_invalid packet this blk_idx hdr' :
  checkPacketValidity packet = (false, [ROS_WARN blk_idx hdr']) ->
  decode packet this = (this, [ROS_WARN blk_idx hdr']).
Proof. intros Hcheck. unfold decode. now rewrite Hcheck. Qed.

Lemma decode_checked packet this k this' :
  checkPacketValidity packet = (true, []) ->
  find_new_sweep_start FIRINGS_PER_PACKET 0 (decodePacket packet this)
  = (k, this') ->
  decode packet this = assemble_sweep k this'.
Proof.
  intros Hcheck Hfind. unfold decode.
  rewrite Hcheck. cbn [negb]. now rewrite Hfind.
Qed.

Lemma decode_valid packet this k this' :
  valid_packet packet ->
  find_new_sweep_start FIRINGS_PER_PACKET 0 (decodePacket packet this)
  = (k, this') ->
  decode packet this = assemble_sweep k this'.
Proof.
  intros Hvalid. apply decode_checked. now apply checkPacketValidity_valid.
Qed.

(** ** The points that a packet adds *)

Lemma for_range_seq start stop : for_range start stop 1 = seq start (stop - start).
Proof.
  unfold for_range. cbn [Nat.sub]. rewrite Nat.add_0_r, Nat.div_1_r.
  generalize (stop - start) as n. intros n. revert start.
  induction n as [|n IH]; intros start; simpl; [reflexivity|].
  f_equal. rewrite <- IH. f_equal. lia.
Qed.

Lemma In_for_range i start stop :
  In i (for_range start stop 1) <-> start <= i < stop.
Proof. rewrite for_range_seq, in_seq. lia. Qed.

Lemma raw_scan_idx_bound c : c < 16 -> raw_scan_idx c < 16.
Proof.
  intros Hc. unfold raw_scan_idx.
  destruct (Nat.ltb_spec c 8); lia.
Qed.

(** The projection reads the two ranges, the time of the packet and the
    firings. *)
Lemma project_ext this this' fir_idx scan_idx :
  min_range this' = min_range this ->
  max_range this' = max_range this ->
  packet_start_time this' = packet_start_time this ->
  firings this' = firings this ->
  project this' fir_idx scan_idx = project this fir_idx scan_idx.
Proof.
  intros Hmin Hmax Hpst Hfs.
  unfold project, projected, out_of_range. now rewrite Hmin, Hmax, Hpst, Hfs.
Qed.

Lemma in_range_points_ext this this' start_fir_idx end_fir_idx c :
  min_range this' = min_range this ->
  max_range this' = max_range this ->
  packet_start_time this' = packet_start_time this ->
  firings this' = firings this ->
  in_range_points this' start_fir_idx end_fir_idx c
  = in_range_points this start_fir_idx end_fir_idx c.
Proof.
  intros Hmin Hmax Hpst Hfs. unfold in_range_points.
  apply flat_map_ext. intros fir_idx. now apply project_ext.
Qed.

Lemma In_project this fir_idx scan_idx p :
  In p (project this fir_idx scan_idx) ->
  project this fir_idx scan_idx = [p].
Proof.
  unfold project. destruct (out_of_range _ _); [intros []|].
  intros [<-|[]]. reflexivity.
Qed.

Lemma In_in_range_points this start_fir_idx end_fir_idx c p :
  In p (in_range_points this start_fir_idx end_fir_idx c) ->
  exists fir_idx,
    start_fir_idx <= fir_idx < end_fir_idx
    /\ project this fir_idx (raw_scan_idx c) = [p].
Proof.
  unfold in_range_points. rewrite in_flat_map.
  intros (fir_idx & Hin & Hp). exists fir_idx.
  split; [now apply In_for_range | now apply In_project].
Qed.

Lemma remapped_raw_scan_idx c : c < 16 -> remapped_scan_idx (raw_scan_idx c) = c.
Proof. intros Hc. cases_below c; reflexivity. Qed.

(** A point that the packet in [decoded] gives to channel [c] of a sweep:
    the projection of a measurement of one of its 24 firings, at the time of
    the packet as the call found it or at 0. *)
Definition new_point (decoded : VelodynePuckDecoder) (c : nat)
    (p : VelodynePuckPoint) : Prop :=
  exists fir_idx scan_idx pst,
    fir_idx < FIRINGS_PER_PACKET /\ scan_idx < SCANS_PER_FIRING
    /\ remapped_scan_idx scan_idx = c
    /\ (pst = packet_start_time decoded \/ pst = 0.0%float)
    /\ project (set_packet_start_time pst decoded) fir_idx scan_idx = [p].

Lemma new_point_of_segment decoded this start_fir_idx end_fir_idx c p :
  c < 16 -> end_fir_idx <= FIRINGS_PER_PACKET ->
  min_range this = min_range decoded ->
  max_range this = max_range decoded ->
  firings this = firings decoded ->
  (packet_start_time this = packet_start_time decoded
   \/ packet_start_time this = 0.0%float) ->
  In p (in_range_points this start_fir_idx end_fir_idx c) ->
  new_point decoded c p.
Proof.
  intros Hc Hend Hmin Hmax Hfs Hpst Hin.
  apply In_in_range_points in Hin as (fir_idx & Hfir & Hp).
  exists fir_idx, (raw_scan_idx c), (packet_start_time this).
  split; [lia|]. split; [now apply raw_scan_idx_bound|].
  split; [now apply remapped_raw_scan_idx|]. split; [exact Hpst|].
  rewrite <- Hp. now apply project_ext.
Qed.

Lemma opened_sweep_members k this :
  min_range (opened_sweep k this) = min_range (closed_sweep k this)
  /\ max_range (opened_sweep k this) = max_range (closed_sweep k this)
  /\ packet_start_time (opened_sweep k this) = 0.0%float
  /\ firings (opened_sweep k this) = firings (closed_sweep k this)
  /\ is_first_sweep (opened_sweep k this) = is_first_sweep (closed_sweep k this)
  /\ last_azimuth (opened_sweep k this) = firing_azimuth (firings this 23)
  /\ forall c, c < 16 -> channel (opened_sweep k this) c = [].
Proof.
  unfold opened_sweep. generalize (closed_sweep k this) as closed.
  intros closed. repeat split.
  intros c Hc. now apply (clearSweepData_channel closed).
Qed.

Lemma new_point_ext this this' c p :
  min_range this' = min_range this ->
  max_range this' = max_range this ->
  packet_start_time this' = packet_start_time this ->
  firings this' = firings this ->
  new_point this c p -> new_point this' c p.
Proof.
  intros Hmin Hmax Hpst Hfs
    (fir_idx & scan_idx & pst & Hfir & Hscan & Hc & Hp & Hproj).
  exists fir_idx, scan_idx, pst.
  split; [exact Hfir|]. split; [exact Hscan|]. split; [exact Hc|].
  split; [now rewrite Hpst|].
  rewrite <- Hproj. now apply project_ext.
Qed.

(** Every point of the sweep in progress and of a sweep published by the
    assembly was in the sweep in progress before, or is a point of the
    packet.  The assembly keeps the two ranges. *)
Lemma assemble_sweep_points found k this' events :
  k <= FIRINGS_PER_PACKET ->
  assemble_sweep k found = (this', events) ->
  min_range this' = min_range found
  /\ max_range this' = max_range found
  /\ firings this' = firings found
  /\ forall c p, c < 16 ->
       (In p (channel this' c)
        \/ exists sweep, In sweep (published events)
                         /\ In p (points (scans sweep c))) ->
       In p (channel found c) \/ new_point found c p.
Proof.
  intros Hk Hassemble.
  destruct (is_first_sweep found) eqn:Hfirst;
    destruct (Nat.eq_dec k FIRINGS_PER_PACKET) as [->|Hne].
  - rewrite assemble_sweep_waiting in Hassemble by assumption.
    injection Hassemble as <- <-. conjuncts; try reflexivity.
    intros c p _ [Hin|(sw & [] & _)]. now left.
  - rewrite assemble_sweep_starts in Hassemble by (assumption || lia).
    injection Hassemble as <- <-.
    destruct (convert_firings_members k FIRINGS_PER_PACKET
                (set_is_first_sweep false found))
      as (Hmin & Hmax & _ & _ & _ & Hfs & _).
    conjuncts; [exact Hmin | exact Hmax | exact Hfs |].
    intros c p Hc [Hin|(sw & [] & _)].
    rewrite convert_firings_channel in Hin by assumption.
    apply in_app_or in Hin as [Hin|Hin]; [left; exact Hin|].
    right.
    apply (new_point_of_segment found _ _ _ _ _ Hc (Nat.le_refl _)
             eq_refl eq_refl eq_refl (or_introl eq_refl) Hin).
  - rewrite assemble_sweep_continues in Hassemble by assumption.
    injection Hassemble as <- <-.
    destruct (convert_firings_members 0 FIRINGS_PER_PACKET found)
      as (Hmin & Hmax & _ & _ & _ & Hfs & _).
    conjuncts; [exact Hmin | exact Hmax | exact Hfs |].
    intros c p Hc [Hin|(sw & [] & _)].
    rewrite convert_firings_channel in Hin by assumption.
    apply in_app_or in Hin as [Hin|Hin]; [left; exact Hin|].
    right.
    apply (new_point_of_segment found _ _ _ _ _ Hc (Nat.le_refl _)
             eq_refl eq_refl eq_refl (or_introl eq_refl) Hin).
  - rewrite assemble_sweep_wraps in Hassemble by (assumption || lia).
    injection Hassemble as <- <-.
    destruct (convert_firings_members 0 k found)
      as (Cmin & Cmax & _ & _ & _ & Cfs & _).
    fold (closed_sweep k found) in Cmin, Cmax, Cfs.
    destruct (convert_firings_members k FIRINGS_PER_PACKET
                (opened_sweep k found))
      as (Hmin & Hmax & _ & _ & _ & Hfs & _).
    destruct (opened_sweep_members k found)
      as (Omin & Omax & Opst & Ofs & Ofirst & Olast & Ochan).
    rewrite Cmin in Omin. rewrite Cmax in Omax. rewrite Cfs in Ofs.
    conjuncts; [congruence | congruence | congruence |].
    intros c p Hc [Hin|(sw & [<-|[]] & Hin)].
    + rewrite convert_firings_channel in Hin by assumption.
      rewrite Ochan in Hin by assumption. cbn [app] in Hin. right.
      apply (new_point_of_segment found _ _ _ _ _ Hc (Nat.le_refl _)
               Omin Omax Ofs (or_intror Opst) Hin).
    + change (In p (channel (convert_firings 0 k found) c)) in Hin.
      rewrite convert_firings_channel in Hin by assumption.
      apply in_app_or in Hin as [Hin|Hin]; [left; exact Hin|].
      right.
      apply (new_point_of_segment found _ _ _ _ _ Hc Hk
               eq_refl eq_refl eq_refl (or_introl eq_refl) Hin).
Qed.

Lemma set_last_azimuth_members v this :
  min_range (set_last_azimuth v this) = min_range this
  /\ max_range (set_last_azimuth v this) = max_range this
  /\ is_first_sweep (set_last_azimuth v this) = is_first_sweep this
  /\ packet_start_time (set_last_azimuth v this) = packet_start_time this
  /\ firings (set_last_azimuth v this) = firings this
  /\ sweep_data (set_last_azimuth v this) = sweep_data this.
Proof. repeat split. Qed.

Lemma set_packet_start_time_members v this :
  min_range (set_packet_start_time v this) = min_range this
  /\ max_range (set_packet_start_time v this) = max_range this
  /\ packet_start_time (set_packet_start_time v this) = v
  /\ firings (set_packet_start_time v this) = firings this.
Proof. repeat split. Qed.

(** The same for a call of [decode], whatever the packet. *)
Lemma decode_points packet this this' events :
  decode packet this = (this', events) ->
  min_range this' = min_range this
  /\ max_range this' = max_range this
  /\ forall c p, c < 16 ->
       (In p (channel this' c)
        \/ exists sweep, In sweep (published events)
                         /\ In p (points (scans sweep c))) ->
       In p (channel this c)
       \/ (firings this' = firings (decodePacket packet this)
           /\ new_point (decodePacket packet this) c p).
Proof.
  intros Hdecode.
  destruct (checkPacketValidity_from_cases packet
              (for_range 0 BLOCKS_PER_PACKET 1))
    as [[Hok _]|(before & blk & after & _ & _ & _ & Hbad)];
    fold (checkPacketValidity packet) in *.
  2:{ rewrite (decode_invalid _ _ _ _ Hbad) in Hdecode.
      injection Hdecode as <- <-. conjuncts; try reflexivity.
      intros c p _ [Hin|(sw & [] & _)]. now left. }
  destruct (find_new_sweep_start_shape FIRINGS_PER_PACKET 0
              (decodePacket packet this))
    as (k & v & Hfind & Hk).
  rewrite (decode_checked _ _ _ _ Hok Hfind) in Hdecode. clear Hfind.
  apply assemble_sweep_points in Hdecode as (Hmin & Hmax & Hfs & Hpoints);
    [|exact (proj2 Hk)].
  destruct (decodePacket_members packet this)
    as (Dmin & Dmax & _ & _ & _ & Dsweep).
  destruct (set_last_azimuth_members v (decodePacket packet this))
    as (Fmin & Fmax & _ & Fpst & Ffs & Fsweep).
  split; [congruence|]. split; [congruence|].
  intros c p Hc Hin.
  destruct (Hpoints c p Hc Hin) as [Hold|Hnew].
  - left. unfold channel in *. now rewrite Fsweep, Dsweep in Hold.
  - right. split; [congruence|].
    revert Hnew. apply new_point_ext; congruence.
Qed.

(** ** The claims on one packet *)

Lemma seq_split_before a n before i after :
  seq a n = before ++ i :: after ->
  forall b, a <= b < i -> In b before.
Proof.
  revert a n. induction before as [|y l IH]; intros a n Hseq b Hb.
  - destruct n as [|n]; [discriminate|]. cbn in Hseq.
    injection Hseq as -> _. lia.
  - destruct n as [|n]; [discriminate|]. cbn in Hseq.
    injection Hseq as <- Hseq.
    destruct (Nat.eq_dec b a) as [->|Hne]; [now left|].
    right. apply (IH _ _ Hseq). lia.
Qed.

(** C4. A packet one of whose blocks has a header other than the bank
    marker is dropped: the call reports the first such block in one warning
    and returns the decoder as it found it (is_first_sweep, last_azimuth,
    packet_start_time and the sweep in progress included), publishing
    nothing. *)
Theorem packetCallback_drops_invalid_packet (msg : list Z) (packet : RawPacket)
    (this : VelodynePuckDecoder) (blk_idx : nat) :
  reinterpret_RawPacket msg = Some packet ->
  blk_idx < BLOCKS_PER_PACKET ->
  header (blocks packet blk_idx) <> UPPER_BANK ->
  exists bad,
    bad <= blk_idx
    /\ header (blocks packet bad) <> UPPER_BANK
    /\ (forall b, b < bad -> header (blocks packet b) = UPPER_BANK)
    /\ packetCallback msg this
       = Some (this, [ROS_WARN bad (header (blocks packet bad))]).
Proof.
  intros Hmsg Hblk Hhdr. unfold packetCallback. rewrite Hmsg.
  destruct (checkPacketValidity_from_cases packet
              (for_range 0 BLOCKS_PER_PACKET 1))
    as [[_ Hall]|(before & bad & after & Hsplit & Hbefore & Hbad & Hcheck)].
  - exfalso. apply Hhdr, Hall, In_for_range. lia.
  - fold (checkPacketValidity packet) in Hcheck.
    rewrite for_range_seq in Hsplit.
    exists bad. split; [|split; [exact Hbad|split]].
    + destruct (Nat.le_gt_cases bad blk_idx) as [Hle|Hgt]; [exact Hle|].
      exfalso. apply Hhdr, Hbefore.
      apply (seq_split_before _ _ _ _ _ Hsplit). lia.
    + intros b Hb. apply Hbefore.
      apply (seq_split_before _ _ _ _ _ Hsplit). lia.
    + f_equal. now apply decode_invalid.
Qed.

Lemma packetCallback_decode msg packet this :
  reinterpret_RawPacket msg = Some packet ->
  packetCallback msg this = Some (decode packet this).
Proof. intros Hmsg. unfold packetCallback. now rewrite Hmsg. Qed.

(** The sweep that a wrap opens holds the in-range points of firings
    [k, 24) and nothing else, timed from 0. *)
Lemma opened_sweep_channel found decoded k c :
  c < 16 ->
  min_range found = min_range decoded ->
  max_range found = max_range decoded ->
  firings found = firings decoded ->
  channel (convert_firings k FIRINGS_PER_PACKET (opened_sweep k found)) c
  = in_range_points (set_packet_start_time 0.0%float decoded)
      k FIRINGS_PER_PACKET c.
Proof.
  intros Hc Fmin Fmax Ffs.
  destruct (convert_firings_members 0 k found)
    as (Cmin & Cmax & _ & _ & _ & Cfs & _).
  fold (closed_sweep k found) in Cmin, Cmax, Cfs.
  destruct (opened_sweep_members k found)
    as (Omin & Omax & Opst & Ofs & _ & _ & Ochan).
  destruct (set_packet_start_time_members 0.0%float decoded)
    as (Pmin & Pmax & Ppst & Pfs).
  rewrite convert_firings_channel by exact Hc.
  rewrite Ochan by exact Hc. cbn [app].
  apply in_range_points_ext; congruence.
Qed.

(** What [decode] does with a valid packet that wraps at [k] while a sweep
    is in progress. *)
Lemma decode_wraps packet this k :
  valid_packet packet ->
  is_first_sweep this = false ->
  k < FIRINGS_PER_PACKET ->
  first_decrease (decodePacket packet this) k ->
  exists found,
    decode packet this
    = (convert_firings k FIRINGS_PER_PACKET (opened_sweep k found),
       [publish (sweep_data (closed_sweep k found))])
    /\ min_range found = min_range this
    /\ max_range found = max_range this
    /\ packet_start_time found = packet_start_time this
    /\ firings found = firings (decodePacket packet this)
    /\ sweep_data found = sweep_data this
    /\ is_first_sweep found = false.
Proof.
  intros Hvalid Hfirst Hk Hdec.
  destruct (decodePacket_members packet this)
    as (Dmin & Dmax & Dfirst & _ & Dpst & Dsweep).
  destruct (set_last_azimuth_members
              (seen_before (decodePacket packet this) k)
              (decodePacket packet this))
    as (Fmin & Fmax & Ffirst & Fpst & Ffs & Fsweep).
  exists (set_last_azimuth (seen_before (decodePacket packet this) k)
            (decodePacket packet this)).
  split; [|conjuncts; congruence].
  rewrite (decode_valid _ _ _ _ Hvalid (find_first_decrease _ _ Hk Hdec)).
  apply assemble_sweep_wraps; [congruence | exact Hk].
Qed.

(** C5. A valid packet met while a sweep is in progress, whose first
    azimuth decrease is at firing k, 0 < k < 24: the in-range points of
    firings [0, k) are appended to the sweep in progress, which is
    published; the decoder then holds the in-range points of firings
    [k, 24) alone, timed from 0; packet_start_time is 0 advanced by
    FIRING_TOFFSET times 24 - k, and last_azimuth is the azimuth of firing
    23. *)
Theorem packetCallback_closes_and_opens_sweep (msg : list Z)
    (packet : RawPacket) (this : VelodynePuckDecoder) (k : nat) :
  reinterpret_RawPacket msg = Some packet ->
  valid_packet packet ->
  is_first_sweep this = false ->
  0 < k < FIRINGS_PER_PACKET ->
  first_decrease (decodePacket packet this) k ->
  exists this' sweep,
    packetCallback msg this = Some (this', [publish sweep])
    /\ (forall c, c < 16 ->
          points (scans sweep c)
          = channel this c
            ++ in_range_points (decodePacket packet this) 0 k c)
    /\ (forall c, c < 16 ->
          channel this' c
          = in_range_points
              (set_packet_start_time 0.0%float (decodePacket packet this))
              k FIRINGS_PER_PACKET c)
    /\ packet_start_time this'
       = (0.0 + FIRING_TOFFSET
                * double_of_size_t (FIRINGS_PER_PACKET - k))%float
    /\ last_azimuth this'
       = firing_azimuth (firings (decodePacket packet this) 23)
    /\ is_first_sweep this' = false.
Proof.
  intros Hmsg Hvalid Hfirst [_ Hk] Hdec.
  destruct (decode_wraps packet this k Hvalid Hfirst Hk Hdec)
    as (found & Hdecode & Fmin & Fmax & Fpst & Ffs & Fsweep & Ffirst).
  destruct (decodePacket_members packet this)
    as (Dmin & Dmax & _ & _ & Dpst & _).
  destruct (convert_firings_members 0 k found)
    as (Cmin & Cmax & Cfirst & _ & _ & Cfs & _).
  fold (closed_sweep k found) in Cmin, Cmax, Cfs.
  destruct (opened_sweep_members k found)
    as (Omin & Omax & Opst & Ofs & Ofirst & Olast & Ochan).
  destruct (convert_firings_members k FIRINGS_PER_PACKET (opened_sweep k found))
    as (_ & _ & Hfirst' & Hlast & Hpst & _).
  exists (convert_firings k FIRINGS_PER_PACKET (opened_sweep k found)),
         (sweep_data (closed_sweep k found)).
  split; [rewrite (packetCallback_decode _ _ _ Hmsg); now f_equal|].
  split; [|split; [|split; [|split]]].
  - intros c Hc.
    change (channel (convert_firings 0 k found) c
            = channel this c
              ++ in_range_points (decodePacket packet this) 0 k c).
    rewrite convert_firings_channel by exact Hc. f_equal.
    + unfold channel. now rewrite Fsweep.
    + apply in_range_points_ext; congruence.
  - intros c Hc. apply opened_sweep_channel; congruence.
  - now rewrite Hpst, Opst.
  - now rewrite Hlast, Olast, Ffs.
  - rewrite Hfirst', Ofirst. unfold closed_sweep. now rewrite Cfirst.
Qed.

Lemma published_app events events' :
  published (events ++ events') = published events ++ published events'.
Proof. unfold published. apply flat_map_app. Qed.

(** C7. Every point that a call adds to the sweep in progress or to a sweep
    it publishes is the projection of a measurement (firing fir_idx, scan
    scan_idx, distance d, azimuth a) of the packet: in the frame of the
    sensor x = d * cos(altitude) * sin(a), y = d * cos(altitude) * cos(a),
    z = d * sin(altitude); the point holds x_out = y, y_out = -x, z_out = z
    and time = packet_start_time + FIRING_TOFFSET * fir_idx + DSR_TOFFSET *
    scan_idx, packet_start_time being the one the call found or the 0 it
    was reset to. *)
Theorem appended_points_are_projections (msg : list Z)
    (this this' : VelodynePuckDecoder) (events : list Event)
    (c : nat) (p : VelodynePuckPoint) :
  packetCallback msg this = Some (this', events) ->
  c < 16 ->
  In p (channel this' c)
  \/ (exists sweep, In sweep (published events)
                    /\ In p (points (scans sweep c))) ->
  In p (channel this c)
  \/ exists fir_idx scan_idx pst,
       fir_idx < FIRINGS_PER_PACKET /\ scan_idx < SCANS_PER_FIRING
       /\ remapped_scan_idx scan_idx = c
       /\ (pst = packet_start_time this \/ pst = 0.0%float)
       /\ let d := distance (firings this' fir_idx) scan_idx in
          let a := azimuth (firings this' fir_idx) scan_idx in
          let x := (d * cos_scan_altitude scan_idx * sin a)%float in
          let y := (d * cos_scan_altitude scan_idx * cos a)%float in
          let z := (d * sin_scan_altitude scan_idx)%float in
          velodyne_puck_msgs.x p = y
          /\ velodyne_puck_msgs.y p = (- x)%float
          /\ velodyne_puck_msgs.z p = z
          /\ velodyne_puck_msgs.time p
             = (pst + FIRING_TOFFSET * double_of_size_t fir_idx
                + DSR_TOFFSET * double_of_size_t scan_idx)%float
          /\ velodyne_puck_msgs.distance p = d
          /\ velodyne_puck_msgs.azimuth p = a.
Proof.
  unfold packetCallback.
  destruct (reinterpret_RawPacket msg) as [packet|]; [|discriminate].
  intros Hdecode Hc Hin. injection Hdecode as Hdecode.
  destruct (decode_points _ _ _ _ Hdecode) as (_ & _ & Hpoints).
  destruct (Hpoints c p Hc Hin) as [Hold|[Hfs Hnew]]; [now left|right].
  destruct Hnew as (fir_idx & scan_idx & pst & Hfir & Hscan & Hmap & Hpst & Hp).
  destruct (decodePacket_members packet this) as (_ & _ & _ & _ & Dpst & _).
  exists fir_idx, scan_idx, pst.
  split; [exact Hfir|]. split; [exact Hscan|]. split; [exact Hmap|].
  split; [now rewrite <- Dpst|].
  rewrite Hfs. clear - Hp.
  revert Hp. generalize (decodePacket packet this) as decoded.
  intros decoded Hp. unfold project in Hp.
  destruct (out_of_range _ _); [discriminate|].
  injection Hp as <-. cbv zeta. conjuncts; reflexivity.
Qed.

Lemma assemble_sweep_publishes found k :
  length (published (snd (assemble_sweep k found))) <= 1.
Proof.
  unfold assemble_sweep.
  destruct (is_first_sweep found); cbn [andb].
  - destruct (Nat.eqb k FIRINGS_PER_PACKET); cbn [snd published flat_map length];
      [lia|].
    rewrite Nat.eqb_refl. cbn. lia.
  - destruct (Nat.eqb k FIRINGS_PER_PACKET); cbn; lia.
Qed.

Lemma decode_publishes packet this :
  length (published (snd (decode packet this))) <= 1.
Proof.
  destruct (checkPacketValidity_from_cases packet
              (for_range 0 BLOCKS_PER_PACKET 1))
    as [[Hok _]|(before & blk & after & _ & _ & _ & Hbad)];
    fold (checkPacketValidity packet) in *.
  - destruct (find_new_sweep_start_shape FIRINGS_PER_PACKET 0
                (decodePacket packet this))
      as (k & v & Hfind & _).
    rewrite (decode_checked _ _ _ _ Hok Hfind).
    apply assemble_sweep_publishes.
  - rewrite (decode_invalid _ _ _ _ Hbad). cbn. lia.
Qed.

(** C10. One call publishes one sweep at most.  When a sweep is in progress
    and the azimuths of a valid packet first decrease at firing k, one
    sweep is published, and the sweep then in progress holds the in-range
    points of all the firings from k to 23, whatever the azimuths after
    firing k do: a second decrease in the packet opens nothing. *)
Theorem packetCallback_publishes_at_most_once (msg : list Z)
    (packet : RawPacket) (this : VelodynePuckDecoder) :
  reinterpret_RawPacket msg = Some packet ->
  exists this' events,
    packetCallback msg this = Some (this', events)
    /\ length (published events) <= 1
    /\ forall k,
         valid_packet packet ->
         is_first_sweep this = false ->
         k < FIRINGS_PER_PACKET ->
         first_decrease (decodePacket packet this) k ->
         length (published events) = 1
         /\ forall c, c < 16 ->
              channel this' c
              = in_range_points
                  (set_packet_start_time 0.0%float (decodePacket packet this))
                  k FIRINGS_PER_PACKET c.
Proof.
  intros Hmsg.
  exists (fst (decode packet this)), (snd (decode packet this)).
  split; [rewrite (packetCallback_decode _ _ _ Hmsg); now destruct (decode _ _)|].
  split; [apply decode_publishes|].
  intros k Hvalid Hfirst Hk Hdec.
  destruct (decode_wraps packet this k Hvalid Hfirst Hk Hdec)
    as (found & -> & Fmin & Fmax & Fpst & Ffs & Fsweep & Ffirst).
  destruct (decodePacket_members packet this)
    as (Dmin & Dmax & _ & _ & _ & _).
  split; [reflexivity|].
  intros c Hc. cbn [fst]. apply opened_sweep_channel; congruence.
Qed.

(** ** Streams of packets *)

Lemma out_of_range_ext this this' d :
  min_range this' = min_range this ->
  max_range this' = max_range this ->
  out_of_range this' d = out_of_range this d.
Proof. intros Hmin Hmax. unfold out_of_range. now rewrite Hmin, Hmax. Qed.

(** No point of the 16 channels of [sweep] is out of the range of [this]. *)
Definition in_range_sweep (this : VelodynePuckDecoder)
    (sweep : VelodynePuckSweep) : Prop :=
  forall c p, c < 16 -> In p (points (scans sweep c)) ->
    out_of_range this (velodyne_puck_msgs.distance p) = false.

Lemma new_point_in_range decoded this c p :
  min_range decoded = min_range this ->
  max_range decoded = max_range this ->
  new_point decoded c p ->
  out_of_range this (velodyne_puck_msgs.distance p) = false.
Proof.
  intros Hmin Hmax (fir_idx & scan_idx & pst & _ & _ & _ & _ & Hp).
  revert Hp Hmin Hmax. generalize decoded as s. intros s Hp Hmin Hmax.
  unfold project in Hp.
  destruct (out_of_range _ _) eqn:Hout; [discriminate|].
  injection Hp as <-. cbn [velodyne_puck_msgs.distance projected].
  rewrite <- Hout. apply out_of_range_ext; cbn; congruence.
Qed.

Lemma decode_in_range packet this this' events :
  in_range_sweep this (sweep_data this) ->
  decode packet this = (this', events) ->
  min_range this' = min_range this
  /\ max_range this' = max_range this
  /\ in_range_sweep this (sweep_data this')
  /\ forall sweep, In sweep (published events) -> in_range_sweep this sweep.
Proof.
  intros Hinv Hdecode.
  destruct (decode_points _ _ _ _ Hdecode) as (Hmin & Hmax & Hpoints).
  destruct (decodePacket_members packet this) as (Dmin & Dmax & _).
  assert (Hall : forall c p, c < 16 ->
            (In p (channel this' c)
             \/ exists sweep, In sweep (published events)
                              /\ In p (points (scans sweep c))) ->
            out_of_range this (velodyne_puck_msgs.distance p) = false).
  { intros c p Hc Hin.
    destruct (Hpoints c p Hc Hin) as [Hold|[_ Hnew]].
    - now apply (Hinv c).
    - exact (new_point_in_range _ _ _ _ Dmin Dmax Hnew). }
  conjuncts; [exact Hmin | exact Hmax | |].
  - intros c p Hc Hin. apply (Hall c p Hc). now left.
  - intros sweep Hsw c p Hc Hin. apply (Hall c p Hc). right. now exists sweep.
Qed.

Lemma in_range_sweep_ext this this' sweep :
  min_range this' = min_range this ->
  max_range this' = max_range this ->
  in_range_sweep this sweep -> in_range_sweep this' sweep.
Proof.
  intros Hmin Hmax Hin c p Hc Hp.
  rewrite (out_of_range_ext this this') by assumption. now apply (Hin c).
Qed.

Lemma packetCallbacks_in_range msgs : forall this this' events,
  in_range_sweep this (sweep_data this) ->
  packetCallbacks msgs this = Some (this', events) ->
  min_range this' = min_range this
  /\ max_range this' = max_range this
  /\ in_range_sweep this (sweep_data this')
  /\ forall sweep, In sweep (published events) -> in_range_sweep this sweep.
Proof.
  induction msgs as [|msg rest IH]; intros this this' events Hinv Hrun.
  - cbn in Hrun. injection Hrun as <- <-.
    conjuncts; try reflexivity; [exact Hinv | intros ? []].
  - cbn [packetCallbacks] in Hrun. unfold packetCallback in Hrun.
    destruct (reinterpret_RawPacket msg) as [packet|]; [|discriminate].
    destruct (decode packet this) as [this1 events1] eqn:Hdecode.
    destruct (packetCallbacks rest this1) as [[this2 events2]|] eqn:Hrest;
      [|discriminate].
    injection Hrun as <- <-.
    destruct (decode_in_range _ _ _ _ Hinv Hdecode)
      as (Hmin1 & Hmax1 & Hsweep1 & Hpub1).
    destruct (IH _ _ _
                (in_range_sweep_ext this this1 _ Hmin1 Hmax1 Hsweep1) Hrest)
      as (Hmin2 & Hmax2 & Hsweep2 & Hpub2).
    assert (Hback : forall sweep, in_range_sweep this1 sweep ->
                                  in_range_sweep this sweep)
      by (intros sweep; apply in_range_sweep_ext; congruence).
    conjuncts; [congruence | congruence | now apply Hback |].
    intros sweep Hin. rewrite published_app in Hin.
    apply in_app_or in Hin as [Hin|Hin]; [now apply Hpub1|].
    now apply Hback, Hpub2.
Qed.

(** C8. Whatever the packets delivered to a decoder whose sweep in progress
    holds no point out of range, no sweep it publishes holds a point whose
    distance is below min_range or above max_range.  Such a measurement is
    skipped alone: converting it leaves the decoder as it was, and the loop
    goes on to the next scan. *)
Theorem published_sweeps_are_in_range (msgs : list (list Z))
    (this this' : VelodynePuckDecoder) (events : list Event) :
  in_range_sweep this (sweep_data this) ->
  packetCallbacks msgs this = Some (this', events) ->
  (forall sweep c p,
     In sweep (published events) -> c < 16 ->
     In p (points (scans sweep c)) ->
     (velodyne_puck_msgs.distance p <? min_range this)%float = false
     /\ (max_range this <? velodyne_puck_msgs.distance p)%float = false)
  /\ (forall decoder fir_idx scan_idx,
        out_of_range decoder (distance (firings decoder fir_idx) scan_idx)
        = true ->
        convert_point decoder fir_idx scan_idx = decoder).
Proof.
  intros Hinv Hrun. split.
  - intros sweep c p Hsw Hc Hp.
    destruct (packetCallbacks_in_range _ _ _ _ Hinv Hrun) as (_ & _ & _ & Hpub).
    apply orb_false_iff. exact (Hpub sweep Hsw c p Hc Hp).
  - intros decoder fir_idx scan_idx Hout.
    unfold convert_point, isPointInRange. now rewrite Hout.
Qed.

(** The azimuth of firing [fir_idx] of a packet, from the rotations of its
    blocks alone, as 4.2 of the spec gives it. *)
Definition block_azimuth (packet : RawPacket) (blk_idx : nat) : double :=
  rawAzimuthToDouble (rotation (blocks packet blk_idx)).

Definition packet_azimuth (packet : RawPacket) (fir_idx : nat) : double :=
  let blk_idx := Nat.div fir_idx 2 in
  if Nat.even fir_idx then block_azimuth packet blk_idx
  else if Nat.eqb fir_idx (FIRINGS_PER_PACKET - 1)
  then interpolated (block_azimuth packet blk_idx)
         (block_azimuth packet (blk_idx - 1)) (block_azimuth packet blk_idx)
  else interpolated (block_azimuth packet blk_idx)
         (block_azimuth packet blk_idx) (block_azimuth packet (blk_idx + 1)).

Lemma decodePacket_packet_azimuth packet this fir_idx :
  fir_idx < FIRINGS_PER_PACKET ->
  firing_azimuth (firings (decodePacket packet this) fir_idx)
  = packet_azimuth packet fir_idx.
Proof.
  intros Hfir. rewrite decodePacket_firing_azimuth.
  unfold FIRINGS_PER_PACKET in Hfir. cbn in Hfir.
  cases_below fir_idx; vm_compute; reflexivity.
Qed.

(** The azimuths of the firings of a stream of packets, in their order. *)
Definition stream_azimuths (packets : list RawPacket) : list double :=
  flat_map (fun packet => map (packet_azimuth packet)
                            (for_range 0 FIRINGS_PER_PACKET 1))
    packets.

(** No azimuth of the list is below the one before it, [last] being before
    the first. *)
Fixpoint never_decreases (last : double) (azimuths : list double) : bool :=
  match azimuths with
  | [] => true
  | a :: rest => negb (a <? last)%float && never_decreases a rest
  end.

Lemma never_decreases_packet packet this last rest :
  last_azimuth this = last ->
  never_decreases last
    (map (packet_azimuth packet) (for_range 0 FIRINGS_PER_PACKET 1) ++ rest)
  = true ->
  no_decrease (decodePacket packet this)
  /\ never_decreases (packet_azimuth packet 23) rest = true.
Proof.
  intros Hlast Hnever.
  assert (Hfirst : seen_before (decodePacket packet this) 0 = last).
  { destruct (decodePacket_members packet this) as (_ & _ & _ & Dlast & _).
    cbn [seen_before]. congruence. }
  assert (Hstep : forall fir_idx (b : bool),
            fir_idx < FIRINGS_PER_PACKET ->
            negb (packet_azimuth packet fir_idx
                  <? match fir_idx with
                     | O => last
                     | S i => packet_azimuth packet i
                     end)%float = true ->
            decreases_at (decodePacket packet this) fir_idx = false).
  { intros fir_idx _ Hfir Hneg. unfold decreases_at.
    rewrite decodePacket_packet_azimuth by exact Hfir.
    destruct fir_idx as [|i].
    - rewrite Hfirst. now apply negb_true_iff.
    - cbn [seen_before].
      rewrite decodePacket_packet_azimuth
        by (unfold FIRINGS_PER_PACKET in *; cbn in *; lia).
      now apply negb_true_iff. }
  change (for_range 0 FIRINGS_PER_PACKET 1) with (seq 0 24) in Hnever.
  cbn [seq map app never_decreases] in Hnever.
  repeat (apply andb_prop in Hnever as [?Hat Hnever]).
  split; [|exact Hnever].
  intros fir_idx Hfir. unfold FIRINGS_PER_PACKET in Hfir. cbn in Hfir.
  cases_below fir_idx;
    (apply (Hstep _ true);
     [unfold FIRINGS_PER_PACKET; cbn; lia | assumption]).
Qed.

(** What [decode] does with a valid packet without a decrease while the
    decoder waits for its first revolution. *)
Lemma decode_waits packet this :
  valid_packet packet ->
  is_first_sweep this = true ->
  no_decrease (decodePacket packet this) ->
  exists this',
    decode packet this = (this', [])
    /\ is_first_sweep this' = true
    /\ sweep_data this' = sweep_data this
    /\ packet_start_time this' = packet_start_time this
    /\ last_azimuth this'
       = firing_azimuth (firings (decodePacket packet this) 23).
Proof.
  intros Hvalid Hfirst Hnone.
  destruct (decodePacket_members packet this)
    as (_ & _ & Dfirst & _ & Dpst & Dsweep).
  destruct (set_last_azimuth_members
              (firing_azimuth (firings (decodePacket packet this) 23))
              (decodePacket packet this))
    as (_ & _ & Ffirst & Fpst & _ & Fsweep).
  exists (set_last_azimuth
            (firing_azimuth (firings (decodePacket packet this) 23))
            (decodePacket packet this)).
  split.
  - rewrite (decode_valid _ _ _ _ Hvalid (find_no_decrease _ Hnone)).
    apply assemble_sweep_waiting. congruence.
  - conjuncts; try congruence.
    generalize (decodePacket packet this) as decoded. reflexivity.
Qed.

(** C9. A decoder that waits for its first revolution, given valid packets
    none of whose firing azimuths is below the azimuth seen before it,
    publishes no sweep, appends no point and still waits after every one
    of them. *)
Theorem waiting_decoder_stays_silent (msgs : list (list Z))
    (packets : list RawPacket) (this : VelodynePuckDecoder) :
  Forall2 (fun msg packet => reinterpret_RawPacket msg = Some packet)
    msgs packets ->
  Forall valid_packet packets ->
  is_first_sweep this = true ->
  never_decreases (last_azimuth this) (stream_azimuths packets) = true ->
  exists this',
    packetCallbacks msgs this = Some (this', [])
    /\ is_first_sweep this' = true
    /\ sweep_data this' = sweep_data this
    /\ packet_start_time this' = packet_start_time this.
Proof.
  intros Hmsgs. revert this.
  induction Hmsgs as [|msg packet msgs packets Hmsg _ IH];
    intros this Hvalid Hfirst Hnever.
  - exists this. now conjuncts.
  - apply Forall_cons_iff in Hvalid as [Hvalid Hvalids].
    cbn [stream_azimuths flat_map] in Hnever.
    destruct (never_decreases_packet packet this _ _ eq_refl Hnever)
      as (Hnone & Hrest).
    destruct (decode_waits packet this Hvalid Hfirst Hnone)
      as (this1 & Hdecode & Hfirst1 & Hsweep1 & Hpst1 & Hlast1).
    rewrite decodePacket_packet_azimuth in Hlast1
      by (unfold FIRINGS_PER_PACKET; cbn; lia).
    rewrite <- Hlast1 in Hrest.
    destruct (IH this1 Hvalids Hfirst1 Hrest)
      as (this' & Hrun & Hfirst' & Hsweep' & Hpst').
    exists this'. cbn [packetCallbacks].
    rewrite (packetCallback_decode _ _ _ Hmsg), Hdecode, Hrun.
    conjuncts; [reflexivity | congruence ..].
Qed.

(** What [decode] does with the valid packet whose azimuths first decrease,
    at firing [k], while the decoder waits for its first revolution: the
    sweep starts with firings [k, 24), and [last_azimuth] stays the azimuth
    that firing [k] was compared with.  Line 249, which stores the azimuth
    of firing 23, is not on this path. *)
Lemma decode_starts packet this k :
  valid_packet packet ->
  is_first_sweep this = true ->
  k < FIRINGS_PER_PACKET ->
  first_decrease (decodePacket packet this) k ->
  exists this',
    decode packet this = (this', [ROS_INFO])
    /\ is_first_sweep this' = false
    /\ last_azimuth this' = seen_before (decodePacket packet this) k
    /\ forall c, c < 16 ->
         channel this' c
         = channel this c
           ++ in_range_points (decodePacket packet this)
                k FIRINGS_PER_PACKET c.
Proof.
  intros Hvalid Hfirst Hk Hdec.
  destruct (decodePacket_members packet this)
    as (Dmin & Dmax & Dfirst & _ & Dpst & Dsweep).
  destruct (set_last_azimuth_members
              (seen_before (decodePacket packet this) k)
              (decodePacket packet this))
    as (Fmin & Fmax & Ffirst & Fpst & Ffs & Fsweep).
  remember (seen_before (decodePacket packet this) k) as seen eqn:Hseen.
  pose proof (decode_valid _ _ _ _ Hvalid (find_first_decrease _ _ Hk Hdec))
    as Hdecode.
  rewrite <- Hseen in Hdecode.
  assert (Hlast : last_azimuth (set_last_azimuth seen (decodePacket packet this))
                  = seen)
    by (generalize (decodePacket packet this); reflexivity).
  revert Hdecode Fmin Fmax Ffirst Fpst Ffs Fsweep Hlast.
  generalize (set_last_azimuth seen (decodePacket packet this)) as found.
  intros found Hdecode Fmin Fmax Ffirst Fpst Ffs Fsweep Hlast.
  rewrite assemble_sweep_starts in Hdecode by (congruence || exact Hk).
  destruct (convert_firings_members k FIRINGS_PER_PACKET
              (set_is_first_sweep false found))
    as (_ & _ & Cfirst & Clast & _ & _ & _).
  exists (convert_firings k FIRINGS_PER_PACKET (set_is_first_sweep false found)).
  split; [exact Hdecode|]. split; [exact Cfirst|].
  split; [rewrite Clast; exact Hlast|].
  intros c Hc. rewrite convert_firings_channel by exact Hc. f_equal.
  - unfold channel. cbn [sweep_data set_is_first_sweep]. now rewrite Fsweep, Dsweep.
  - apply in_range_points_ext; cbn [min_range max_range packet_start_time
                                    firings set_is_first_sweep]; congruence.
Qed.

(** ** The length of the buffer *)

(** Two packets with the same 12 blocks of 100 bytes. *)
Definition same_blocks (packet packet' : RawPacket) : Prop :=
  forall blk_idx, blk_idx < BLOCKS_PER_PACKET ->
    header (blocks packet blk_idx) = header (blocks packet' blk_idx)
    /\ rotation (blocks packet blk_idx) = rotation (blocks packet' blk_idx)
    /\ forall i, i < 96 ->
         data (blocks packet blk_idx) i = data (blocks packet' blk_idx) i.

Lemma fold_left_ext_in {S A : Type} (g g' : S -> A -> S) (l : list A) :
  (forall a, In a l -> forall s, g s a = g' s a) ->
  forall s, fold_left g l s = fold_left g' l s.
Proof.
  induction l as [|a l IH]; intros Hext s; [reflexivity|].
  cbn [fold_left]. rewrite (Hext a (or_introl eq_refl)).
  apply IH. intros b Hb. apply Hext. now right.
Qed.

Lemma decode_scan_same_data raw_block raw_block' blk_fir_idx fir_idx
    azimuth_diff fs scan_fir_idx :
  (forall i, i < 96 -> data raw_block i = data raw_block' i) ->
  blk_fir_idx < FIRINGS_PER_BLOCK -> scan_fir_idx < SCANS_PER_FIRING ->
  decode_scan raw_block blk_fir_idx fir_idx azimuth_diff fs scan_fir_idx
  = decode_scan raw_block' blk_fir_idx fir_idx azimuth_diff fs scan_fir_idx.
Proof.
  intros Hdata Hfir Hscan. unfold decode_scan.
  unfold FIRINGS_PER_BLOCK, SCANS_PER_FIRING, RAW_SCAN_SIZE in *.
  rewrite !(Hdata (3 * (16 * blk_fir_idx + scan_fir_idx))) by lia.
  rewrite !(Hdata (3 * (16 * blk_fir_idx + scan_fir_idx) + 1)) by lia.
  rewrite !(Hdata (3 * (16 * blk_fir_idx + scan_fir_idx) + 2)) by lia.
  reflexivity.
Qed.

Lemma decode_block_same_blocks packet packet' fs blk_idx :
  same_blocks packet packet' -> blk_idx < BLOCKS_PER_PACKET ->
  decode_block packet fs blk_idx = decode_block packet' fs blk_idx.
Proof.
  intros Hsame Hblk. destruct (Hsame blk_idx Hblk) as (_ & _ & Hdata).
  unfold decode_block. apply fold_left_ext_in.
  intros blk_fir_idx Hfir fs'. apply In_for_range in Hfir.
  unfold decode_firing. apply fold_left_ext_in.
  intros scan_fir_idx Hscan fs''. apply In_for_range in Hscan.
  apply decode_scan_same_data; [exact Hdata | lia | lia].
Qed.

Lemma decode_block_azimuths_same_blocks packet packet' fs :
  same_blocks packet packet' ->
  fold_left (decode_block_azimuth packet) (for_range 0 FIRINGS_PER_PACKET 2) fs
  = fold_left (decode_block_azimuth packet') (for_range 0 FIRINGS_PER_PACKET 2)
      fs.
Proof.
  intros Hsame. apply fold_left_ext_in. intros fir_idx Hin fs'.
  unfold decode_block_azimuth.
  assert (Hblk : Nat.div fir_idx 2 < BLOCKS_PER_PACKET).
  { cbv in Hin. unfold BLOCKS_PER_PACKET.
    repeat (destruct Hin as [<-|Hin]; [cbn; lia|]). destruct Hin. }
  destruct (Hsame _ Hblk) as (_ & -> & _). reflexivity.
Qed.

Lemma decode_blocks_same_blocks packet packet' fs :
  same_blocks packet packet' ->
  fold_left (decode_block packet) (for_range 0 BLOCKS_PER_PACKET 1) fs
  = fold_left (decode_block packet') (for_range 0 BLOCKS_PER_PACKET 1) fs.
Proof.
  intros Hsame. apply fold_left_ext_in.
  intros blk_idx Hblk fs'. apply In_for_range in Hblk.
  apply decode_block_same_blocks; [exact Hsame | lia].
Qed.

Lemma decodePacket_same_blocks packet packet' this :
  same_blocks packet packet' ->
  decodePacket packet this = decodePacket packet' this.
Proof.
  intros Hsame. unfold decodePacket.
  rewrite (decode_block_azimuths_same_blocks _ _ (firings this) Hsame).
  now rewrite (decode_blocks_same_blocks _ _ _ Hsame).
Qed.

Lemma checkPacketValidity_same_blocks packet packet' :
  same_blocks packet packet' ->
  checkPacketValidity packet = checkPacketValidity packet'.
Proof.
  intros Hsame. unfold checkPacketValidity.
  assert (Hall : forall blk_idx,
            In blk_idx (for_range 0 BLOCKS_PER_PACKET 1) ->
            header (blocks packet blk_idx) = header (blocks packet' blk_idx)).
  { intros blk_idx Hblk. apply In_for_range in Hblk.
    apply (Hsame blk_idx). lia. }
  induction (for_range 0 BLOCKS_PER_PACKET 1) as [|b l IH]; [reflexivity|].
  cbn [checkPacketValidity_from].
  rewrite (Hall b (or_introl eq_refl)).
  destruct (negb _); [reflexivity|].
  apply IH. intros. apply Hall. now right.
Qed.

Lemma decode_same_blocks packet packet' this :
  same_blocks packet packet' ->
  decode packet this = decode packet' this.
Proof.
  intros Hsame. unfold decode.
  rewrite (checkPacketValidity_same_blocks _ _ Hsame).
  now rewrite (decodePacket_same_blocks _ _ this Hsame).
Qed.






End Properties.

(** * Further properties of the decoder *)

Section MoreProperties.

Context {hdr : Header} {mem : Memory}.

(** ** The channels *)

(** X1. The physical index of lines 65, 221 and 276 is a bijection of the 16
    scans of a firing: it stays below 16, [raw_scan_idx] undoes it and it
    undoes [raw_scan_idx], so that two scans never share a channel. *)
Theorem remapped_scan_idx_bijection (i j : nat) :
  i < SCANS_PER_FIRING -> j < SCANS_PER_FIRING ->
  remapped_scan_idx i < 16
  /\ raw_scan_idx (remapped_scan_idx i) = i
  /\ remapped_scan_idx (raw_scan_idx i) = i
  /\ (remapped_scan_idx i = remapped_scan_idx j -> i = j).
Proof.
  unfold SCANS_PER_FIRING. intros Hi Hj.
  assert (Hinv : forall n, n < 16 -> raw_scan_idx (remapped_scan_idx n) = n)
    by (intros n Hn; cases_below n; reflexivity).
  split; [cases_below i; cbn; lia|].
  split; [now apply Hinv|].
  split; [now apply remapped_raw_scan_idx|].
  intros Heq. rewrite <- (Hinv i Hi), <- (Hinv j Hj). now rewrite Heq.
Qed.

(** ** The check of a packet *)

(** X2. [checkPacketValidity] answers true exactly when the 12 blocks have
    the header [UPPER_BANK], and then warns of nothing. *)
Theorem checkPacketValidity_true_iff (packet : RawPacket) :
  (fst (checkPacketValidity packet) = true <-> valid_packet packet)
  /\ (fst (checkPacketValidity packet) = true ->
      snd (checkPacketValidity packet) = []).
Proof.
  destruct (checkPacketValidity_from_cases packet
              (for_range 0 BLOCKS_PER_PACKET 1))
    as [[Hok Hall]|(before & blk & after & Hsplit & _ & Hbad & Hcheck)];
    fold (checkPacketValidity packet) in *.
  - rewrite Hok. cbn [fst snd]. split; [|reflexivity].
    split; [|reflexivity]. intros _ blk_idx Hblk.
    apply Hall, In_for_range. lia.
  - rewrite Hcheck. cbn [fst snd]. split; [|discriminate].
    split; [discriminate|]. intros Hvalid. exfalso. apply Hbad, Hvalid.
    assert (Hin : In blk (for_range 0 BLOCKS_PER_PACKET 1))
      by (rewrite Hsplit; apply in_elt).
    apply In_for_range in Hin. lia.
Qed.

(** ** The sweep buffer *)

Lemma clearSweepData_keeps_altitude (this : VelodynePuckDecoder) (c : nat) :
  altitude (scans (sweep_data (clearSweepData this)) c)
  = altitude (scans (sweep_data this) c).
Proof.
  unfold clearSweepData. cbn [sweep_data set_sweep_data].
  set (R := fun sw sw' : VelodynePuckSweep =>
              forall c, altitude (scans sw' c) = altitude (scans sw c)).
  apply (fold_left_keeps R
           (fun sw i =>
              {| scans := upd (scans sw) i (clear_points (scans sw i)) |})).
  - now intros sw c'.
  - intros s1 s2 s3 H12 H23 c'. now rewrite H23, H12.
  - intros sw i c'. cbn. unfold upd.
    destruct (Nat.eqb_spec c' i) as [->|]; reflexivity.
Qed.

(** X3. [clearSweepData] empties the 16 channels and nothing else: each scan
    keeps its altitude and the decoder its other members. *)
Theorem clearSweepData_empties_channels (this : VelodynePuckDecoder) :
  (forall c, c < 16 -> points (scans (sweep_data (clearSweepData this)) c) = [])
  /\ (forall c, altitude (scans (sweep_data (clearSweepData this)) c)
               = altitude (scans (sweep_data this) c))
  /\ min_range (clearSweepData this) = min_range this
  /\ max_range (clearSweepData this) = max_range this
  /\ is_first_sweep (clearSweepData this) = is_first_sweep this
  /\ last_azimuth (clearSweepData this) = last_azimuth this
  /\ packet_start_time (clearSweepData this) = packet_start_time this
  /\ firings (clearSweepData this) = firings this.
Proof.
  split; [intros c Hc; now apply (clearSweepData_channel this)|].
  split; [|now conjuncts].
  intros c. apply clearSweepData_keeps_altitude.
Qed.

Lemma initialize_altitude (server : gmap string double)
    (this : VelodynePuckDecoder) (scan_idx : nat) :
  scan_idx < 16 ->
  altitude (scans (sweep_data (snd (initialize server this)))
              (remapped_scan_idx scan_idx))
  = scan_altitude scan_idx.
Proof.
  intros Hscan. unfold initialize, loadParameters, createRosIO.
  cbn [negb fst snd sweep_data set_sweep_data set_min_range set_max_range].
  cases_below scan_idx; reflexivity.
Qed.

(** X4. [initialize] never fails: it answers true, gives the scan of
    physical index [remapped_scan_idx scan_idx] the altitude
    [scan_altitude scan_idx], for each of the 16 scans, and leaves the points
    of the sweep, the state of the sweep machine and the firings as the
    constructor set them. *)
Theorem initialize_sets_altitudes (server : gmap string double)
    (this : VelodynePuckDecoder) (scan_idx : nat) :
  scan_idx < 16 ->
  fst (initialize server this) = true
  /\ altitude (scans (sweep_data (snd (initialize server this)))
                (remapped_scan_idx scan_idx))
     = scan_altitude scan_idx
  /\ (forall c, points (scans (sweep_data (snd (initialize server this))) c)
               = points (scans (sweep_data this) c))
  /\ is_first_sweep (snd (initialize server this)) = is_first_sweep this
  /\ last_azimuth (snd (initialize server this)) = last_azimuth this
  /\ packet_start_time (snd (initialize server this)) = packet_start_time this
  /\ firings (snd (initialize server this)) = firings this.
Proof.
  intros Hscan. unfold initialize, loadParameters, createRosIO.
  cbn [negb fst snd sweep_data set_sweep_data set_min_range set_max_range
       is_first_sweep last_azimuth packet_start_time firings].
  split; [reflexivity|].
  split; [exact (initialize_altitude server this scan_idx Hscan)|].
  split; [|now conjuncts].
  intros c.
  set (R := fun sw sw' : VelodynePuckSweep =>
              forall c, points (scans sw' c) = points (scans sw c)).
  apply (fold_left_keeps R
           (fun sw scan_idx =>
              let r := remapped_scan_idx scan_idx in
              {| scans := upd (scans sw) r
                            (set_altitude (scan_altitude scan_idx)
                               (scans sw r)) |})).
  - now intros sw c'.
  - intros s1 s2 s3 H12 H23 c'. now rewrite H23, H12.
  - intros sw i c'. cbn. unfold upd.
    destruct (Nat.eqb_spec c' (remapped_scan_idx i)) as [->|]; reflexivity.
Qed.

(** ** The measurements of a packet *)

(** A loop whose steps each assign the entries they own, two steps never
    owning the same entry: after the loop an entry owned by a step holds
    what that step assigns, and an entry that no step owns is as before. *)
Lemma fold_left_assigns {S A K V : Type} (R : S -> S -> Prop)
    (g : S -> A -> S) (get : S -> K -> V) (owns : A -> K -> bool)
    (val : S -> A -> K -> V) :
  (forall s, R s s) ->
  (forall s1 s2 s3, R s1 s2 -> R s2 s3 -> R s1 s3) ->
  (forall s a, R s (g s a)) ->
  (forall s s' a k, R s s' -> val s' a k = val s a k) ->
  (forall s a k, get (g s a) k = if owns a k then val s a k else get s k) ->
  (forall a b k, owns a k = true -> owns b k = true -> a = b) ->
  forall l, List.NoDup l -> forall s k,
    (forall a, In a l -> owns a k = true ->
       get (fold_left g l s) k = val s a k)
    /\ ((forall a, In a l -> owns a k = false) ->
        get (fold_left g l s) k = get s k).
Proof.
  intros Hrefl Htrans Hstep Hval Hget Hdisjoint l Hnodup.
  induction Hnodup as [|a l Hnotin _ IH]; intros s k.
  - split; [intros a []|reflexivity].
  - cbn [fold_left]. destruct (IH (g s a) k) as [IHowned IHfree]. split.
    + intros b [<-|Hb] Hown.
      * rewrite IHfree, Hget, Hown; [reflexivity|].
        intros c Hc. destruct (owns c k) eqn:Hc'; [|reflexivity].
        exfalso. apply Hnotin. now rewrite (Hdisjoint a c k Hown Hc').
      * rewrite (IHowned b Hb Hown). apply Hval, Hstep.
    + intros Hfree. rewrite IHfree.
      * rewrite Hget, (Hfree a (or_introl eq_refl)). reflexivity.
      * intros c Hc. apply Hfree. now right.
Qed.

(** The three values that lines 139-152 store for a scan of a firing. *)
Definition scan_values (fs : array Firing) (k : nat * nat) :
    double * double * double :=
  (azimuth (fs (fst k)) (snd k), distance (fs (fst k)) (snd k),
   intensity (fs (fst k)) (snd k)).

(** The difference of azimuths of lines 127-133: to the next firing, or from
    the one before for the last. *)
Definition azimuth_diff_at (fs : array Firing) (fir_idx : nat) : double :=
  if Nat.ltb fir_idx (FIRINGS_PER_PACKET - 1)
  then (firing_azimuth (fs (fir_idx + 1)%nat) - firing_azimuth (fs fir_idx))%float
  else (firing_azimuth (fs fir_idx) - firing_azimuth (fs (fir_idx - 1)%nat))%float.

(** What the bytes of a block and the azimuths of the firings give for scan
    [scan_idx] of the firing [blk_fir_idx] of the block. *)
Definition decoded_scan (raw_block : RawBlock) (blk_fir_idx : nat)
    (fs : array Firing) (fir_idx scan_idx : nat) : double * double * double :=
  let byte_idx := RAW_SCAN_SIZE * (SCANS_PER_FIRING * blk_fir_idx + scan_idx) in
  ((firing_azimuth (fs fir_idx)
    + (double_of_size_t scan_idx * DSR_TOFFSET / FIRING_TOFFSET)
      * azimuth_diff_at fs fir_idx)%float,
   (static_cast_double
      (TwoBytes (data raw_block byte_idx) (data raw_block (byte_idx + 1)%nat))
    * DISTANCE_RESOLUTION)%float,
   static_cast_double (data raw_block (byte_idx + 2))).

Definition decoded_measurement (packet : RawPacket) (fs : array Firing)
    (k : nat * nat) : double * double * double :=
  decoded_scan (blocks packet (Nat.div (fst k) 2)) (Nat.modulo (fst k) 2)
    fs (fst k) (snd k).

Lemma azimuth_diff_at_ext fs fs' fir_idx :
  same_firing_azimuths fs fs' ->
  azimuth_diff_at fs' fir_idx = azimuth_diff_at fs fir_idx.
Proof. intros Hsame. unfold azimuth_diff_at. now rewrite !Hsame. Qed.

Lemma decoded_scan_ext raw_block blk_fir_idx fs fs' fir_idx scan_idx :
  same_firing_azimuths fs fs' ->
  decoded_scan raw_block blk_fir_idx fs' fir_idx scan_idx
  = decoded_scan raw_block blk_fir_idx fs fir_idx scan_idx.
Proof.
  intros Hsame. unfold decoded_scan.
  now rewrite (azimuth_diff_at_ext _ _ _ Hsame), Hsame.
Qed.

Lemma decode_scan_values raw_block blk_fir_idx fir_idx azimuth_diff fs
    scan_fir_idx k :
  scan_values
    (decode_scan raw_block blk_fir_idx fir_idx azimuth_diff fs scan_fir_idx) k
  = if Nat.eqb (fst k) fir_idx && Nat.eqb (snd k) scan_fir_idx
    then
      let byte_idx :=
        RAW_SCAN_SIZE * (SCANS_PER_FIRING * blk_fir_idx + scan_fir_idx) in
      ((firing_azimuth (fs fir_idx)
        + (double_of_size_t scan_fir_idx * DSR_TOFFSET / FIRING_TOFFSET)
          * azimuth_diff)%float,
       (static_cast_double
          (TwoBytes (data raw_block byte_idx) (data raw_block (byte_idx + 1)%nat))
        * DISTANCE_RESOLUTION)%float,
       static_cast_double (data raw_block (byte_idx + 2)))
    else scan_values fs k.
Proof.
  destruct k as [fir' scan']. unfold scan_values, decode_scan, upd.
  cbn [fst snd].
  destruct (Nat.eqb_spec fir' fir_idx) as [->|Hfir]; cbn [andb];
    [|reflexivity].
  rewrite !Nat.eqb_refl. cbn.
  destruct (Nat.eqb_spec scan' scan_fir_idx) as [->|Hscan]; reflexivity.
Qed.

Lemma decode_firing_unfold raw_block blk_idx fs blk_fir_idx :
  decode_firing raw_block blk_idx fs blk_fir_idx
  = fold_left
      (decode_scan raw_block blk_fir_idx
         (blk_idx * FIRINGS_PER_BLOCK + blk_fir_idx)
         (azimuth_diff_at fs (blk_idx * FIRINGS_PER_BLOCK + blk_fir_idx)))
      (for_range 0 SCANS_PER_FIRING 1) fs.
Proof. reflexivity. Qed.

Lemma decode_firing_values raw_block blk_idx fs blk_fir_idx k :
  scan_values (decode_firing raw_block blk_idx fs blk_fir_idx) k
  = if Nat.eqb (fst k) (blk_idx * FIRINGS_PER_BLOCK + blk_fir_idx)
       && Nat.ltb (snd k) SCANS_PER_FIRING
    then decoded_scan raw_block blk_fir_idx fs
           (blk_idx * FIRINGS_PER_BLOCK + blk_fir_idx) (snd k)
    else scan_values fs k.
Proof.
  rewrite decode_firing_unfold. unfold decoded_scan.
  set (fir_idx := blk_idx * FIRINGS_PER_BLOCK + blk_fir_idx).
  set (diff := azimuth_diff_at fs fir_idx).
  assert (Hnodup : List.NoDup (for_range 0 SCANS_PER_FIRING 1))
    by (rewrite for_range_seq; apply List.seq_NoDup).
  set (owns := fun (scan_fir_idx : nat) (k : nat * nat) =>
                 Nat.eqb (fst k) fir_idx && Nat.eqb (snd k) scan_fir_idx).
  set (val := fun (fs : array Firing) (scan_fir_idx : nat) (_ : nat * nat) =>
                let byte_idx :=
                  RAW_SCAN_SIZE
                  * (SCANS_PER_FIRING * blk_fir_idx + scan_fir_idx) in
                ((firing_azimuth (fs fir_idx)
                  + (double_of_size_t scan_fir_idx * DSR_TOFFSET
                     / FIRING_TOFFSET) * diff)%float,
                 (static_cast_double
                    (TwoBytes (data raw_block byte_idx)
                       (data raw_block (byte_idx + 1)%nat))
                  * DISTANCE_RESOLUTION)%float,
                 static_cast_double (data raw_block (byte_idx + 2)))).
  assert (Hval : forall s s' a k', same_firing_azimuths s s' ->
                                   val s' a k' = val s a k')
    by (intros s s' a k' Hs; unfold val; cbv zeta; now rewrite Hs).
  assert (Hget : forall s a k',
            scan_values (decode_scan raw_block blk_fir_idx fir_idx diff s a) k'
            = if owns a k' then val s a k' else scan_values s k')
    by (intros s a k'; apply decode_scan_values).
  assert (Hdisjoint : forall a b k',
            owns a k' = true -> owns b k' = true -> a = b).
  { intros a b k' Ha Hb. unfold owns in Ha, Hb.
    apply andb_prop in Ha. apply andb_prop in Hb.
    destruct Ha as [_ Ha]. destruct Hb as [_ Hb].
    apply Nat.eqb_eq in Ha. apply Nat.eqb_eq in Hb. congruence. }
  destruct (fold_left_assigns same_firing_azimuths
              (decode_scan raw_block blk_fir_idx fir_idx diff)
              scan_values owns val
              same_firing_azimuths_refl same_firing_azimuths_trans
              (decode_scan_firing_azimuth raw_block blk_fir_idx fir_idx diff)
              Hval Hget Hdisjoint _ Hnodup fs k) as [Howned Hfree].
  unfold owns, val in Howned, Hfree. clear Hval Hget Hdisjoint. clear owns val.
  destruct (Nat.eqb_spec (fst k) fir_idx) as [Hfir|Hfir]; cbn [andb] in *.
  - destruct (Nat.ltb_spec (snd k) SCANS_PER_FIRING) as [Hscan|Hscan].
    + apply (Howned (snd k)); [apply In_for_range; lia | apply Nat.eqb_refl].
    + apply Hfree. intros a Ha. apply In_for_range in Ha.
      apply Nat.eqb_neq. lia.
  - apply Hfree. reflexivity.
Qed.

Lemma decode_firing_firing_azimuth raw_block blk_idx fs blk_fir_idx :
  same_firing_azimuths fs (decode_firing raw_block blk_idx fs blk_fir_idx).
Proof.
  rewrite decode_firing_unfold.
  apply fold_left_keeps with (R := same_firing_azimuths);
    auto using same_firing_azimuths_refl, decode_scan_firing_azimuth.
  apply same_firing_azimuths_trans.
Qed.

Lemma decoded_measurement_ext packet fs fs' k :
  same_firing_azimuths fs fs' ->
  decoded_measurement packet fs' k = decoded_measurement packet fs k.
Proof. intros Hsame. unfold decoded_measurement. now apply decoded_scan_ext. Qed.

Lemma firing_of_block fir_idx blk_idx :
  Nat.div fir_idx 2 = blk_idx ->
  blk_idx * FIRINGS_PER_BLOCK + Nat.modulo fir_idx 2 = fir_idx
  /\ Nat.modulo fir_idx 2 < 2.
Proof.
  intros <-. unfold FIRINGS_PER_BLOCK.
  pose proof (Nat.div_mod_eq fir_idx 2).
  pose proof (Nat.mod_upper_bound fir_idx 2). lia.
Qed.

Lemma block_of_firing blk_idx blk_fir_idx :
  blk_fir_idx < 2 ->
  Nat.div (blk_idx * FIRINGS_PER_BLOCK + blk_fir_idx) 2 = blk_idx
  /\ Nat.modulo (blk_idx * FIRINGS_PER_BLOCK + blk_fir_idx) 2 = blk_fir_idx.
Proof.
  intros Hlt. unfold FIRINGS_PER_BLOCK.
  rewrite Nat.add_comm. split.
  - rewrite Nat.div_add by lia. now rewrite Nat.div_small by lia.
  - rewrite Nat.Div0.mod_add. now apply Nat.mod_small.
Qed.

Lemma decode_block_values packet fs blk_idx k :
  scan_values (decode_block packet fs blk_idx) k
  = if Nat.eqb (Nat.div (fst k) 2) blk_idx && Nat.ltb (snd k) SCANS_PER_FIRING
    then decoded_measurement packet fs k
    else scan_values fs k.
Proof.
  unfold decode_block.
  set (owns := fun (blk_fir_idx : nat) (k : nat * nat) =>
                 Nat.eqb (fst k) (blk_idx * FIRINGS_PER_BLOCK + blk_fir_idx)
                 && Nat.ltb (snd k) SCANS_PER_FIRING).
  set (val := fun (fs : array Firing) (blk_fir_idx : nat) (k : nat * nat) =>
                decoded_scan (blocks packet blk_idx) blk_fir_idx fs
                  (blk_idx * FIRINGS_PER_BLOCK + blk_fir_idx) (snd k)).
  assert (Hnodup : List.NoDup (for_range 0 FIRINGS_PER_BLOCK 1))
    by (rewrite for_range_seq; apply List.seq_NoDup).
  assert (Hval : forall s s' a k', same_firing_azimuths s s' ->
                                   val s' a k' = val s a k')
    by (intros s s' a k' Hs; unfold val; now apply decoded_scan_ext).
  assert (Hget : forall s a k',
            scan_values (decode_firing (blocks packet blk_idx) blk_idx s a) k'
            = if owns a k' then val s a k' else scan_values s k')
    by (intros s a k'; apply decode_firing_values).
  assert (Hdisjoint : forall a b k',
            owns a k' = true -> owns b k' = true -> a = b).
  { intros a b k' Ha Hb. unfold owns in Ha, Hb.
    apply andb_prop in Ha. apply andb_prop in Hb.
    destruct Ha as [Ha _]. destruct Hb as [Hb _].
    apply Nat.eqb_eq in Ha. apply Nat.eqb_eq in Hb. lia. }
  destruct (fold_left_assigns same_firing_azimuths
              (decode_firing (blocks packet blk_idx) blk_idx)
              scan_values owns val
              same_firing_azimuths_refl same_firing_azimuths_trans
              (decode_firing_firing_azimuth (blocks packet blk_idx) blk_idx)
              Hval Hget Hdisjoint _ Hnodup fs k) as [Howned Hfree].
  unfold owns, val in Howned, Hfree. clear Hval Hget Hdisjoint. clear owns val.
  destruct (Nat.eqb_spec (Nat.div (fst k) 2) blk_idx) as [Hblk|Hblk];
    cbn [andb].
  - destruct (firing_of_block _ _ Hblk) as [Hfir Hmod].
    destruct (Nat.ltb (snd k) SCANS_PER_FIRING) eqn:Hscan.
    + rewrite (Howned (Nat.modulo (fst k) 2)).
      * unfold decoded_measurement. now rewrite Hfir, Hblk.
      * apply In_for_range. unfold FIRINGS_PER_BLOCK. lia.
      * rewrite Hfir, Nat.eqb_refl. reflexivity.
    + apply Hfree. intros a _. apply andb_false_intro2. reflexivity.
  - apply Hfree. intros a Ha. apply In_for_range in Ha.
    unfold FIRINGS_PER_BLOCK in Ha.
    apply andb_false_intro1, Nat.eqb_neq. intros Heq. apply Hblk.
    rewrite Heq. apply block_of_firing. lia.
Qed.

(** After the loop of lines 121-155 every scan of every firing holds what
    the bytes of its block and the azimuths of the firings give. *)
Lemma decode_blocks_values packet fs k :
  fst k < FIRINGS_PER_PACKET -> snd k < SCANS_PER_FIRING ->
  scan_values
    (fold_left (decode_block packet) (for_range 0 BLOCKS_PER_PACKET 1) fs) k
  = decoded_measurement packet fs k.
Proof.
  intros Hfir Hscan.
  set (owns := fun (blk_idx : nat) (k : nat * nat) =>
                 Nat.eqb (Nat.div (fst k) 2) blk_idx
                 && Nat.ltb (snd k) SCANS_PER_FIRING).
  assert (Hnodup : List.NoDup (for_range 0 BLOCKS_PER_PACKET 1))
    by (rewrite for_range_seq; apply List.seq_NoDup).
  assert (Hdisjoint : forall a b k',
            owns a k' = true -> owns b k' = true -> a = b).
  { intros a b k' Ha Hb. unfold owns in Ha, Hb.
    apply andb_prop in Ha. apply andb_prop in Hb.
    destruct Ha as [Ha _]. destruct Hb as [Hb _].
    apply Nat.eqb_eq in Ha. apply Nat.eqb_eq in Hb. lia. }
  destruct (fold_left_assigns same_firing_azimuths (decode_block packet)
              scan_values owns
              (fun fs (_ : nat) k => decoded_measurement packet fs k)
              same_firing_azimuths_refl same_firing_azimuths_trans
              (decode_block_firing_azimuth packet)
              ltac:(intros s s' a k' Hs; now apply decoded_measurement_ext)
              ltac:(intros s a k'; apply decode_block_values)
              Hdisjoint _ Hnodup fs k) as [Howned _].
  apply (Howned (Nat.div (fst k) 2)).
  - apply In_for_range. unfold FIRINGS_PER_PACKET, FIRINGS_PER_BLOCK,
      BLOCKS_PER_PACKET in *.
    pose proof (Nat.div_mod_eq (fst k) 2).
    pose proof (Nat.mod_upper_bound (fst k) 2). lia.
  - unfold owns. rewrite Nat.eqb_refl. cbn [andb].
    now apply Nat.ltb_lt.
Qed.

Lemma decodePacket_same_firing_azimuths packet this :
  same_firing_azimuths (decode_azimuths packet (firings this))
    (firings (decodePacket packet this)).
Proof. intros i. apply decodePacket_firing_azimuth. Qed.

(** What [decodePacket] leaves in every scan of every firing. *)
Lemma decodePacket_scan_values packet this k :
  fst k < FIRINGS_PER_PACKET -> snd k < SCANS_PER_FIRING ->
  scan_values (firings (decodePacket packet this)) k
  = decoded_measurement packet (firings (decodePacket packet this)) k.
Proof.
  intros Hfir Hscan.
  rewrite (decoded_measurement_ext packet _ _ k
             (decodePacket_same_firing_azimuths packet this)).
  unfold decodePacket. cbn [firings set_firings].
  now apply decode_blocks_values.
Qed.

Lemma triple_eq {A B C : Type} (a a' : A) (b b' : B) (c c' : C) :
  (a, b, c) = (a', b', c') -> a = a' /\ b = b' /\ c = c'.
Proof. intros Heq. now injection Heq. Qed.

(** The two bytes of [union TwoBytes] are the low and the high byte of the
    value. *)
Lemma TwoBytes_little_endian (byte0 byte1 : Z) :
  (0 <= byte0 < 256)%Z -> (0 <= byte1)%Z ->
  TwoBytes byte0 byte1 = (byte0 + 256 * byte1)%Z.
Proof.
  intros H0 H1. unfold TwoBytes. rewrite Z.shiftl_mul_pow2 by lia.
  assert (Hland : Z.land byte0 (byte1 * 2 ^ 8) = 0%Z).
  { apply Z.bits_inj'. intros n Hn. rewrite Z.land_spec, Z.bits_0.
    destruct (Z.lt_ge_cases n 8).
    - rewrite Z.mul_pow2_bits_low by lia. apply andb_false_r.
    - replace byte0 with (byte0 mod 2 ^ 8)%Z
        by (apply Z.mod_small; change (2 ^ 8)%Z with 256%Z; lia).
      rewrite Z.mod_pow2_bits_high by lia. reflexivity. }
  rewrite <- (Z.lxor_lor _ _ Hland), <- (Z.add_nocarry_lxor _ _ Hland).
  change (2 ^ 8)%Z with 256%Z. lia.
Qed.

Lemma byte_at_range (msg : list Z) (i : nat) :
  Forall (fun b => (0 <= b < 256)%Z) msg -> (0 <= byte_at msg i < 256)%Z.
Proof.
  intros Hall. unfold byte_at.
  destruct (Nat.lt_ge_cases i (length msg)) as [Hlt|Hge].
  - rewrite List.Forall_forall in Hall. apply Hall. now apply nth_In.
  - rewrite nth_overflow by exact Hge. lia.
Qed.

Lemma reinterpret_data (msg : list Z) (packet : RawPacket) :
  reinterpret_RawPacket msg = Some packet ->
  SIZE_BLOCK * BLOCKS_PER_PACKET <= length msg ->
  (forall blk_idx i, blk_idx < 12 -> i < 96 ->
     data (blocks packet blk_idx) i = nth (100 * blk_idx + 4 + i) msg 0%Z)
  /\ (Forall (fun b => (0 <= b < 256)%Z) msg ->
      forall blk_idx i, blk_idx < 12 -> i < 96 ->
        (0 <= data (blocks packet blk_idx) i < 256)%Z).
Proof.
  unfold reinterpret_RawPacket. cbv zeta.
  destruct (Nat.ltb (length (msg ++ beyond msg))
              (SIZE_BLOCK * BLOCKS_PER_PACKET)); [discriminate|].
  intros Hmsg Hlen. injection Hmsg as <-. cbn [blocks]. unfold block_at.
  cbn [data]. unfold SIZE_BLOCK, BLOCKS_PER_PACKET in *.
  assert (Hdata : forall blk_idx i, blk_idx < 12 -> i < 96 ->
            byte_at (msg ++ beyond msg) (100 * blk_idx + 4 + i)
            = nth (100 * blk_idx + 4 + i) msg 0%Z).
  { intros blk_idx i Hblk Hi. unfold byte_at. apply app_nth1. lia. }
  split; [exact Hdata|].
  intros Hbytes blk_idx i Hblk Hi. rewrite Hdata by assumption.
  now apply (byte_at_range msg).
Qed.

Lemma measurement_in_block (fir_idx scan_idx : nat) :
  fir_idx < 24 -> scan_idx < 16 ->
  Nat.div fir_idx 2 < 12
  /\ 3 * (16 * Nat.modulo fir_idx 2 + scan_idx) + 2 < 96.
Proof.
  intros Hfir Hscan.
  pose proof (Nat.mod_upper_bound fir_idx 2 ltac:(lia)) as Hmod.
  split; [apply Nat.Div0.div_lt_upper_bound; lia | lia].
Qed.

(** X5. The distance and the intensity that [decodePacket] stores for scan
    [scan_idx] of firing [fir_idx] are read from the three bytes at offset
    100 (fir_idx / 2) + 4 + 3 (16 (fir_idx mod 2) + scan_idx) of the buffer,
    when the buffer holds the 1200 bytes of the blocks: the distance is the
    little-endian value of the first two, byte0 + 256 byte1, times
    [DISTANCE_RESOLUTION], the intensity is the third. *)
Theorem decodePacket_reads_measurements (msg : list Z) (packet : RawPacket)
    (this : VelodynePuckDecoder) (fir_idx scan_idx : nat) :
  reinterpret_RawPacket msg = Some packet ->
  SIZE_BLOCK * BLOCKS_PER_PACKET <= length msg ->
  Forall (fun b => (0 <= b < 256)%Z) msg ->
  fir_idx < FIRINGS_PER_PACKET -> scan_idx < SCANS_PER_FIRING ->
  distance (firings (decodePacket packet this) fir_idx) scan_idx
  = (static_cast_double
       (nth (100 * Nat.div fir_idx 2 + 4
             + 3 * (16 * Nat.modulo fir_idx 2 + scan_idx)) msg 0
        + 256
          * nth (100 * Nat.div fir_idx 2 + 4
                 + 3 * (16 * Nat.modulo fir_idx 2 + scan_idx) + 1) msg 0)%Z
     * DISTANCE_RESOLUTION)%float
  /\ intensity (firings (decodePacket packet this) fir_idx) scan_idx
     = static_cast_double
         (nth (100 * Nat.div fir_idx 2 + 4
               + 3 * (16 * Nat.modulo fir_idx 2 + scan_idx) + 2) msg 0%Z).
Proof.
  intros Hmsg Hlen Hbytes Hfir Hscan.
  destruct (reinterpret_data msg packet Hmsg Hlen) as [Hdata Hrange].
  pose proof (decodePacket_scan_values packet this (fir_idx, scan_idx)
                Hfir Hscan) as Hvalues.
  unfold scan_values, decoded_measurement, decoded_scan in Hvalues.
  cbn [fst snd] in Hvalues.
  apply triple_eq in Hvalues as (_ & Hdistance & Hintensity).
  rewrite Hdistance, Hintensity.
  unfold RAW_SCAN_SIZE, SCANS_PER_FIRING in *.
  assert (Hfir24 : fir_idx < 24)
    by (unfold FIRINGS_PER_PACKET, FIRINGS_PER_BLOCK, BLOCKS_PER_PACKET in Hfir;
        exact Hfir).
  destruct (measurement_in_block fir_idx scan_idx Hfir24 Hscan)
    as [Hblk Hlast].
  rewrite TwoBytes_little_endian
    by (apply (Hrange Hbytes); [exact Hblk | lia]).
  rewrite !Hdata by (exact Hblk || lia).
  rewrite <- !Nat.add_assoc. split; reflexivity.
Qed.

(** X6. The azimuth that [decodePacket] stores for scan [scan_idx] of firing
    [fir_idx] is the azimuth of the firing plus the share
    scan_idx * DSR_TOFFSET / FIRING_TOFFSET of the difference to the azimuth
    of the next firing; the last firing takes the difference from the firing
    before it. *)
Theorem decodePacket_spreads_azimuth (packet : RawPacket)
    (this : VelodynePuckDecoder) (fir_idx scan_idx : nat) :
  fir_idx < FIRINGS_PER_PACKET -> scan_idx < SCANS_PER_FIRING ->
  azimuth (firings (decodePacket packet this) fir_idx) scan_idx
  = (firing_azimuth (firings (decodePacket packet this) fir_idx)
     + (double_of_size_t scan_idx * DSR_TOFFSET / FIRING_TOFFSET)
       * (if Nat.ltb fir_idx 23
          then firing_azimuth (firings (decodePacket packet this)
                                 (fir_idx + 1)%nat)
               - firing_azimuth (firings (decodePacket packet this) fir_idx)
          else firing_azimuth (firings (decodePacket packet this) fir_idx)
               - firing_azimuth (firings (decodePacket packet this)
                                   (fir_idx - 1)%nat)))%float.
Proof.
  intros Hfir Hscan.
  pose proof (decodePacket_scan_values packet this (fir_idx, scan_idx)
                Hfir Hscan) as Hvalues.
  unfold scan_values, decoded_measurement, decoded_scan in Hvalues.
  cbn [fst snd] in Hvalues.
  apply triple_eq in Hvalues as (Hazimuth & _ & _).
  rewrite Hazimuth. reflexivity.
Qed.

(** The measurement of a scan from the packet alone. *)
Definition packet_measurement (packet : RawPacket) (fir_idx scan_idx : nat) :
    double * double * double :=
  decoded_scan (blocks packet (Nat.div fir_idx 2)) (Nat.modulo fir_idx 2)
    (fun i => {| firing_azimuth := packet_azimuth packet i;
                 azimuth := fun _ => 0%float;
                 distance := fun _ => 0%float;
                 intensity := fun _ => 0%float |})
    fir_idx scan_idx.

Lemma decoded_measurement_decodePacket packet this fir_idx scan_idx :
  fir_idx < FIRINGS_PER_PACKET ->
  decoded_measurement packet (firings (decodePacket packet this))
    (fir_idx, scan_idx)
  = packet_measurement packet fir_idx scan_idx.
Proof.
  intros Hfir. unfold decoded_measurement, packet_measurement, decoded_scan,
    azimuth_diff_at.
  cbn [fst snd firing_azimuth].
  unfold FIRINGS_PER_PACKET, FIRINGS_PER_BLOCK, BLOCKS_PER_PACKET in *.
  cbn [Nat.mul Nat.add Nat.sub] in *.
  destruct (Nat.ltb_spec fir_idx 23) as [Hlt|Hge];
    rewrite !decodePacket_packet_azimuth
      by (unfold FIRINGS_PER_PACKET, FIRINGS_PER_BLOCK, BLOCKS_PER_PACKET;
          cbn; lia);
    reflexivity.
Qed.

(** X7. [decodePacket] leaves nothing of the packet before in the 24
    firings: the azimuth of a firing and the azimuth, distance and intensity
    of each of its 16 scans are the same whatever the decoder held. *)
Theorem decodePacket_overwrites_firings (packet : RawPacket)
    (this this' : VelodynePuckDecoder) (fir_idx scan_idx : nat) :
  fir_idx < FIRINGS_PER_PACKET -> scan_idx < SCANS_PER_FIRING ->
  firing_azimuth (firings (decodePacket packet this) fir_idx)
  = firing_azimuth (firings (decodePacket packet this') fir_idx)
  /\ azimuth (firings (decodePacket packet this) fir_idx) scan_idx
     = azimuth (firings (decodePacket packet this') fir_idx) scan_idx
  /\ distance (firings (decodePacket packet this) fir_idx) scan_idx
     = distance (firings (decodePacket packet this') fir_idx) scan_idx
  /\ intensity (firings (decodePacket packet this) fir_idx) scan_idx
     = intensity (firings (decodePacket packet this') fir_idx) scan_idx.
Proof.
  intros Hfir Hscan.
  pose proof (decodePacket_scan_values packet this (fir_idx, scan_idx)
                Hfir Hscan) as Hvalues.
  pose proof (decodePacket_scan_values packet this' (fir_idx, scan_idx)
                Hfir Hscan) as Hvalues'.
  rewrite (decoded_measurement_decodePacket packet this _ _ Hfir) in Hvalues.
  rewrite (decoded_measurement_decodePacket packet this' _ _ Hfir) in Hvalues'.
  rewrite <- Hvalues' in Hvalues. unfold scan_values in Hvalues.
  cbn [fst snd] in Hvalues. apply triple_eq in Hvalues as (Ha & Hd & Hi).
  split; [now rewrite !decodePacket_packet_azimuth|].
  split; [exact Ha|]. split; [exact Hd | exact Hi].
Qed.

(** ** The sweep machine *)

Lemma in_range_points_nil this k c : in_range_points this k k c = [].
Proof.
  unfold in_range_points. rewrite for_range_seq, Nat.sub_diag. reflexivity.
Qed.

(** X8. The valid packet whose azimuths first decrease, at firing [k], while
    the decoder waits for its first revolution: the call says so once
    ([ROS_INFO]), publishes nothing and leaves the waiting state; the
    firings before [k] are dropped and the in-range points of firings
    [k, 24) start the sweep; [packet_start_time] advances by
    [FIRING_TOFFSET] times 24 - k; [last_azimuth] is left at the azimuth
    that firing [k] was compared with, not at the one of firing 23. *)
Theorem packetCallback_starts_first_sweep (msg : list Z) (packet : RawPacket)
    (this : VelodynePuckDecoder) (k : nat) :
  reinterpret_RawPacket msg = Some packet ->
  valid_packet packet ->
  is_first_sweep this = true ->
  k < FIRINGS_PER_PACKET ->
  first_decrease (decodePacket packet this) k ->
  exists this',
    packetCallback msg this = Some (this', [ROS_INFO])
    /\ is_first_sweep this' = false
    /\ (forall c, c < 16 ->
          channel this' c
          = channel this c
            ++ in_range_points (decodePacket packet this)
                 k FIRINGS_PER_PACKET c)
    /\ packet_start_time this'
       = (packet_start_time this
          + FIRING_TOFFSET * double_of_size_t (FIRINGS_PER_PACKET - k))%float
    /\ last_azimuth this' = seen_before (decodePacket packet this) k.
Proof.
  intros Hmsg Hvalid Hfirst Hk Hdec.
  destruct (decodePacket_members packet this)
    as (Dmin & Dmax & Dfirst & _ & Dpst & Dsweep).
  destruct (set_last_azimuth_members
              (seen_before (decodePacket packet this) k)
              (decodePacket packet this))
    as (Fmin & Fmax & Ffirst & Fpst & Ffs & Fsweep).
  remember (seen_before (decodePacket packet this) k) as seen eqn:Hseen.
  pose proof (decode_valid _ _ _ _ Hvalid (find_first_decrease _ _ Hk Hdec))
    as Hdecode.
  rewrite <- Hseen in Hdecode.
  assert (Hlast : last_azimuth (set_last_azimuth seen (decodePacket packet this))
                  = seen)
    by (generalize (decodePacket packet this); reflexivity).
  revert Hdecode Fmin Fmax Ffirst Fpst Ffs Fsweep Hlast.
  generalize (set_last_azimuth seen (decodePacket packet this)) as found.
  intros found Hdecode Fmin Fmax Ffirst Fpst Ffs Fsweep Hlast.
  rewrite assemble_sweep_starts in Hdecode by (congruence || exact Hk).
  destruct (convert_firings_members k FIRINGS_PER_PACKET
              (set_is_first_sweep false found))
    as (_ & _ & Cfirst & Clast & Cpst & _ & _).
  exists (convert_firings k FIRINGS_PER_PACKET (set_is_first_sweep false found)).
  rewrite (packetCallback_decode _ _ _ Hmsg), Hdecode.
  split; [reflexivity|]. split; [exact Cfirst|].
  split; [|split].
  - intros c Hc. rewrite convert_firings_channel by exact Hc. f_equal.
    + unfold channel. cbn [sweep_data set_is_first_sweep].
      now rewrite Fsweep, Dsweep.
    + apply in_range_points_ext;
        cbn [min_range max_range packet_start_time firings
             set_is_first_sweep]; congruence.
  - rewrite Cpst. cbn [packet_start_time set_is_first_sweep]. congruence.
  - rewrite Clast. exact Hlast.
Qed.

(** X9. A valid packet without a decrease of azimuth, met while a sweep is
    in progress: the call publishes and reports nothing, appends the
    in-range points of the 24 firings to the sweep, advances
    [packet_start_time] by [FIRING_TOFFSET] times 24 and stores the azimuth
    of firing 23 as [last_azimuth]. *)
Theorem packetCallback_appends_whole_packet (msg : list Z)
    (packet : RawPacket) (this : VelodynePuckDecoder) :
  reinterpret_RawPacket msg = Some packet ->
  valid_packet packet ->
  is_first_sweep this = false ->
  no_decrease (decodePacket packet this) ->
  exists this',
    packetCallback msg this = Some (this', [])
    /\ is_first_sweep this' = false
    /\ (forall c, c < 16 ->
          channel this' c
          = channel this c
            ++ in_range_points (decodePacket packet this)
                 0 FIRINGS_PER_PACKET c)
    /\ packet_start_time this'
       = (packet_start_time this
          + FIRING_TOFFSET * double_of_size_t (FIRINGS_PER_PACKET - 0))%float
    /\ last_azimuth this'
       = firing_azimuth (firings (decodePacket packet this) 23).
Proof.
  intros Hmsg Hvalid Hfirst Hnone.
  destruct (decodePacket_members packet this)
    as (Dmin & Dmax & Dfirst & _ & Dpst & Dsweep).
  destruct (set_last_azimuth_members
              (firing_azimuth (firings (decodePacket packet this) 23))
              (decodePacket packet this))
    as (Fmin & Fmax & Ffirst & Fpst & Ffs & Fsweep).
  remember (firing_azimuth (firings (decodePacket packet this) 23))
    as az23 eqn:Haz23.
  pose proof (decode_valid _ _ _ _ Hvalid (find_no_decrease _ Hnone))
    as Hdecode.
  rewrite <- Haz23 in Hdecode.
  assert (Hlast : last_azimuth (set_last_azimuth az23 (decodePacket packet this))
                  = az23)
    by (generalize (decodePacket packet this); reflexivity).
  revert Hdecode Fmin Fmax Ffirst Fpst Ffs Fsweep Hlast.
  generalize (set_last_azimuth az23 (decodePacket packet this)) as found.
  intros found Hdecode Fmin Fmax Ffirst Fpst Ffs Fsweep Hlast.
  rewrite assemble_sweep_continues in Hdecode by congruence.
  destruct (convert_firings_members 0 FIRINGS_PER_PACKET found)
    as (_ & _ & Cfirst & Clast & Cpst & _ & _).
  exists (convert_firings 0 FIRINGS_PER_PACKET found).
  rewrite (packetCallback_decode _ _ _ Hmsg), Hdecode.
  split; [reflexivity|]. split; [congruence|].
  split; [|split].
  - intros c Hc. rewrite convert_firings_channel by exact Hc. f_equal.
    + unfold channel. now rewrite Fsweep, Dsweep.
    + apply in_range_points_ext; congruence.
  - rewrite Cpst. congruence.
  - rewrite Clast. exact Hlast.
Qed.

(** X10. A valid packet whose firing 0 is already below [last_azimuth], met
    while a sweep is in progress: the sweep is published as the call found
    it, without a point of the packet, and the 24 firings of the packet
    start the sweep that follows, timed from 0. *)
Theorem packetCallback_wrap_at_firing_0 (msg : list Z) (packet : RawPacket)
    (this : VelodynePuckDecoder) :
  reinterpret_RawPacket msg = Some packet ->
  valid_packet packet ->
  is_first_sweep this = false ->
  (firing_azimuth (firings (decodePacket packet this) 0%nat)
   <? last_azimuth this)%float = true ->
  exists this' sweep,
    packetCallback msg this = Some (this', [publish sweep])
    /\ (forall c, c < 16 -> points (scans sweep c) = channel this c)
    /\ (forall c, c < 16 ->
          channel this' c
          = in_range_points
              (set_packet_start_time 0.0%float (decodePacket packet this))
              0 FIRINGS_PER_PACKET c)
    /\ packet_start_time this'
       = (0.0 + FIRING_TOFFSET
                * double_of_size_t (FIRINGS_PER_PACKET - 0))%float
    /\ last_azimuth this'
       = firing_azimuth (firings (decodePacket packet this) 23).
Proof.
  intros Hmsg Hvalid Hfirst Hbelow.
  assert (Hk : 0 < FIRINGS_PER_PACKET)
    by (unfold FIRINGS_PER_PACKET, FIRINGS_PER_BLOCK, BLOCKS_PER_PACKET; lia).
  assert (Hdec : first_decrease (decodePacket packet this) 0).
  { split; [intros i Hi; lia|]. unfold decreases_at. cbn [seen_before].
    destruct (decodePacket_members packet this) as (_ & _ & _ & -> & _).
    exact Hbelow. }
  destruct (decode_wraps packet this 0 Hvalid Hfirst Hk Hdec)
    as (found & Hdecode & Fmin & Fmax & Fpst & Ffs & Fsweep & Ffirst).
  destruct (decodePacket_members packet this)
    as (Dmin & Dmax & _ & _ & Dpst & _).
  destruct (opened_sweep_members 0 found)
    as (_ & _ & Opst & _ & _ & Olast & _).
  destruct (convert_firings_members 0 FIRINGS_PER_PACKET (opened_sweep 0 found))
    as (_ & _ & _ & Hlast & Hpst & _).
  exists (convert_firings 0 FIRINGS_PER_PACKET (opened_sweep 0 found)),
         (sweep_data (closed_sweep 0 found)).
  rewrite (packetCallback_decode _ _ _ Hmsg), Hdecode.
  split; [reflexivity|]. split; [|split; [|split]].
  - intros c Hc.
    change (channel (convert_firings 0 0 found) c = channel this c).
    rewrite convert_firings_channel by exact Hc.
    rewrite in_range_points_nil, app_nil_r.
    unfold channel. now rewrite Fsweep.
  - intros c Hc. apply opened_sweep_channel; congruence.
  - now rewrite Hpst, Opst.
  - now rewrite Hlast, Olast, Ffs.
Qed.

(** The four ways of lines 182-297, by the state of the decoder and the
    firing found. *)
Lemma assemble_sweep_cases k found :
  k <= FIRINGS_PER_PACKET ->
  (is_first_sweep found = true /\ k = FIRINGS_PER_PACKET
   /\ assemble_sweep k found = (found, []))
  \/ (is_first_sweep found = true /\ k < FIRINGS_PER_PACKET
      /\ assemble_sweep k found
         = (convert_firings k FIRINGS_PER_PACKET
              (set_is_first_sweep false found), [ROS_INFO]))
  \/ (is_first_sweep found = false /\ k = FIRINGS_PER_PACKET
      /\ assemble_sweep k found
         = (convert_firings 0 FIRINGS_PER_PACKET found, []))
  \/ (is_first_sweep found = false /\ k < FIRINGS_PER_PACKET
      /\ assemble_sweep k found
         = (convert_firings k FIRINGS_PER_PACKET (opened_sweep k found),
            [publish (sweep_data (closed_sweep k found))])).
Proof.
  intros Hk.
  destruct (is_first_sweep found) eqn:Hfirst;
    destruct (Nat.eq_dec k FIRINGS_PER_PACKET) as [->|Hne].
  - left. split; [reflexivity|]. split; [reflexivity|].
    now apply assemble_sweep_waiting.
  - right; left. split; [reflexivity|]. split; [lia|].
    apply assemble_sweep_starts; [exact Hfirst | lia].
  - right; right; left. split; [reflexivity|]. split; [reflexivity|].
    now apply assemble_sweep_continues.
  - right; right; right. split; [reflexivity|]. split; [lia|].
    apply assemble_sweep_wraps; [exact Hfirst | lia].
Qed.

(** What the search of lines 174-180 hands to the assembly: the decoded
    packet with another [last_azimuth], and a firing index of at most 24. *)
Definition found_in (packet : RawPacket) (this : VelodynePuckDecoder)
    (k : nat) (found : VelodynePuckDecoder) : Prop :=
  k <= FIRINGS_PER_PACKET
  /\ decode packet this = assemble_sweep k found
  /\ min_range found = min_range this
  /\ max_range found = max_range this
  /\ is_first_sweep found = is_first_sweep this
  /\ packet_start_time found = packet_start_time this
  /\ firings found = firings (decodePacket packet this)
  /\ sweep_data found = sweep_data this.

Lemma decode_checked_found packet this :
  checkPacketValidity packet = (true, []) ->
  exists k found, found_in packet this k found.
Proof.
  intros Hcheck.
  destruct (find_new_sweep_start_shape FIRINGS_PER_PACKET 0
              (decodePacket packet this)) as (k & v & Hfind & Hk).
  destruct (decodePacket_members packet this)
    as (Dmin & Dmax & Dfirst & _ & Dpst & Dsweep).
  destruct (set_last_azimuth_members v (decodePacket packet this))
    as (Fmin & Fmax & Ffirst & Fpst & Ffs & Fsweep).
  pose proof (decode_checked _ _ _ _ Hcheck Hfind) as Hdecode.
  exists k, (set_last_azimuth v (decodePacket packet this)).
  split; [lia|]. split; [exact Hdecode|].
  split; [now rewrite Fmin|]. split; [now rewrite Fmax|].
  split; [now rewrite Ffirst|]. split; [now rewrite Fpst|].
  split; [exact Ffs|]. now rewrite Fsweep.
Qed.

Lemma decode_cases packet this :
  (exists blk_idx hdr', decode packet this = (this, [ROS_WARN blk_idx hdr']))
  \/ exists k found, found_in packet this k found.
Proof.
  destruct (checkPacketValidity_from_cases packet
              (for_range 0 BLOCKS_PER_PACKET 1))
    as [[Hok _]|(before & blk & after & _ & _ & _ & Hbad)];
    fold (checkPacketValidity packet) in *.
  - right. now apply decode_checked_found.
  - left. exists blk, (header (blocks packet blk)).
    now apply decode_invalid.
Qed.

Lemma decode_valid_found packet this :
  valid_packet packet -> exists k found, found_in packet this k found.
Proof.
  intros Hvalid.
  destruct (decode_cases packet this) as [(blk & h & Hbad)|Hfound];
    [|exact Hfound].
  exfalso.
  destruct (find_new_sweep_start_shape FIRINGS_PER_PACKET 0
              (decodePacket packet this)) as (k & v & Hfind & Hk).
  pose proof (decode_valid _ _ _ _ Hvalid Hfind) as Hdecode.
  rewrite Hbad in Hdecode.
  pose proof (f_equal snd Hdecode) as Hevents. cbn [snd] in Hevents.
  revert Hevents.
  generalize (set_last_azimuth v (decodePacket packet this)) as found.
  intros found Hevents.
  assert (Hle : k <= FIRINGS_PER_PACKET) by lia.
  destruct (assemble_sweep_cases k found Hle)
    as [(_ & _ & E)|[(_ & _ & E)|[(_ & _ & E)|(_ & _ & E)]]];
    rewrite E in Hevents; discriminate.
Qed.

(** X11. As long as the decoder waits for its first revolution
    ([is_first_sweep]) a call publishes nothing, whatever the packet. *)
Theorem packetCallback_waiting_never_publishes (msg : list Z)
    (this this' : VelodynePuckDecoder) (events : list Event) :
  is_first_sweep this = true ->
  packetCallback msg this = Some (this', events) ->
  published events = [].
Proof.
  intros Hfirst Hcall. unfold packetCallback in Hcall.
  destruct (reinterpret_RawPacket msg) as [packet|]; [|discriminate].
  assert (Hevents : events = snd (decode packet this)).
  { injection Hcall as Hcall. now rewrite Hcall. }
  rewrite Hevents. clear Hcall Hevents this' events.
  destruct (decode_cases packet this)
    as [(blk & h & ->)|(k & found & Hk & -> & _ & _ & Ffirst & _)];
    [reflexivity|].
  rewrite Hfirst in Ffirst.
  destruct (assemble_sweep_cases k found Hk)
    as [(_ & _ & ->)|[(_ & _ & ->)|[(E & _)|(E & _)]]];
    try reflexivity; congruence.
Qed.

Lemma decode_keeps_running packet this :
  is_first_sweep this = false ->
  is_first_sweep (fst (decode packet this)) = false
  /\ ~ In ROS_INFO (snd (decode packet this)).
Proof.
  intros Hfirst.
  destruct (decode_cases packet this)
    as [(blk & h & ->)|(k & found & Hk & -> & _ & _ & Ffirst & _)].
  - split; [exact Hfirst|]. cbn. intros [H|[]]. discriminate.
  - rewrite Hfirst in Ffirst.
    destruct (assemble_sweep_cases k found Hk)
      as [(E & _)|[(E & _)|[(_ & _ & ->)|(_ & _ & ->)]]];
      try congruence; cbn [fst snd].
    + destruct (convert_firings_members 0 FIRINGS_PER_PACKET found)
        as (_ & _ & -> & _).
      split; [exact Ffirst|]. intros [].
    + destruct (convert_firings_members k FIRINGS_PER_PACKET
                  (opened_sweep k found)) as (_ & _ & -> & _).
      destruct (opened_sweep_members k found) as (_ & _ & _ & _ & -> & _).
      destruct (convert_firings_members 0 k found) as (_ & _ & Cfirst & _).
      split; [unfold closed_sweep; congruence|].
      cbn. intros [H|[]]. discriminate.
Qed.

(** X12. The waiting state is never entered again: from a decoder that has
    left it ([is_first_sweep] false), whatever the packets of the stream,
    the decoder at the end has not returned to it and the start of a first
    sweep was never reported ([ROS_INFO]). *)
Theorem packetCallbacks_never_wait_again (msgs : list (list Z))
    (this this' : VelodynePuckDecoder) (events : list Event) :
  is_first_sweep this = false ->
  packetCallbacks msgs this = Some (this', events) ->
  is_first_sweep this' = false /\ ~ In ROS_INFO events.
Proof.
  revert this this' events.
  induction msgs as [|msg rest IH]; intros this this' events Hfirst Hrun.
  - cbn in Hrun. injection Hrun as <- <-. split; [exact Hfirst|]. intros [].
  - cbn [packetCallbacks] in Hrun. unfold packetCallback in Hrun.
    destruct (reinterpret_RawPacket msg) as [packet|]; [|discriminate].
    destruct (decode_keeps_running packet this Hfirst) as [Hnext Hnone].
    destruct (decode packet this) as [next events1].
    cbn [fst snd] in Hnext, Hnone.
    destruct (packetCallbacks rest next) as [[last events2]|] eqn:Hrest;
      [|discriminate].
    injection Hrun as <- <-.
    destruct (IH _ _ _ Hnext Hrest) as [Hlast Hnone2].
    split; [exact Hlast|].
    intros Hin. apply in_app_or in Hin. tauto.
Qed.

Lemma length_in_range_points s this decoded start_fir_idx end_fir_idx c :
  min_range s = min_range this ->
  max_range s = max_range this ->
  firings s = firings decoded ->
  length (in_range_points s start_fir_idx end_fir_idx c)
  = length
      (List.filter (fun fir_idx =>
                 isPointInRange this
                   (distance (firings decoded fir_idx) (raw_scan_idx c)))
         (seq start_fir_idx (end_fir_idx - start_fir_idx))).
Proof.
  intros Hmin Hmax Hfs. unfold in_range_points. rewrite for_range_seq.
  generalize (seq start_fir_idx (end_fir_idx - start_fir_idx)) as l.
  induction l as [|fir_idx l IH]; [reflexivity|].
  cbn [flat_map List.filter]. rewrite length_app, IH.
  unfold project, isPointInRange.
  rewrite <- (out_of_range_ext this s (distance _ _)) by assumption.
  rewrite Hfs.
  destruct (out_of_range s _); reflexivity.
Qed.

(** X13. No measurement is lost or doubled by a call made while a sweep is
    in progress: for each channel, the points of the sweep the call
    publishes (if any) and of the sweep it leaves in progress are, in
    number, the points the sweep had before and one for each of the 24
    firings of the packet whose measurement on that channel passes
    [isPointInRange]. *)
Theorem packetCallback_conserves_points (msg : list Z) (packet : RawPacket)
    (this : VelodynePuckDecoder) (c : nat) :
  reinterpret_RawPacket msg = Some packet ->
  valid_packet packet ->
  is_first_sweep this = false ->
  c < 16 ->
  exists this' events,
    packetCallback msg this = Some (this', events)
    /\ length (flat_map (fun sweep => points (scans sweep c))
                 (published events))
       + length (channel this' c)
       = length (channel this c)
         + length
             (List.filter (fun fir_idx =>
                        isPointInRange this
                          (distance
                             (firings (decodePacket packet this) fir_idx)
                             (raw_scan_idx c)))
                (seq 0 FIRINGS_PER_PACKET)).
Proof.
  intros Hmsg Hvalid Hfirst Hc.
  rewrite (packetCallback_decode _ _ _ Hmsg).
  destruct (decode_valid_found packet this Hvalid)
    as (k & found & Hk & -> & Fmin & Fmax & Ffirst & Fpst & Ffs & Fsweep).
  rewrite Hfirst in Ffirst.
  assert (Hchannel : channel found c = channel this c)
    by (unfold channel; now rewrite Fsweep).
  destruct (assemble_sweep_cases k found Hk)
    as [(E & _)|[(E & _)|[(_ & _ & ->)|(_ & Hlt & ->)]]];
    try congruence.
  - exists (convert_firings 0 FIRINGS_PER_PACKET found), [].
    split; [reflexivity|]. cbn [published flat_map length Nat.add].
    rewrite convert_firings_channel by exact Hc.
    rewrite length_app, Hchannel.
    rewrite (length_in_range_points found this (decodePacket packet this))
      by assumption.
    now rewrite Nat.sub_0_r.
  - exists (convert_firings k FIRINGS_PER_PACKET (opened_sweep k found)),
           [publish (sweep_data (closed_sweep k found))].
    split; [reflexivity|].
    change (published [publish (sweep_data (closed_sweep k found))])
      with [sweep_data (closed_sweep k found)].
    change (flat_map (fun sweep => points (scans sweep c))
              [sweep_data (closed_sweep k found)])
      with (channel (convert_firings 0 k found) c ++ []).
    rewrite app_nil_r, (convert_firings_channel 0 k found c Hc).
    rewrite (opened_sweep_channel found found k c Hc eq_refl eq_refl eq_refl).
    rewrite length_app, Hchannel.
    rewrite (length_in_range_points found this (decodePacket packet this))
      by assumption.
    rewrite (length_in_range_points (set_packet_start_time 0.0%float found)
               this (decodePacket packet this)) by assumption.
    rewrite Nat.sub_0_r.
    assert (Hseq : forall n, k <= n -> seq 0 n = seq 0 k ++ seq k (n - k)).
    { intros n Hn. replace n with (k + (n - k)) at 1 by lia.
      now rewrite seq_app. }
    rewrite (Hseq FIRINGS_PER_PACKET Hk), List.filter_app, length_app. lia.
Qed.

(** X14. The last 6 bytes of the packet (the time stamp and the factory
    bytes) are never read: two buffers of at least 1206 bytes with the same
    first 1200 bytes give the same decoder and the same events. *)
Theorem packetCallback_reads_blocks_only (msg msg' : list Z)
    (this : VelodynePuckDecoder) :
  PACKET_SIZE <= length msg ->
  PACKET_SIZE <= length msg' ->
  (forall i, i < SIZE_BLOCK * BLOCKS_PER_PACKET ->
     nth i msg 0%Z = nth i msg' 0%Z) ->
  packetCallback msg this = packetCallback msg' this.
Proof.
  intros Hlen Hlen' Hsame. unfold packetCallback, reinterpret_RawPacket.
  cbv zeta. rewrite !length_app.
  unfold PACKET_SIZE, SIZE_BLOCK, BLOCKS_PER_PACKET in *.
  destruct (Nat.ltb_spec (length msg + length (beyond msg)) (100 * 12))
    as [Hlt|_]; [lia|].
  destruct (Nat.ltb_spec (length msg' + length (beyond msg')) (100 * 12))
    as [Hlt|_]; [lia|].
  rewrite (decode_same_blocks {| blocks := block_at (msg ++ beyond msg) |}
             {| blocks := block_at (msg' ++ beyond msg') |}); [reflexivity|].
  assert (Hnth : forall i, i < 100 * 12 ->
            nth i (msg ++ beyond msg) 0%Z = nth i (msg' ++ beyond msg') 0%Z)
    by (intros i Hi; rewrite !app_nth1 by lia; now apply Hsame).
  unfold same_blocks, BLOCKS_PER_PACKET.
  intros blk_idx Hblk. cbn [blocks]. unfold block_at, byte_at, SIZE_BLOCK.
  cbn [header rotation data].
  rewrite !Hnth by lia. split; [reflexivity|]. split; [reflexivity|].
  intros i Hi. apply Hnth. lia.
Qed.

Lemma opened_sweep_keeps_altitude k found c :
  altitude (scans (sweep_data (opened_sweep k found)) c)
  = altitude (scans (sweep_data (closed_sweep k found)) c).
Proof.
  unfold opened_sweep.
  cbn [sweep_data set_last_azimuth set_packet_start_time].
  apply clearSweepData_keeps_altitude.
Qed.

Lemma decode_keeps_altitudes packet this :
  (forall c, altitude (scans (sweep_data (fst (decode packet this))) c)
             = altitude (scans (sweep_data this) c))
  /\ forall sweep, In sweep (published (snd (decode packet this))) ->
       forall c, altitude (scans sweep c)
                 = altitude (scans (sweep_data this) c).
Proof.
  destruct (decode_cases packet this)
    as [(blk & h & ->)
       |(k & found & Hk & -> & _ & _ & _ & _ & _ & Fsweep)].
  - split; [reflexivity|]. intros sweep [].
  - rewrite <- Fsweep.
    destruct (assemble_sweep_cases k found Hk)
      as [(_ & _ & ->)|[(_ & _ & ->)|[(_ & _ & ->)|(_ & _ & ->)]]];
      cbn [fst snd published flat_map app].
    + split; [reflexivity|]. intros sweep [].
    + split; [|intros sweep []]. intros c.
      destruct (convert_firings_members k FIRINGS_PER_PACKET
                  (set_is_first_sweep false found))
        as (_ & _ & _ & _ & _ & _ & ->).
      reflexivity.
    + split; [|intros sweep []]. intros c.
      destruct (convert_firings_members 0 FIRINGS_PER_PACKET found)
        as (_ & _ & _ & _ & _ & _ & ->).
      reflexivity.
    + destruct (convert_firings_members 0 k found)
        as (_ & _ & _ & _ & _ & _ & Hclosed).
      split.
      * intros c.
        destruct (convert_firings_members k FIRINGS_PER_PACKET
                    (opened_sweep k found))
          as (_ & _ & _ & _ & _ & _ & ->).
        rewrite opened_sweep_keeps_altitude. apply Hclosed.
      * intros sweep [<-|[]] c. apply Hclosed.
Qed.

Lemma packetCallbacks_altitudes (msgs : list (list Z))
    (this this' : VelodynePuckDecoder) (events : list Event) :
  packetCallbacks msgs this = Some (this', events) ->
  (forall c, altitude (scans (sweep_data this') c)
             = altitude (scans (sweep_data this) c))
  /\ forall sweep, In sweep (published events) ->
       forall c, altitude (scans sweep c)
                 = altitude (scans (sweep_data this) c).
Proof.
  revert this this' events.
  induction msgs as [|msg rest IH]; intros this this' events Hrun.
  - cbn in Hrun. injection Hrun as <- <-.
    split; [reflexivity|]. intros sweep [].
  - cbn [packetCallbacks] in Hrun. unfold packetCallback in Hrun.
    destruct (reinterpret_RawPacket msg) as [packet|]; [|discriminate].
    destruct (decode_keeps_altitudes packet this) as [Hnext Hpub].
    destruct (decode packet this) as [next events1].
    cbn [fst snd] in Hnext, Hpub.
    destruct (packetCallbacks rest next) as [[last events2]|] eqn:Hrest;
      [|discriminate].
    injection Hrun as <- <-.
    destruct (IH _ _ _ Hrest) as [Hlast Hpub2].
    split.
    + intros c. now rewrite Hlast.
    + intros sweep Hin c. rewrite published_app in Hin.
      apply in_app_or in Hin. destruct Hin as [Hin|Hin].
      * now apply Hpub.
      * rewrite (Hpub2 sweep Hin c). apply Hnext.
Qed.

(** X15. The altitudes that [initialize] stores are never written again:
    over any stream of packets the altitude of each scan of the sweep in
    progress stays what it was, and each sweep published carries it. *)
Theorem packetCallbacks_keep_altitudes (msgs : list (list Z))
    (this this' : VelodynePuckDecoder) (events : list Event) :
  packetCallbacks msgs this = Some (this', events) ->
  (forall c, altitude (scans (sweep_data this') c)
             = altitude (scans (sweep_data this) c))
  /\ forall sweep, In sweep (published events) ->
       forall c, altitude (scans sweep c)
                 = altitude (scans (sweep_data this) c).
Proof. apply packetCallbacks_altitudes. Qed.

(** X16. From [initialize] to the subscribers: every sweep that a decoder
    set up by [initialize] publishes, whatever the stream, gives the scan of
    physical index [remapped_scan_idx scan_idx] the altitude
    [scan_altitude scan_idx]. *)
Theorem published_sweeps_carry_scan_altitudes (server : gmap string double)
    (this this' : VelodynePuckDecoder) (msgs : list (list Z))
    (events : list Event) (sweep : VelodynePuckSweep) (scan_idx : nat) :
  scan_idx < 16 ->
  packetCallbacks msgs (snd (initialize server this)) = Some (this', events) ->
  In sweep (published events) ->
  altitude (scans sweep (remapped_scan_idx scan_idx))
  = scan_altitude scan_idx.
Proof.
  intros Hscan Hrun Hin.
  destruct (packetCallbacks_altitudes _ _ _ _ Hrun) as [_ Hpub].
  rewrite (Hpub sweep Hin). now apply initialize_altitude.
Qed.

End MoreProperties.

(** * The claims on concrete packets *)

#[local] Existing Instance Vlp16.header.
#[local] Existing Instance Vlp16.memory.

(** C2. [loadParameters] does not leave max_range at 100 and is not
    indifferent to the frequency: the value it reads for "frequency", 20 when
    the server has none, is stored in max_range.  min_range is 0.5 by
    default. *)
Theorem loadParameters_stores_frequency_in_max_range
    (server : gmap string double) (this : VelodynePuckDecoder) (f : double) :
  min_range (snd (loadParameters ∅ this)) = 0.5%float
  /\ max_range (snd (loadParameters ∅ this)) = 20.0%float
  /\ max_range (snd (loadParameters (<["frequency" := f]> server) this)) = f.
Proof.
  unfold loadParameters, param. cbn [snd max_range min_range set_max_range set_min_range].
  rewrite lookup_insert_eq. rewrite !lookup_empty. auto.
Qed.

(** C1. The scenario of 8 on the decoder of a node.  Packets 1 and 2 do
    what the scenario says: packet 1 publishes nothing and leaves the decoder
    waiting; packet 2 starts the first sweep with its firings 8 to 23, 16
    points a channel.  Packet 3, whose azimuths stay between 17 and 40
    degrees and never decrease, is not appended to that sweep: the call
    publishes the 16 points a channel of packet 2 as a sweep and starts
    another one with the 24 firings of packet 3.  After packet 2 the decoder
    holds the azimuth of firing 7 as last_azimuth, not the one of firing
    23. *)
Theorem scenario_third_packet_publishes :
  Vlp16.counts (packetCallbacks [Vlp16.packet1] Vlp16.node)
  = Some (true, repeat 0 16, [])
  /\ Vlp16.counts (packetCallbacks [Vlp16.packet1; Vlp16.packet2] Vlp16.node)
     = Some (false, repeat 16 16, [])
  /\ never_decreases (packet_azimuth (Vlp16.packet_of Vlp16.packet2) 23)
       (stream_azimuths [Vlp16.packet_of Vlp16.packet3]) = true
  /\ last_azimuth (Vlp16.after [Vlp16.packet1; Vlp16.packet2] Vlp16.node)
     = packet_azimuth (Vlp16.packet_of Vlp16.packet2) 7
  /\ Vlp16.counts
       (packetCallback Vlp16.packet3
          (Vlp16.after [Vlp16.packet1; Vlp16.packet2] Vlp16.node))
     = Some (false, repeat 24 16, [repeat 16 16]).
Proof.
  repeat split; vm_compute; reflexivity.
Qed.

(** ** The buffers and decoders of the examples *)

Lemma reinterpret_full_size (msg : list Z) :
  Nat.ltb (length msg) PACKET_SIZE = false ->
  reinterpret_RawPacket msg = Some (Vlp16.packet_of msg).
Proof.
  intros Hlen. unfold reinterpret_RawPacket. cbn [beyond Vlp16.memory Vlp16.followed_by].
  rewrite app_nil_r.
  apply Nat.ltb_ge in Hlen.
  destruct (Nat.ltb_spec (length msg) (SIZE_BLOCK * BLOCKS_PER_PACKET))
    as [Hlt|_]; [|reflexivity].
  unfold PACKET_SIZE, SIZE_BLOCK, BLOCKS_PER_PACKET in *. lia.
Qed.

Lemma valid_packet_of (msg : list Z) :
  forallb (fun blk_idx => Z.eqb (header (block_at msg blk_idx)) UPPER_BANK)
    (seq 0 12) = true ->
  valid_packet (Vlp16.packet_of msg).
Proof.
  intros Hall blk_idx Hblk. rewrite forallb_forall in Hall.
  apply Z.eqb_eq. apply (Hall blk_idx). apply in_seq.
  unfold BLOCKS_PER_PACKET in Hblk. lia.
Qed.

Lemma packetCallbacks_result (msgs : list (list Z)) (this : VelodynePuckDecoder) :
  Vlp16.counts (packetCallbacks msgs this) <> None ->
  packetCallbacks msgs this
  = Some (Vlp16.after msgs this, Vlp16.events_of msgs this).
Proof.
  unfold Vlp16.after, Vlp16.events_of.
  destruct (packetCallbacks msgs this) as [[this' events]|];
    [reflexivity | intros Hnone; now elim Hnone].
Qed.

(** The decoder of the scenario after packets 1 and 2, a sweep in progress,
    and after packet 3. *)
Definition after_packet2 : VelodynePuckDecoder :=
  Vlp16.after [Vlp16.packet1; Vlp16.packet2] Vlp16.node.

Definition after_packet3 : VelodynePuckDecoder :=
  Vlp16.after [Vlp16.packet1; Vlp16.packet2; Vlp16.packet3] Vlp16.node.

(** ** C3 *)


(** Packet 2 cut to 1200 and to 1205 bytes, whole, and with one byte more:
    the four buffers start the first sweep of a node with the 16 firings
    from 8 to 23. *)
Example other_lengths_counts :
  map (fun msg => Vlp16.counts (packetCallback msg Vlp16.node))
    [firstn 1200 Vlp16.packet2; firstn 1205 Vlp16.packet2; Vlp16.packet2;
     Vlp16.packet2 ++ [0%Z]]
  = repeat (Some (false, repeat 16 16, [])) 4.
Proof. vm_compute. reflexivity. Qed.

(** A buffer of 1000 bytes, the start of packet 2, in a memory that holds
    the rest of packet 2 after it. *)
Definition short_buffer : list Z := firstn 1000 Vlp16.packet2.

Definition after_short_buffer : list Z := skipn 1000 Vlp16.packet2.

Definition short_memory : Memory := Vlp16.followed_by after_short_buffer.


(** The short buffer, counted: read with the bytes that follow it, it
    starts the first sweep of a node as packet 2 does.  Where nothing can
    be read after its 1000 bytes the read faults, and the call has no
    result. *)
Example short_buffer_counts :
  Vlp16.counts
    (@packetCallback Vlp16.header short_memory short_buffer Vlp16.node)
  = Some (false, repeat 16 16, [])
  /\ @packetCallback Vlp16.header Vlp16.memory short_buffer Vlp16.node = None.
Proof. split; vm_compute; reflexivity. Qed.

(** ** C4 *)

Lemma packetCallback_drops_invalid_packet_witness :
  header (blocks (Vlp16.packet_of Vlp16.bad_header) 5) <> UPPER_BANK
  /\ exists bad,
       bad <= 5
       /\ header (blocks (Vlp16.packet_of Vlp16.bad_header) bad) <> UPPER_BANK
       /\ (forall b, b < bad ->
             header (blocks (Vlp16.packet_of Vlp16.bad_header) b) = UPPER_BANK)
       /\ packetCallback Vlp16.bad_header after_packet2
          = Some (after_packet2,
                  [ROS_WARN bad
                     (header (blocks (Vlp16.packet_of Vlp16.bad_header) bad))]).
Proof.
  assert (Hbad : header (blocks (Vlp16.packet_of Vlp16.bad_header) 5)
                 <> UPPER_BANK) by (vm_compute; discriminate).
  split; [exact Hbad|].
  apply (packetCallback_drops_invalid_packet Vlp16.bad_header
           (Vlp16.packet_of Vlp16.bad_header) after_packet2 5).
  - apply reinterpret_full_size. vm_compute. reflexivity.
  - unfold BLOCKS_PER_PACKET. lia.
  - exact Hbad.
Defined.

(** ** C5 *)

Lemma packet4_valid : valid_packet (Vlp16.packet_of Vlp16.packet4).
Proof. apply valid_packet_of. vm_compute. reflexivity. Qed.

Lemma packet4_first_decrease :
  first_decrease
    (decodePacket (Vlp16.packet_of Vlp16.packet4) after_packet3) 3.
Proof.
  split; [|vm_compute; reflexivity].
  intros i Hi. cases_below i; vm_compute; reflexivity.
Qed.

Lemma packetCallback_closes_and_opens_sweep_witness :
  is_first_sweep after_packet3 = false
  /\ exists this' sweep,
       packetCallback Vlp16.packet4 after_packet3
       = Some (this', [publish sweep])
       /\ (forall c, c < 16 ->
             points (scans sweep c)
             = channel after_packet3 c
               ++ in_range_points
                    (decodePacket (Vlp16.packet_of Vlp16.packet4) after_packet3)
                    0 3 c)
       /\ (forall c, c < 16 ->
             channel this' c
             = in_range_points
                 (set_packet_start_time 0.0%float
                    (decodePacket (Vlp16.packet_of Vlp16.packet4)
                       after_packet3))
                 3 FIRINGS_PER_PACKET c)
       /\ packet_start_time this'
          = (0.0 + FIRING_TOFFSET
                   * double_of_size_t (FIRINGS_PER_PACKET - 3))%float
       /\ last_azimuth this'
          = firing_azimuth
              (firings
                 (decodePacket (Vlp16.packet_of Vlp16.packet4) after_packet3)
                 23)
       /\ is_first_sweep this' = false.
Proof.
  assert (Hfirst : is_first_sweep after_packet3 = false)
    by (vm_compute; reflexivity).
  split; [exact Hfirst|].
  apply (packetCallback_closes_and_opens_sweep Vlp16.packet4
           (Vlp16.packet_of Vlp16.packet4) after_packet3 3).
  - apply reinterpret_full_size. vm_compute. reflexivity.
  - exact packet4_valid.
  - exact Hfirst.
  - unfold FIRINGS_PER_PACKET, FIRINGS_PER_BLOCK, BLOCKS_PER_PACKET. lia.
  - exact packet4_first_decrease.
Defined.

(** The same call, counted: the sweep published holds the 24 firings of
    packet 3 and none of the 3 firings of packet 4 before the wrap, which
    measure 0.2 m as firing 3 does; the 20 firings from 4 to 23 open the
    next sweep. *)
Example packet4_counts :
  Vlp16.counts (packetCallback Vlp16.packet4 after_packet3)
  = Some (false, repeat 20 16, [repeat 24 16]).
Proof. vm_compute. reflexivity. Qed.

(** ** C6 *)

Lemma decodePacket_interpolates_azimuths_witness :
  (4 < BLOCKS_PER_PACKET /\ Nat.odd 7 = true /\ 7 < 23)
  /\ firing_azimuth
       (firings (decodePacket (Vlp16.packet_of Vlp16.packet2) Vlp16.node)
          (2 * 4))
     = rawAzimuthToDouble (rotation (blocks (Vlp16.packet_of Vlp16.packet2) 4))
  /\ firing_azimuth
       (firings (decodePacket (Vlp16.packet_of Vlp16.packet2) Vlp16.node) 7)
     = interpolated
         (firing_azimuth
            (firings (decodePacket (Vlp16.packet_of Vlp16.packet2) Vlp16.node)
               (7 - 1)))
         (firing_azimuth
            (firings (decodePacket (Vlp16.packet_of Vlp16.packet2) Vlp16.node)
               (7 - 1)))
         (firing_azimuth
            (firings (decodePacket (Vlp16.packet_of Vlp16.packet2) Vlp16.node)
               (7 + 1)))
  /\ firing_azimuth
       (firings (decodePacket (Vlp16.packet_of Vlp16.packet2) Vlp16.node) 23)
     = interpolated
         (firing_azimuth
            (firings (decodePacket (Vlp16.packet_of Vlp16.packet2) Vlp16.node)
               22))
         (firing_azimuth
            (firings (decodePacket (Vlp16.packet_of Vlp16.packet2) Vlp16.node)
               20))
         (firing_azimuth
            (firings (decodePacket (Vlp16.packet_of Vlp16.packet2) Vlp16.node)
               22)).
Proof.
  assert (H4 : 4 < BLOCKS_PER_PACKET) by (unfold BLOCKS_PER_PACKET; lia).
  assert (H7 : 7 < 23) by lia.
  destruct (decodePacket_interpolates_azimuths
              (Vlp16.packet_of Vlp16.packet2) Vlp16.node)
    as (Heven & Hodd & Hlast).
  split; [split; [exact H4 | split; [reflexivity | exact H7]]|].
  split; [exact (Heven 4 H4)|].
  split; [exact (Hodd 7 eq_refl H7) | exact Hlast].
Defined.

(** The azimuths of firings 6, 7 and 8 of packet 2, which cross 0: 358.5
    degrees, 359.75 degrees (half of the 2.5 degrees from 358.5 to 1, a turn
    added to the difference) and 1 degree. *)
Example packet2_azimuths_across_zero :
  map (packet_azimuth (Vlp16.packet_of Vlp16.packet2)) [6; 7; 8]
  = [6.2570053683996711%float; 6.2788219840495998%float;
     0.017453292519943295%float].
Proof. vm_compute. reflexivity. Qed.

(** ** C7 *)

Lemma packetCallback_full_size (msg : list Z) (this : VelodynePuckDecoder) :
  Nat.ltb (length msg) PACKET_SIZE = false ->
  packetCallback msg this
  = Some (fst (decode (Vlp16.packet_of msg) this),
          snd (decode (Vlp16.packet_of msg) this)).
Proof.
  intros Hlen.
  rewrite (packetCallback_decode _ _ _ (reinterpret_full_size msg Hlen)).
  now destruct (decode _ this).
Qed.

(** The decoder that packet 3 leaves, and the first point of its channel
    0. *)
Definition with_packet3 : VelodynePuckDecoder :=
  fst (decode (Vlp16.packet_of Vlp16.packet3) after_packet2).

Definition first_point_of_packet3 : VelodynePuckPoint :=
  hd {| velodyne_puck_msgs.time := 0; velodyne_puck_msgs.x := 0;
        velodyne_puck_msgs.y := 0; velodyne_puck_msgs.z := 0;
        velodyne_puck_msgs.azimuth := 0; velodyne_puck_msgs.distance := 0;
        velodyne_puck_msgs.intensity := 0 |}%float
    (channel with_packet3 0).

Lemma appended_points_are_projections_witness :
  In first_point_of_packet3 (channel with_packet3 0)
  /\ (In first_point_of_packet3 (channel after_packet2 0)
      \/ exists fir_idx scan_idx pst,
           fir_idx < FIRINGS_PER_PACKET /\ scan_idx < SCANS_PER_FIRING
           /\ remapped_scan_idx scan_idx = 0
           /\ (pst = packet_start_time after_packet2 \/ pst = 0.0%float)
           /\ let d := distance (firings with_packet3 fir_idx) scan_idx in
              let a := azimuth (firings with_packet3 fir_idx) scan_idx in
              let x := (d * cos_scan_altitude scan_idx * sin a)%float in
              let y := (d * cos_scan_altitude scan_idx * cos a)%float in
              let z := (d * sin_scan_altitude scan_idx)%float in
              velodyne_puck_msgs.x first_point_of_packet3 = y
              /\ velodyne_puck_msgs.y first_point_of_packet3 = (- x)%float
              /\ velodyne_puck_msgs.z first_point_of_packet3 = z
              /\ velodyne_puck_msgs.time first_point_of_packet3
                 = (pst + FIRING_TOFFSET * double_of_size_t fir_idx
                    + DSR_TOFFSET * double_of_size_t scan_idx)%float
              /\ velodyne_puck_msgs.distance first_point_of_packet3 = d
              /\ velodyne_puck_msgs.azimuth first_point_of_packet3 = a).
Proof.
  assert (Hin : In first_point_of_packet3 (channel with_packet3 0))
    by (vm_compute; left; reflexivity).
  split; [exact Hin|].
  apply (appended_points_are_projections Vlp16.packet3 after_packet2
           with_packet3
           (snd (decode (Vlp16.packet_of Vlp16.packet3) after_packet2))
           0 first_point_of_packet3).
  - apply packetCallback_full_size. vm_compute. reflexivity.
  - lia.
  - left. exact Hin.
Defined.

(** ** C8 *)

Definition scenario : list (list Z) :=
  [Vlp16.packet1; Vlp16.packet2; Vlp16.packet3; Vlp16.packet4].

Lemma node_in_range : in_range_sweep Vlp16.node (sweep_data Vlp16.node).
Proof.
  intros c p Hc Hin. exfalso. revert Hin.
  cases_below c; vm_compute; trivial.
Qed.

Lemma published_sweeps_are_in_range_witness :
  in_range_sweep Vlp16.node (sweep_data Vlp16.node)
  /\ (forall sweep c p,
        In sweep (published (Vlp16.events_of scenario Vlp16.node)) ->
        c < 16 ->
        In p (points (scans sweep c)) ->
        (velodyne_puck_msgs.distance p <? min_range Vlp16.node)%float = false
        /\ (max_range Vlp16.node <? velodyne_puck_msgs.distance p)%float
           = false)
  /\ (forall decoder fir_idx scan_idx,
        out_of_range decoder (distance (firings decoder fir_idx) scan_idx)
        = true ->
        convert_point decoder fir_idx scan_idx = decoder).
Proof.
  split; [exact node_in_range|].
  apply (published_sweeps_are_in_range scenario Vlp16.node
           (Vlp16.after scenario Vlp16.node)
           (Vlp16.events_of scenario Vlp16.node)).
  - exact node_in_range.
  - apply packetCallbacks_result. vm_compute. discriminate.
Defined.

(** The scenario, counted.  The measurements of 0.2 m of the first two
    blocks of packet 4 are in no sweep: the sweep that packet 4 closes
    holds the 24 firings of packet 3 alone, and the one it opens the 20
    firings of its other blocks. *)
Example scenario_counts :
  Vlp16.counts (packetCallbacks scenario Vlp16.node)
  = Some (false, repeat 20 16, [repeat 16 16; repeat 24 16]).
Proof. vm_compute. reflexivity. Qed.

(** ** C9 *)

Lemma waiting_decoder_stays_silent_witness :
  never_decreases (last_azimuth Vlp16.node)
    (stream_azimuths [Vlp16.packet_of Vlp16.packet1;
                      Vlp16.packet_of Vlp16.packet1b]) = true
  /\ exists this',
       packetCallbacks [Vlp16.packet1; Vlp16.packet1b] Vlp16.node
       = Some (this', [])
       /\ is_first_sweep this' = true
       /\ sweep_data this' = sweep_data Vlp16.node
       /\ packet_start_time this' = packet_start_time Vlp16.node.
Proof.
  assert (Hnever : never_decreases (last_azimuth Vlp16.node)
                     (stream_azimuths [Vlp16.packet_of Vlp16.packet1;
                                       Vlp16.packet_of Vlp16.packet1b])
                   = true) by (vm_compute; reflexivity).
  split; [exact Hnever|].
  apply (waiting_decoder_stays_silent
           [Vlp16.packet1; Vlp16.packet1b]
           [Vlp16.packet_of Vlp16.packet1; Vlp16.packet_of Vlp16.packet1b]
           Vlp16.node).
  - repeat constructor; apply reinterpret_full_size; vm_compute; reflexivity.
  - repeat constructor; apply valid_packet_of; vm_compute; reflexivity.
  - vm_compute. reflexivity.
  - exact Hnever.
Defined.

(** ** C10 *)

Lemma two_wraps_valid : valid_packet (Vlp16.packet_of Vlp16.two_wraps).
Proof. apply valid_packet_of. vm_compute. reflexivity. Qed.

Lemma two_wraps_first_decrease :
  first_decrease
    (decodePacket (Vlp16.packet_of Vlp16.two_wraps) after_packet3) 3.
Proof.
  split; [|vm_compute; reflexivity].
  intros i Hi. cases_below i; vm_compute; reflexivity.
Qed.

(** The azimuths of the packet decrease a second time, at firing 12. *)
Example two_wraps_second_decrease :
  decreases_at
    (decodePacket (Vlp16.packet_of Vlp16.two_wraps) after_packet3) 12
  = true.
Proof. vm_compute. reflexivity. Qed.

Lemma packetCallback_publishes_at_most_once_witness :
  exists this' events,
    packetCallback Vlp16.two_wraps after_packet3 = Some (this', events)
    /\ length (published events) <= 1
    /\ length (published events) = 1
    /\ forall c, c < 16 ->
         channel this' c
         = in_range_points
             (set_packet_start_time 0.0%float
                (decodePacket (Vlp16.packet_of Vlp16.two_wraps) after_packet3))
             3 FIRINGS_PER_PACKET c.
Proof.
  destruct (packetCallback_publishes_at_most_once Vlp16.two_wraps
              (Vlp16.packet_of Vlp16.two_wraps) after_packet3)
    as (this' & events & Hcall & Hmost & Hwrap).
  - apply reinterpret_full_size. vm_compute. reflexivity.
  - exists this', events.
    split; [exact Hcall|]. split; [exact Hmost|].
    apply (Hwrap 3).
    + exact two_wraps_valid.
    + vm_compute. reflexivity.
    + unfold FIRINGS_PER_PACKET, FIRINGS_PER_BLOCK, BLOCKS_PER_PACKET. lia.
    + exact two_wraps_first_decrease.
Defined.

(** The call, counted: one sweep published (the 24 firings of packet 3 and
    firings 0 to 2 of this packet), and the 21 firings from 3 to 23 in the
    sweep that follows, the second decrease included. *)
Example two_wraps_counts :
  Vlp16.counts (packetCallback Vlp16.two_wraps after_packet3)
  = Some (false, repeat 21 16, [repeat 27 16]).
Proof. vm_compute. reflexivity. Qed.

(** * More of the decoder, on concrete packets *)

(** A decoder as the constructor leaves it, and the one of a node after
    packet 1, which still waits for its first revolution. *)
Definition constructed : VelodynePuckDecoder :=
  new_VelodynePuckDecoder 0%float 0%float (fun _ => Vlp16.blank_firing).

Definition after_packet1 : VelodynePuckDecoder :=
  Vlp16.after [Vlp16.packet1] Vlp16.node.

(** A packet that goes on after packet 3 without a decrease, from 41 to 63
    degrees. *)
Definition packet3b : list Z :=
  Vlp16.raw_packet (Vlp16.at_10m [4100; 4300; 4500; 4700; 4900; 5100; 5300;
                                  5500; 5700; 5900; 6100; 6300]%Z).

(** Packet 2 with other bytes after its blocks. *)
Definition other_trailer : list Z :=
  firstn 1200 Vlp16.packet2 ++ [1; 2; 3; 4; 5; 6]%Z.

Lemma bytes_in_range (msg : list Z) :
  forallb (fun b => (0 <=? b)%Z && (b <? 256)%Z) msg = true ->
  Forall (fun b => (0 <= b < 256)%Z) msg.
Proof.
  intros Hall. apply List.Forall_forall. intros b Hb.
  rewrite forallb_forall in Hall. specialize (Hall b Hb).
  apply andb_prop in Hall. destruct Hall as [Hlo Hhi].
  apply Z.leb_le in Hlo. apply Z.ltb_lt in Hhi. lia.
Qed.

Lemma same_first_bytes (n : nat) (msg msg' : list Z) :
  forallb (fun i => Z.eqb (nth i msg 0%Z) (nth i msg' 0%Z)) (seq 0 n) = true ->
  forall i, i < n -> nth i msg 0%Z = nth i msg' 0%Z.
Proof.
  intros Hall i Hi. rewrite forallb_forall in Hall.
  apply Z.eqb_eq. apply (Hall i). apply in_seq. lia.
Qed.

Lemma firings_per_packet (k : nat) : k < 24 -> k < FIRINGS_PER_PACKET.
Proof.
  unfold FIRINGS_PER_PACKET, FIRINGS_PER_BLOCK, BLOCKS_PER_PACKET. lia.
Qed.

Lemma packet2_read :
  reinterpret_RawPacket Vlp16.packet2 = Some (Vlp16.packet_of Vlp16.packet2).
Proof. apply reinterpret_full_size. vm_compute. reflexivity. Qed.

Lemma packet2_valid : valid_packet (Vlp16.packet_of Vlp16.packet2).
Proof. apply valid_packet_of. vm_compute. reflexivity. Qed.

Lemma packet3_valid : valid_packet (Vlp16.packet_of Vlp16.packet3).
Proof. apply valid_packet_of. vm_compute. reflexivity. Qed.

Lemma packet3b_valid : valid_packet (Vlp16.packet_of packet3b).
Proof. apply valid_packet_of. vm_compute. reflexivity. Qed.

Lemma packet2_first_decrease :
  first_decrease
    (decodePacket (Vlp16.packet_of Vlp16.packet2) after_packet1) 8.
Proof.
  split; [|vm_compute; reflexivity].
  intros i Hi. cases_below i; vm_compute; reflexivity.
Qed.

Lemma packet3b_no_decrease :
  no_decrease (decodePacket (Vlp16.packet_of packet3b) after_packet3).
Proof.
  intros i Hi.
  unfold FIRINGS_PER_PACKET, FIRINGS_PER_BLOCK, BLOCKS_PER_PACKET in Hi.
  cbn in Hi. cases_below i; vm_compute; reflexivity.
Qed.

Lemma scenario_result :
  packetCallbacks scenario Vlp16.node
  = Some (Vlp16.after scenario Vlp16.node,
          Vlp16.events_of scenario Vlp16.node).
Proof. apply packetCallbacks_result. vm_compute. discriminate. Qed.

(** ** X1 *)

Lemma remapped_scan_idx_bijection_witness :
  (3 < SCANS_PER_FIRING /\ 5 < SCANS_PER_FIRING)
  /\ remapped_scan_idx 3 < 16
  /\ raw_scan_idx (remapped_scan_idx 3) = 3
  /\ remapped_scan_idx (raw_scan_idx 3) = 3
  /\ (remapped_scan_idx 3 = remapped_scan_idx 5 -> 3 = 5).
Proof.
  assert (H3 : 3 < SCANS_PER_FIRING) by (unfold SCANS_PER_FIRING; lia).
  assert (H5 : 5 < SCANS_PER_FIRING) by (unfold SCANS_PER_FIRING; lia).
  split; [split; assumption|].
  exact (remapped_scan_idx_bijection 3 5 H3 H5).
Defined.

(** ** X4 *)

Lemma initialize_sets_altitudes_witness :
  3 < 16
  /\ fst (initialize ∅ constructed) = true
  /\ altitude (scans (sweep_data (snd (initialize ∅ constructed)))
                (remapped_scan_idx 3))
     = scan_altitude 3
  /\ (forall c, points (scans (sweep_data (snd (initialize ∅ constructed))) c)
               = points (scans (sweep_data constructed) c))
  /\ is_first_sweep (snd (initialize ∅ constructed))
     = is_first_sweep constructed
  /\ last_azimuth (snd (initialize ∅ constructed)) = last_azimuth constructed
  /\ packet_start_time (snd (initialize ∅ constructed))
     = packet_start_time constructed
  /\ firings (snd (initialize ∅ constructed)) = firings constructed.
Proof.
  assert (H3 : 3 < 16) by lia.
  split; [exact H3|].
  exact (initialize_sets_altitudes ∅ constructed 3 H3).
Defined.

(** ** X5 *)

Lemma decodePacket_reads_measurements_witness :
  (SIZE_BLOCK * BLOCKS_PER_PACKET <= length Vlp16.packet2
   /\ Forall (fun b => (0 <= b < 256)%Z) Vlp16.packet2)
  /\ distance
       (firings (decodePacket (Vlp16.packet_of Vlp16.packet2) Vlp16.node) 7) 3
     = (static_cast_double
          (nth (100 * Nat.div 7 2 + 4 + 3 * (16 * Nat.modulo 7 2 + 3))
             Vlp16.packet2 0
           + 256
             * nth (100 * Nat.div 7 2 + 4 + 3 * (16 * Nat.modulo 7 2 + 3) + 1)
                 Vlp16.packet2 0)%Z
        * DISTANCE_RESOLUTION)%float
  /\ intensity
       (firings (decodePacket (Vlp16.packet_of Vlp16.packet2) Vlp16.node) 7) 3
     = static_cast_double
         (nth (100 * Nat.div 7 2 + 4 + 3 * (16 * Nat.modulo 7 2 + 3) + 2)
            Vlp16.packet2 0%Z).
Proof.
  assert (Hbytes : Forall (fun b => (0 <= b < 256)%Z) Vlp16.packet2)
    by (apply bytes_in_range; vm_compute; reflexivity).
  assert (Hlen : SIZE_BLOCK * BLOCKS_PER_PACKET <= length Vlp16.packet2)
    by (vm_compute; lia).
  split; [split; [exact Hlen | exact Hbytes]|].
  apply (decodePacket_reads_measurements Vlp16.packet2
           (Vlp16.packet_of Vlp16.packet2) Vlp16.node 7 3).
  - exact packet2_read.
  - exact Hlen.
  - exact Hbytes.
  - apply firings_per_packet. lia.
  - unfold SCANS_PER_FIRING. lia.
Defined.

(** The measurement read there, at bytes 361 to 363 of the buffer: 0x88
    and 0x13, 5000 units of 2 mm, and an intensity of 100. *)
Example packet2_firing7_scan3 :
  map (fun i => nth i Vlp16.packet2 0%Z) [361; 362; 363] = [136; 19; 100]%Z
  /\ distance
       (firings (decodePacket (Vlp16.packet_of Vlp16.packet2) Vlp16.node) 7) 3
     = 10%float
  /\ intensity
       (firings (decodePacket (Vlp16.packet_of Vlp16.packet2) Vlp16.node) 7) 3
     = 100%float.
Proof. repeat split; vm_compute; reflexivity. Qed.

(** ** X6 *)

Lemma decodePacket_spreads_azimuth_witness :
  (7 < FIRINGS_PER_PACKET /\ 3 < SCANS_PER_FIRING)
  /\ azimuth
       (firings (decodePacket (Vlp16.packet_of Vlp16.packet2) Vlp16.node) 7) 3
     = (firing_azimuth
          (firings (decodePacket (Vlp16.packet_of Vlp16.packet2) Vlp16.node)
             7%nat)
        + (double_of_size_t 3 * DSR_TOFFSET / FIRING_TOFFSET)
          * (if Nat.ltb 7 23
             then firing_azimuth
                    (firings
                       (decodePacket (Vlp16.packet_of Vlp16.packet2)
                          Vlp16.node) (7 + 1)%nat)
                  - firing_azimuth
                      (firings
                         (decodePacket (Vlp16.packet_of Vlp16.packet2)
                            Vlp16.node) 7%nat)
             else firing_azimuth
                    (firings
                       (decodePacket (Vlp16.packet_of Vlp16.packet2)
                          Vlp16.node) 7%nat)
                  - firing_azimuth
                      (firings
                         (decodePacket (Vlp16.packet_of Vlp16.packet2)
                            Vlp16.node) (7 - 1)%nat)))%float.
Proof.
  assert (H7 : 7 < FIRINGS_PER_PACKET) by (apply firings_per_packet; lia).
  assert (H3 : 3 < SCANS_PER_FIRING) by (unfold SCANS_PER_FIRING; lia).
  split; [split; assumption|].
  exact (decodePacket_spreads_azimuth (Vlp16.packet_of Vlp16.packet2)
           Vlp16.node 7 3 H7 H3).
Defined.

(** ** X7 *)

Lemma decodePacket_overwrites_firings_witness :
  (7 < FIRINGS_PER_PACKET /\ 3 < SCANS_PER_FIRING)
  /\ firing_azimuth
       (firings (decodePacket (Vlp16.packet_of Vlp16.packet2) Vlp16.node) 7)
     = firing_azimuth
         (firings (decodePacket (Vlp16.packet_of Vlp16.packet2) after_packet3)
            7)
  /\ azimuth
       (firings (decodePacket (Vlp16.packet_of Vlp16.packet2) Vlp16.node) 7) 3
     = azimuth
         (firings (decodePacket (Vlp16.packet_of Vlp16.packet2) after_packet3)
            7) 3
  /\ distance
       (firings (decodePacket (Vlp16.packet_of Vlp16.packet2) Vlp16.node) 7) 3
     = distance
         (firings (decodePacket (Vlp16.packet_of Vlp16.packet2) after_packet3)
            7) 3
  /\ intensity
       (firings (decodePacket (Vlp16.packet_of Vlp16.packet2) Vlp16.node) 7) 3
     = intensity
         (firings (decodePacket (Vlp16.packet_of Vlp16.packet2) after_packet3)
            7) 3.
Proof.
  assert (H7 : 7 < FIRINGS_PER_PACKET) by (apply firings_per_packet; lia).
  assert (H3 : 3 < SCANS_PER_FIRING) by (unfold SCANS_PER_FIRING; lia).
  split; [split; assumption|].
  exact (decodePacket_overwrites_firings (Vlp16.packet_of Vlp16.packet2)
           Vlp16.node after_packet3 7 3 H7 H3).
Defined.

(** ** X8 *)

Lemma packetCallback_starts_first_sweep_witness :
  is_first_sweep after_packet1 = true
  /\ exists this',
       packetCallback Vlp16.packet2 after_packet1 = Some (this', [ROS_INFO])
       /\ is_first_sweep this' = false
       /\ (forall c, c < 16 ->
             channel this' c
             = channel after_packet1 c
               ++ in_range_points
                    (decodePacket (Vlp16.packet_of Vlp16.packet2)
                       after_packet1)
                    8 FIRINGS_PER_PACKET c)
       /\ packet_start_time this'
          = (packet_start_time after_packet1
             + FIRING_TOFFSET
               * double_of_size_t (FIRINGS_PER_PACKET - 8))%float
       /\ last_azimuth this'
          = seen_before
              (decodePacket (Vlp16.packet_of Vlp16.packet2) after_packet1) 8.
Proof.
  assert (Hfirst : is_first_sweep after_packet1 = true)
    by (vm_compute; reflexivity).
  split; [exact Hfirst|].
  apply (packetCallback_starts_first_sweep Vlp16.packet2
           (Vlp16.packet_of Vlp16.packet2) after_packet1 8).
  - exact packet2_read.
  - exact packet2_valid.
  - exact Hfirst.
  - apply firings_per_packet. lia.
  - exact packet2_first_decrease.
Defined.

(** ** X9 *)

Lemma packetCallback_appends_whole_packet_witness :
  is_first_sweep after_packet3 = false
  /\ exists this',
       packetCallback packet3b after_packet3 = Some (this', [])
       /\ is_first_sweep this' = false
       /\ (forall c, c < 16 ->
             channel this' c
             = channel after_packet3 c
               ++ in_range_points
                    (decodePacket (Vlp16.packet_of packet3b) after_packet3)
                    0 FIRINGS_PER_PACKET c)
       /\ packet_start_time this'
          = (packet_start_time after_packet3
             + FIRING_TOFFSET
               * double_of_size_t (FIRINGS_PER_PACKET - 0))%float
       /\ last_azimuth this'
          = firing_azimuth
              (firings (decodePacket (Vlp16.packet_of packet3b) after_packet3)
                 23).
Proof.
  assert (Hfirst : is_first_sweep after_packet3 = false)
    by (vm_compute; reflexivity).
  split; [exact Hfirst|].
  apply (packetCallback_appends_whole_packet packet3b
           (Vlp16.packet_of packet3b) after_packet3).
  - apply reinterpret_full_size. vm_compute. reflexivity.
  - exact packet3b_valid.
  - exact Hfirst.
  - exact packet3b_no_decrease.
Defined.

(** The call, counted: the 24 firings of the packet join the 24 of packet 3
    and nothing is published. *)
Example packet3b_counts :
  Vlp16.counts (packetCallback packet3b after_packet3)
  = Some (false, repeat 48 16, []).
Proof. vm_compute. reflexivity. Qed.

(** ** X10 *)

Lemma packetCallback_wrap_at_firing_0_witness :
  (is_first_sweep after_packet2 = false
   /\ (firing_azimuth
         (firings (decodePacket (Vlp16.packet_of Vlp16.packet3) after_packet2)
            0%nat)
       <? last_azimuth after_packet2)%float = true)
  /\ exists this' sweep,
       packetCallback Vlp16.packet3 after_packet2
       = Some (this', [publish sweep])
       /\ (forall c, c < 16 -> points (scans sweep c) = channel after_packet2 c)
       /\ (forall c, c < 16 ->
             channel this' c
             = in_range_points
                 (set_packet_start_time 0.0%float
                    (decodePacket (Vlp16.packet_of Vlp16.packet3)
                       after_packet2))
                 0 FIRINGS_PER_PACKET c)
       /\ packet_start_time this'
          = (0.0 + FIRING_TOFFSET
                   * double_of_size_t (FIRINGS_PER_PACKET - 0))%float
       /\ last_azimuth this'
          = firing_azimuth
              (firings
                 (decodePacket (Vlp16.packet_of Vlp16.packet3) after_packet2)
                 23).
Proof.
  assert (Hfirst : is_first_sweep after_packet2 = false)
    by (vm_compute; reflexivity).
  assert (Hbelow : (firing_azimuth
                      (firings
                         (decodePacket (Vlp16.packet_of Vlp16.packet3)
                            after_packet2) 0%nat)
                    <? last_azimuth after_packet2)%float = true)
    by (vm_compute; reflexivity).
  split; [split; assumption|].
  apply (packetCallback_wrap_at_firing_0 Vlp16.packet3
           (Vlp16.packet_of Vlp16.packet3) after_packet2).
  - apply reinterpret_full_size. vm_compute. reflexivity.
  - exact packet3_valid.
  - exact Hfirst.
  - exact Hbelow.
Defined.

(** ** X11 *)

Lemma packetCallback_waiting_never_publishes_witness :
  is_first_sweep after_packet1 = true
  /\ packetCallback Vlp16.packet2 after_packet1
     = Some (fst (decode (Vlp16.packet_of Vlp16.packet2) after_packet1),
             snd (decode (Vlp16.packet_of Vlp16.packet2) after_packet1))
  /\ published (snd (decode (Vlp16.packet_of Vlp16.packet2) after_packet1))
     = [].
Proof.
  assert (Hfirst : is_first_sweep after_packet1 = true)
    by (vm_compute; reflexivity).
  assert (Hcall : packetCallback Vlp16.packet2 after_packet1
                  = Some (fst (decode (Vlp16.packet_of Vlp16.packet2)
                                 after_packet1),
                          snd (decode (Vlp16.packet_of Vlp16.packet2)
                                 after_packet1)))
    by (apply packetCallback_full_size; vm_compute; reflexivity).
  split; [exact Hfirst|]. split; [exact Hcall|].
  exact (packetCallback_waiting_never_publishes Vlp16.packet2 after_packet1
           _ _ Hfirst Hcall).
Defined.

(** ** X12 *)

Lemma packetCallbacks_never_wait_again_witness :
  is_first_sweep after_packet2 = false
  /\ packetCallbacks [Vlp16.packet3; Vlp16.packet4] after_packet2
     = Some (Vlp16.after [Vlp16.packet3; Vlp16.packet4] after_packet2,
             Vlp16.events_of [Vlp16.packet3; Vlp16.packet4] after_packet2)
  /\ is_first_sweep
       (Vlp16.after [Vlp16.packet3; Vlp16.packet4] after_packet2) = false
  /\ ~ In ROS_INFO
         (Vlp16.events_of [Vlp16.packet3; Vlp16.packet4] after_packet2).
Proof.
  assert (Hfirst : is_first_sweep after_packet2 = false)
    by (vm_compute; reflexivity).
  assert (Hrun : packetCallbacks [Vlp16.packet3; Vlp16.packet4] after_packet2
                 = Some (Vlp16.after [Vlp16.packet3; Vlp16.packet4]
                           after_packet2,
                         Vlp16.events_of [Vlp16.packet3; Vlp16.packet4]
                           after_packet2))
    by (apply packetCallbacks_result; vm_compute; discriminate).
  split; [exact Hfirst|]. split; [exact Hrun|].
  exact (packetCallbacks_never_wait_again [Vlp16.packet3; Vlp16.packet4]
           after_packet2 _ _ Hfirst Hrun).
Defined.

(** ** X13 *)

Lemma packetCallback_conserves_points_witness :
  is_first_sweep after_packet3 = false
  /\ exists this' events,
       packetCallback Vlp16.packet4 after_packet3 = Some (this', events)
       /\ length (flat_map (fun sweep => points (scans sweep 0))
                    (published events))
          + length (channel this' 0)
          = length (channel after_packet3 0)
            + length
                (List.filter
                   (fun fir_idx =>
                      isPointInRange after_packet3
                        (distance
                           (firings
                              (decodePacket (Vlp16.packet_of Vlp16.packet4)
                                 after_packet3) fir_idx)
                           (raw_scan_idx 0)))
                   (seq 0 FIRINGS_PER_PACKET)).
Proof.
  assert (Hfirst : is_first_sweep after_packet3 = false)
    by (vm_compute; reflexivity).
  split; [exact Hfirst|].
  apply (packetCallback_conserves_points Vlp16.packet4
           (Vlp16.packet_of Vlp16.packet4) after_packet3 0).
  - apply reinterpret_full_size. vm_compute. reflexivity.
  - exact packet4_valid.
  - exact Hfirst.
  - lia.
Defined.

(** Packet 4 brings 20 points a channel, the 4 firings of its first two
    blocks being out of range: 24 + 20 = 24 published + 20 in progress. *)
Example packet4_in_range_firings :
  length
    (List.filter
       (fun fir_idx =>
          isPointInRange after_packet3
            (distance
               (firings
                  (decodePacket (Vlp16.packet_of Vlp16.packet4) after_packet3)
                  fir_idx)
               (raw_scan_idx 0)))
       (seq 0 FIRINGS_PER_PACKET))
  = 20.
Proof. vm_compute. reflexivity. Qed.

(** ** X14 *)

Lemma packetCallback_reads_blocks_only_witness :
  (PACKET_SIZE <= length Vlp16.packet2
   /\ PACKET_SIZE <= length other_trailer
   /\ skipn 1200 Vlp16.packet2 <> skipn 1200 other_trailer)
  /\ packetCallback Vlp16.packet2 after_packet1
     = packetCallback other_trailer after_packet1.
Proof.
  assert (Hlen : PACKET_SIZE <= length Vlp16.packet2) by (vm_compute; lia).
  assert (Hlen' : PACKET_SIZE <= length other_trailer) by (vm_compute; lia).
  split; [split; [exact Hlen | split; [exact Hlen'|]]|].
  - vm_compute. discriminate.
  - apply (packetCallback_reads_blocks_only Vlp16.packet2 other_trailer
             after_packet1 Hlen Hlen').
    apply same_first_bytes. vm_compute. reflexivity.
Defined.

(** ** X15 *)

Lemma packetCallbacks_keep_altitudes_witness :
  packetCallbacks scenario Vlp16.node
  = Some (Vlp16.after scenario Vlp16.node, Vlp16.events_of scenario Vlp16.node)
  /\ (forall c,
        altitude (scans (sweep_data (Vlp16.after scenario Vlp16.node)) c)
        = altitude (scans (sweep_data Vlp16.node) c))
  /\ forall sweep, In sweep (published (Vlp16.events_of scenario Vlp16.node)) ->
       forall c, altitude (scans sweep c)
                 = altitude (scans (sweep_data Vlp16.node) c).
Proof.
  split; [exact scenario_result|].
  exact (packetCallbacks_keep_altitudes scenario Vlp16.node _ _
           scenario_result).
Defined.

(** ** X16 *)

(** The first sweep that the scenario publishes. *)
Definition first_published : VelodynePuckSweep :=
  hd (new_VelodynePuckSweep 0%float)
    (published (Vlp16.events_of scenario Vlp16.node)).

Lemma published_sweeps_carry_scan_altitudes_witness :
  (3 < 16
   /\ packetCallbacks scenario (snd (initialize ∅ constructed))
      = Some (Vlp16.after scenario Vlp16.node,
              Vlp16.events_of scenario Vlp16.node)
   /\ In first_published (published (Vlp16.events_of scenario Vlp16.node)))
  /\ altitude (scans first_published (remapped_scan_idx 3)) = scan_altitude 3.
Proof.
  assert (H3 : 3 < 16) by lia.
  assert (Hin : In first_published
                  (published (Vlp16.events_of scenario Vlp16.node)))
    by (vm_compute; left; reflexivity).
  split; [split; [exact H3 | split; [exact scenario_result | exact Hin]]|].
  exact (published_sweeps_carry_scan_altitudes ∅ constructed
           (Vlp16.after scenario Vlp16.node) scenario
           (Vlp16.events_of scenario Vlp16.node) first_published 3
           H3 scenario_result Hin).
Defined.
